(** * youtube-dl, extractor/common.py: manifest parsers and format sorting

    A shallow embedding of the format selection code ([_sort_formats]) and of
    the manifest parsers ([_parse_mpd_formats], [_parse_ism_formats],
    [_extract_m3u8_formats], [_parse_f4m_formats]) of
    [youtube_dl/extractor/common.py], with the properties the specification
    states about them; and of the helpers around them
    ([_remove_duplicate_formats], [_check_formats], [_is_valid_url],
    [_proto_relative_url], [_merge_subtitles], [_xpath_ns], [_search_regex],
    [extract], [is_suitable]) and of [SearchInfoExtractor], with further
    properties of the code.

    Conventions of the embedding:
    - a Python exception is a value of [exn]; code that can raise returns a
      [result]; [NotEmbedded] marks input on which Python's behaviour is not
      embedded (see [Format.format]);
    - Python numbers are exact: an [int] is a [Z], a [float] is a rational
      [Q] kept in lowest terms, [/] is the true division of Python 3;
    - a dict that the code builds key by key is a [gmap string pyval];
    - in-place mutation is explicit state passing: a function that mutates
      its argument returns the new value. *)

From Stdlib Require Import QArith Qround.
From Stdlib Require Import Ascii String OrderedTypeEx.
From stdpp Require Import gmap strings list sorting.

#[local] Set Warnings "-register-all".
Local Open Scope string_scope.

(** ** Exceptions and results *)

Inductive exn : Type :=
  | ExtractorError (msg : string)
  | KeyError (key : string)
  | ValueError
  | IndexError
  | TypeError
  | StopIteration
  | ZeroDivisionError
  | RecursionError
  | NotEmbedded.

Inductive result (A : Type) : Type :=
  | Ok (a : A)
  | Raise (e : exn).
Arguments Ok {A} a.
Arguments Raise {A} e.

#[global] Instance result_ret : MRet result := fun A a => Ok a.
#[global] Instance result_bind : MBind result := fun A B k r =>
  match r with
  | Ok a => k a
  | Raise e => Raise e
  end.

(** [for x in l: acc = step(acc, x)] with exceptions. *)
Fixpoint for_each {A S} (step : S -> A -> result S) (l : list A) (s : S)
  : result S :=
  match l with
  | [] => Ok s
  | x :: l' => s' ← step s x; for_each step l' s'
  end.

(** [for _ in range(n): acc = step(acc)] with exceptions. *)
Fixpoint repeat_step {S} (n : nat) (step : S -> result S) (s : S)
  : result S :=
  match n with
  | O => Ok s
  | Datatypes.S n' => s' ← step s; repeat_step n' step s'
  end.

(** [range(a, b)]. *)
Definition range (a b : Z) : list Z :=
  map (fun i => (a + Z.of_nat i)%Z) (seq 0 (Z.to_nat (b - a))).

(** [enumerate(l)]. *)
Definition enumerate {A} (l : list A) : list (nat * A) :=
  imap (fun i x => (i, x)) l.

(** ** The format selector: [_sort_formats] *)

Module Selector.

(** A format dictionary, with the fields [_sort_formats] reads.  [url] is
  mandatory.  A field of type [option _] is [None] when the key is absent
  or holds Python's [None]: the code reads these fields with [f.get] only.
  For [tbr] the code also tests ['tbr' not in f]: the outer [None] is an
  absent key, [Some None] a key holding [None]. *)
Record format : Type := Format {
url : string;
ext : option string;
preference : option Q;
protocol : option string;
vcodec : option string;
acodec : option string;
language_preference : option Q;
quality : option Q;
tbr : option (option Q);
filesize : option Q;
vbr : option Q;
height : option Q;
width : option Q;
abr : option Q;
fps : option Q;
filesize_approx : option Q;
source_preference : option Q;
format_id : option string;
}.

Definition set_tbr (v : option (option Q)) (f : format) : format :=
Format (url f) (ext f) (preference f) (protocol f) (vcodec f) (acodec f)
  (language_preference f) (quality f) v (filesize f) (vbr f) (height f)
  (width f) (abr f) (fps f) (filesize_approx f) (source_preference f)
  (format_id f).

Definition set_ext (v : option string) (f : format) : format :=
Format (url f) v (preference f) (protocol f) (vcodec f) (acodec f)
  (language_preference f) (quality f) (tbr f) (filesize f) (vbr f)
  (height f) (width f) (abr f) (fps f) (filesize_approx f)
  (source_preference f) (format_id f).

Definition set_vcodec (v : option string) (f : format) : format :=
Format (url f) (ext f) (preference f) (protocol f) v (acodec f)
  (language_preference f) (quality f) (tbr f) (filesize f) (vbr f)
  (height f) (width f) (abr f) (fps f) (filesize_approx f)
  (source_preference f) (format_id f).

Definition set_acodec (v : option string) (f : format) : format :=
Format (url f) (ext f) (preference f) (protocol f) (vcodec f) v
  (language_preference f) (quality f) (tbr f) (filesize f) (vbr f)
  (height f) (width f) (abr f) (fps f) (filesize_approx f)
  (source_preference f) (format_id f).

(** The tuple [_formats_key] returns: fifteen numbers and the format id.
  Tuples compare lexicographically, numbers by value, strings by code
  point. *)
Record formats_key : Type := FormatsKey {
key_numbers : list Q;
key_format_id : string;
}.

Fixpoint lex_compare (k1 k2 : list Q) : comparison :=
match k1, k2 with
| [], [] => Eq
| [], _ :: _ => Lt
| _ :: _, [] => Gt
| x :: k1', y :: k2' =>
    match (x ?= y)%Q with
    | Eq => lex_compare k1' k2'
    | c => c
    end
end.

Definition key_compare (k1 k2 : formats_key) : comparison :=
match lex_compare (key_numbers k1) (key_numbers k2) with
| Eq => String.compare (key_format_id k1) (key_format_id k2)
| c => c
end.

(** [k1 <= k2] on keys. *)
Definition key_le (k1 k2 : formats_key) : Prop := key_compare k1 k2 <> Gt.
Definition key_leb (k1 k2 : formats_key) : bool :=
match key_compare k1 k2 with Gt => false | _ => true end.
(** [k1 < k2] on keys. *)
Definition key_lt (k1 k2 : formats_key) : Prop := key_compare k1 k2 = Lt.

(** [ORDER.index(x)], [-1] where the code catches the [ValueError]. *)
Fixpoint index_from (i : Z) (x : string) (order : list string) : Z :=
match order with
| [] => (-1)%Z
| y :: order' => if String.eqb x y then i else index_from (i + 1)%Z x order'
end.

Definition ORDER_index (x : option string) (order : list string) : Q :=
match x with
| Some e => inject_Z (index_from 0 e order)
| None => inject_Z (-1)
end.

Definition str_in (x : option string) (l : list string) : bool :=
match x with
| Some s => existsb (String.eqb s) l
| None => false
end.

Definition str_is (x : option string) (s : string) : bool :=
match x with
| Some s' => String.eqb s' s
| None => false
end.

(** Truth value of [f.get(k)] for a string field. *)
Definition str_truthy (x : option string) : bool :=
match x with
| Some "" | None => false
| Some _ => true
end.

Definition or_minus_one (x : option Q) : Q := default (inject_Z (-1)) x.

Section sort_formats.
(** [utils.determine_ext] and [utils.determine_protocol] are outside this
file, and [prefer_free_formats] is a downloader parameter. *)
Variable determine_ext : string -> string.
Variable determine_protocol : format -> string.
Variable prefer_free_formats : bool.

(** The [for f in formats] loop body: synthesize [tbr]. *)
Definition synthesize_tbr (f : format) : format :=
match tbr f, abr f, vbr f with
| None, Some a, Some v => set_tbr (Some (Some (a + v)%Q)) f
| _, _, _ => f
end.

(** The workaround at the head of [_formats_key], which stores [ext]. *)
Definition determine_missing_ext (f : format) : format :=
if negb (str_truthy (ext f)) then set_ext (Some (determine_ext (url f))) f
else f.

(** The tuple, for [field_preference=None], computed on the format as the
workaround left it. *)
Definition key_tuple (f : format) : formats_key :=
let preference0 :=
match preference f with
| Some p => p
| None => if str_in (ext f) ["f4f"; "f4m"] then (0 - (1 # 2))%Q else 0%Q
end in
let protocol :=
if str_truthy (protocol f) then default "" (protocol f)
else determine_protocol f in
let proto_preference :=
if existsb (String.eqb protocol) ["http"; "https"] then 0%Q
else if String.eqb protocol "rtsp" then (- (1 # 2))%Q
else (- (1 # 10))%Q in
let '(preference1, ext_preference, audio_ext_preference) :=
if str_is (vcodec f) "none" then
  let ORDER :=
    if prefer_free_formats
    then ["aac"; "mp3"; "m4a"; "webm"; "ogg"; "opus"]
    else ["webm"; "opus"; "ogg"; "mp3"; "aac"; "m4a"] in
  ((preference0 - inject_Z 50)%Q, 0%Q, ORDER_index (ext f) ORDER)
else
  let preference1 :=
    if str_is (acodec f) "none" then (preference0 - inject_Z 40)%Q
    else preference0 in
  let ORDER :=
    if prefer_free_formats
    then ["flv"; "mp4"; "webm"]
    else ["webm"; "flv"; "mp4"] in
  (preference1, ORDER_index (ext f) ORDER, 0%Q) in
FormatsKey
[ preference1;
  or_minus_one (language_preference f);
  or_minus_one (quality f);
  or_minus_one (mjoin (tbr f));
  or_minus_one (filesize f);
  or_minus_one (vbr f);
  or_minus_one (height f);
  or_minus_one (width f);
  proto_preference;
  ext_preference;
  or_minus_one (abr f);
  audio_ext_preference;
  or_minus_one (fps f);
  or_minus_one (filesize_approx f);
  or_minus_one (source_preference f) ]
(default "" (format_id f)).

(** [_formats_key]: the format as mutated, and its key. *)
Definition _formats_key (f : format) : format * formats_key :=
let f' := determine_missing_ext f in (f', key_tuple f').

(** [list.sort(key=...)] computes every key once, in list order, and then
sorts stably on the keys.  A stable sort has one possible result; it is
computed here by insertion from the right, an element going before the
first one whose key is not smaller. *)
Fixpoint insert_by_key (x : format * formats_key)
(l : list (format * formats_key)) : list (format * formats_key) :=
match l with
| [] => [x]
| y :: l' =>
  if key_leb (snd x) (snd y) then x :: y :: l'
  else y :: insert_by_key x l'
end.

Fixpoint sort_by_key (l : list (format * formats_key))
: list (format * formats_key) :=
match l with
| [] => []
| x :: l' => insert_by_key x (sort_by_key l')
end.

(** [_sort_formats(formats)], with [field_preference] left at [None]; the
result is the list as the call leaves it. *)
Definition _sort_formats (formats : list format) : result (list format) :=
match formats with
| [] => Raise (ExtractorError "No video formats found")
| _ =>
  let formats := map synthesize_tbr formats in
  Ok (map fst (sort_by_key (map _formats_key formats)))
end.

(** The composite key of a format in the list that [_sort_formats]
leaves. *)
Definition composite_key (f : format) : formats_key := snd (_formats_key f).

(** The primary component of the key of a format without an explicit
preference, before the audio-only and video-only deductions. *)
Definition default_preference (f : format) : Q :=
if str_in (ext (determine_missing_ext f)) ["f4f"; "f4m"]
then (0 - (1 # 2))%Q else 0%Q.
End sort_formats.

(** The order in which [sort_by_key] leaves the keyed formats. *)
Definition keyed_le (a b : format * formats_key) : Prop :=
key_le (snd a) (snd b).

End Selector.

(** ** Python values and string operations *)

(** The values that end up in a format dictionary. *)
Inductive pyval : Type :=
  | PNone
  | PInt (n : Z)
  | PFloat (q : Q)
  | PStr (s : string)
  | PList (l : list pyval)
  | PDict (d : list (string * pyval)).

Definition PStr_or_none (x : option string) : pyval :=
  match x with Some s => PStr s | None => PNone end.
Definition PInt_or_none (x : option Z) : pyval :=
  match x with Some n => PInt n | None => PNone end.
Definition PFloat_or_none (x : option Q) : pyval :=
  match x with Some q => PFloat q | None => PNone end.

(** Truth value of a Python value. *)
Definition py_truthy (v : pyval) : bool :=
  match v with
  | PNone | PInt 0%Z | PStr "" | PList [] | PDict [] => false
  | PFloat q => negb (Qeq_bool q 0)
  | _ => true
  end.

(** [d.get(k)] on a dictionary held in a [gmap]. *)
Definition dict_get (k : string) (d : gmap string pyval) : pyval :=
  default PNone (d !! k).

(** [a or b]. *)
Definition py_or (a b : pyval) : pyval := if py_truthy a then a else b.

(** The dictionary that [utils.parse_codecs] returns: empty, or with both
    of [vcodec] and [acodec]. *)
Definition codecs_dict (c : option (string * string)) : gmap string pyval :=
  match c with
  | Some (vcodec, acodec) =>
      <["vcodec" := PStr vcodec]> (<["acodec" := PStr acodec]> ∅)
  | None => ∅
  end.

(** Truth value of an optional string: [None] and [''] are false. *)
Definition truthy (x : option string) : bool :=
  match x with
  | Some "" | None => false
  | Some _ => true
  end.

(** [x or y] on optional integers: [None] and [0] are false. *)
Definition int_or (x : option Z) (y : Z) : Z :=
  match x with
  | Some 0%Z | None => y
  | Some n => n
  end.

(** [float(a) / b] as an exact rational in lowest terms. *)
Definition truediv (a b : Q) : Q := Qred (a / b).

Module Str.

Definition is_space (c : ascii) : bool :=
  let n := nat_of_ascii c in
  ((9 <=? n) && (n <=? 13) || (28 <=? n) && (n <=? 32))%nat.

Definition is_digit (c : ascii) : bool :=
  let n := nat_of_ascii c in ((48 <=? n) && (n <=? 57))%nat.

Fixpoint lstrip (s : string) : string :=
  match s with
  | String c s' => if is_space c then lstrip s' else s
  | EmptyString => EmptyString
  end.

Fixpoint rstrip (s : string) : string :=
  match s with
  | String c s' =>
      match rstrip s' with
      | EmptyString => if is_space c then EmptyString else String c EmptyString
      | r => String c r
      end
  | EmptyString => EmptyString
  end.

(** [s.strip()], on ASCII white space. *)
Definition strip (s : string) : string := rstrip (lstrip s).

Definition startswith (s p : string) : bool := String.prefix p s.

Fixpoint endswith_char (s : string) (c : ascii) : bool :=
  match s with
  | EmptyString => false
  | String c' EmptyString => Ascii.eqb c' c
  | String _ s' => endswith_char s' c
  end.

(** [sub in s]. *)
Fixpoint contains (sub s : string) : bool :=
  String.prefix sub s ||
  match s with
  | String _ s' => contains sub s'
  | EmptyString => false
  end.

(** [s.split(c)[0]]: the part before the first [c]. *)
Fixpoint before (c : ascii) (s : string) : string :=
  match s with
  | EmptyString => EmptyString
  | String c' s' => if Ascii.eqb c' c then EmptyString else String c' (before c s')
  end.

(** [s.split(c)]. *)
Fixpoint split (c : ascii) (s : string) : list string :=
  match s with
  | EmptyString => [EmptyString]
  | String c' s' =>
      if Ascii.eqb c' c then EmptyString :: split c s'
      else match split c s' with
           | w :: ws => String c' w :: ws
           | [] => [String c' EmptyString]
           end
  end.

(** [sep.join(l)]. *)
Definition join (sep : string) (l : list string) : string :=
  String.concat sep l.

Fixpoint drop (n : nat) (s : string) : string :=
  match n, s with
  | S n', String _ s' => drop n' s'
  | _, _ => s
  end.

(** Position of the first [c] in [s]. *)
Fixpoint find_char (c : ascii) (s : string) : option nat :=
  match s with
  | EmptyString => None
  | String c' s' =>
      if Ascii.eqb c' c then Some 0 else S <$> find_char c s'
  end.

(** Left-to-right substitution of non-overlapping matches, as [str.replace]
    and [re.sub] do it: [match_at s] tells whether the pattern matches at
    the head of [s], and gives the text that replaces the match and the
    length of the match, which is at least one. *)
Fixpoint scan (match_at : string -> option (string * nat)) (s : string)
    (skip : nat) : string :=
  match s with
  | EmptyString => EmptyString
  | String c s' =>
      match skip with
      | S k => scan match_at s' k
      | O =>
          match match_at s with
          | Some (out, len) => out +:+ scan match_at s' (len - 1)
          | None => String c (scan match_at s' 0)
          end
      end
  end.

(** [s.replace(old, new)], for [old] not empty. *)
Definition replace (old new s : string) : string :=
  scan (fun t => if String.prefix old t then Some (new, String.length old)
                 else None) s 0.

Definition digit_value (c : ascii) : Z := Z.of_nat (nat_of_ascii c - 48).

Fixpoint digits_value (acc : Z) (s : string) : option Z :=
  match s with
  | EmptyString => Some acc
  | String c s' =>
      if is_digit c then digits_value (acc * 10 + digit_value c) s'
      else None
  end.

(** [int(s)] for a string: white space around an optionally signed,
    non-empty run of decimal digits; [ValueError] otherwise. *)
Definition int (s : string) : result Z :=
  let unsigned (t : string) : result Z :=
    match t with
    | EmptyString => Raise ValueError
    | _ => match digits_value 0 t with
           | Some n => Ok n
           | None => Raise ValueError
           end
    end in
  match strip s with
  | String "-" t => n ← unsigned t; Ok (- n)%Z
  | String "+" t => unsigned t
  | t => unsigned t
  end.

Definition digit_char (n : Z) : ascii := ascii_of_nat (48 + Z.to_nat n).

Fixpoint pos_digits (fuel : nat) (n : Z) (acc : string) : string :=
  match fuel with
  | O => acc
  | S fuel' =>
      let acc' := String (digit_char (n mod 10)) acc in
      if (n <? 10)%Z then acc' else pos_digits fuel' (n / 10) acc'
  end.

(** [str(n)] for an [int]. *)
Definition of_Z (n : Z) : string :=
  let digits m := pos_digits (S (Z.to_nat (Z.log2 m))) m EmptyString in
  if (n <? 0)%Z then String "-" (digits (- n)%Z) else digits n.

Fixpoint repeat_char (c : ascii) (n : nat) : string :=
  match n with
  | O => EmptyString
  | S n' => String c (repeat_char c n')
  end.

End Str.

(** ** The [%] operator with a mapping *)

Module Format.

(** What has been read of a conversion specifier. *)
Inductive state : Type :=
  | Literal
  | Percent
  | Key (key : string)
  | Spec (value : option Z) (zero minus : bool) (width : option nat).

(** [%d] of [n] with the flags [0] and [-] and a minimum width. *)
Definition int_conversion (n : Z) (zero minus : bool) (width : option nat)
  : string :=
  let body := Str.of_Z (Z.abs n) in
  let sign := if (n <? 0)%Z then "-" else "" in
  let pad := default 0 width - String.length (sign +:+ body) in
  if minus then sign +:+ body +:+ Str.repeat_char " " pad
  else if zero then sign +:+ Str.repeat_char "0" pad +:+ body
  else Str.repeat_char " " pad +:+ sign +:+ body.

(** [template % mapping], for a mapping from names to integers or [None].
    Embedded: literal text, [%%], and the specifiers
    [%(name)] [flags 0 and -] [width] [d, i or u].  A name that the
    mapping lacks raises [KeyError], [None] under a [d] conversion
    [TypeError], a template that ends inside a specifier [ValueError];
    any other specifier is [NotEmbedded]. *)
Fixpoint format_from (st : state) (mapping : list (string * option Z))
    (s : string) : result string :=
  match s with
  | EmptyString =>
      match st with
      | Literal => Ok EmptyString
      | _ => Raise ValueError
      end
  | String c s' =>
      match st with
      | Literal =>
          if Ascii.eqb c "%" then format_from Percent mapping s'
          else r ← format_from Literal mapping s'; Ok (String c r)
      | Percent =>
          if Ascii.eqb c "%" then
            r ← format_from Literal mapping s'; Ok (String "%" r)
          else if Ascii.eqb c "(" then format_from (Key "") mapping s'
          else Raise NotEmbedded
      | Key key =>
          if Ascii.eqb c ")" then
            match list_find (fun p => fst p = key) mapping with
            | Some (_, (_, v)) => format_from (Spec v false false None) mapping s'
            | None => Raise (KeyError key)
            end
          else format_from (Key (key +:+ String c "")) mapping s'
      | Spec v zero minus width =>
          if Str.is_digit c then
            match width with
            | None =>
                if Ascii.eqb c "0" then format_from (Spec v true minus None) mapping s'
                else format_from (Spec v zero minus
                                    (Some (Z.to_nat (Str.digit_value c))))
                       mapping s'
            | Some w =>
                format_from (Spec v zero minus
                               (Some (10 * w + Z.to_nat (Str.digit_value c))))
                  mapping s'
            end
          else if Ascii.eqb c "-" then
            match width with
            | None => format_from (Spec v zero true None) mapping s'
            | Some _ => Raise ValueError
            end
          else if Ascii.eqb c "d" || Ascii.eqb c "i" || Ascii.eqb c "u" then
            match v with
            | Some n =>
                r ← format_from Literal mapping s';
                Ok (int_conversion n zero minus width +:+ r)
            | None => Raise TypeError
            end
          else Raise NotEmbedded
      end
  end.

Definition format (template : string) (mapping : list (string * option Z))
  : result string :=
  format_from Literal mapping template.

End Format.

(** ** [utils] *)

Module Utils.

(** Modelled from the spec: [utils.int_or_none], which is not part of this
    file; one of the "pure functions converting loosely-typed manifest
    attributes into typed values or [None]": a missing or empty attribute
    and text that is not an integer give [None], an integer is divided by
    [scale], rounding down. *)
Definition int_or_none (v : option string) (scale : Z) : option Z :=
  match v with
  | None | Some "" => None
  | Some s =>
      match Str.int s with
      | Ok n => Some (n / scale)%Z
      | Raise _ => None
      end
  end.

(** Modelled from the spec: [utils.float_or_none] on an integer that the
    caller has parsed already: [float(v) / scale].  A scale of zero is a
    [ZeroDivisionError]. *)
Definition float_or_none (v : option Z) (scale : Z) : result (option Q) :=
  match v with
  | None => Ok None
  | Some n =>
      if (scale =? 0)%Z then Raise ZeroDivisionError
      else Ok (Some (truediv (inject_Z n) (inject_Z scale)))
  end.

(** [re.match(r'^https?://', s)]. *)
Definition is_http_url (s : string) : bool :=
  Str.startswith s "http://" || Str.startswith s "https://".

End Utils.

(** ** Element trees *)

Module ET.

(** An [xml.etree.ElementTree.Element]: tag, attributes, text, children. *)
Inductive Element : Type :=
  Elem (tag : string) (attrib : gmap string string) (text : option string)
       (children : list Element).

Definition tag (e : Element) : string := let 'Elem t _ _ _ := e in t.
Definition attrib (e : Element) : gmap string string :=
  let 'Elem _ a _ _ := e in a.
Definition text (e : Element) : option string := let 'Elem _ _ t _ := e in t.
Definition children (e : Element) : list Element :=
  let 'Elem _ _ _ c := e in c.

(** [e.findall(path)] for a path that is one tag name: the children with
    that tag, in document order. *)
Definition findall (path : string) (e : Element) : list Element :=
  filter (fun c => tag c = path) (children e).

(** [e.find(path)]. *)
Definition find (path : string) (e : Element) : option Element :=
  head (findall path e).

(** [e.get(key)]. *)
Definition get (key : string) (e : Element) : option string :=
  attrib e !! key.

(** [e.attrib[key]]. *)
Definition attrib_item (key : string) (e : Element) : result string :=
  match attrib e !! key with
  | Some v => Ok v
  | None => Raise (KeyError key)
  end.

(** An element written as in the document. *)
Definition element (tag : string) (attrs : list (string * string))
    (text : option string) (children : list Element) : Element :=
  Elem tag (list_to_map attrs) text children.

End ET.

(** ** The DASH parser: [_parse_mpd_formats] *)

Module Dash.
Import ET.

(** An entry of [ms_info['s']]. *)
Record s_entry : Type := SEntry { s_t : Z; s_d : Z; s_r : Z }.

(** The [ms_info] dictionary.  [start_number] and [timescale] are set at
    the Period level and never removed; for the other keys [None] is an
    absent key. *)
Record ms_info : Type := MsInfo {
  start_number : Z;
  timescale : Z;
  segment_duration : option Z;
  total_number : option Z;
  s : option (list s_entry);
  segment_urls : option (list string);
  media_template : option string;
  initialization_url : option string;
  fragments : option (list pyval);
}.

Definition set_timeline (total : Z) (entries : list s_entry) (m : ms_info) :=
  MsInfo (start_number m) (timescale m) (segment_duration m) (Some total)
    (Some entries) (segment_urls m) (media_template m)
    (initialization_url m) (fragments m).
Definition set_start_number (v : Z) (m : ms_info) :=
  MsInfo v (timescale m) (segment_duration m) (total_number m) (s m)
    (segment_urls m) (media_template m) (initialization_url m) (fragments m).
Definition set_timescale (v : Z) (m : ms_info) :=
  MsInfo (start_number m) v (segment_duration m) (total_number m) (s m)
    (segment_urls m) (media_template m) (initialization_url m) (fragments m).
Definition set_segment_duration (v : Z) (m : ms_info) :=
  MsInfo (start_number m) (timescale m) (Some v) (total_number m) (s m)
    (segment_urls m) (media_template m) (initialization_url m) (fragments m).
Definition set_total_number (v : Z) (m : ms_info) :=
  MsInfo (start_number m) (timescale m) (segment_duration m) (Some v) (s m)
    (segment_urls m) (media_template m) (initialization_url m) (fragments m).
Definition set_segment_urls (v : list string) (m : ms_info) :=
  MsInfo (start_number m) (timescale m) (segment_duration m)
    (total_number m) (s m) (Some v) (media_template m)
    (initialization_url m) (fragments m).
Definition set_media_template (v : string) (m : ms_info) :=
  MsInfo (start_number m) (timescale m) (segment_duration m)
    (total_number m) (s m) (segment_urls m) (Some v)
    (initialization_url m) (fragments m).
Definition set_initialization_url (v : string) (m : ms_info) :=
  MsInfo (start_number m) (timescale m) (segment_duration m)
    (total_number m) (s m) (segment_urls m) (media_template m) (Some v)
    (fragments m).
Definition set_fragments (v : list pyval) (m : ms_info) :=
  MsInfo (start_number m) (timescale m) (segment_duration m)
    (total_number m) (s m) (segment_urls m) (media_template m)
    (initialization_url m) (Some v).

Definition lower (c : ascii) : ascii :=
  let n := nat_of_ascii c in
  if ((65 <=? n) && (n <=? 90))%nat then ascii_of_nat (n + 32) else c.

Fixpoint lower_string (t : string) : string :=
  match t with
  | EmptyString => EmptyString
  | String c t' => String (lower c) (lower_string t')
  end.

(** [_search_regex(r'(?i)^{([^}]+)?}MPD$', tag, 'namespace', default=None)].
    When the braces are empty the pattern matches with no group set, and
    [next] over the groups raises [StopIteration]. *)
Definition search_namespace (tag : string) : result (option string) :=
  match tag with
  | String "{" rest =>
      match Str.find_char "}" rest with
      | Some k =>
          let name := lower_string (Str.drop (S k) rest) in
          if String.eqb name "mpd" || String.eqb name ("mpd" +:+ String "010" "")
          then match k with
               | O => Raise StopIteration
               | _ => Ok (Some (String.substring 0 k rest))
               end
          else Ok None
      | None => Ok None
      end
  | _ => Ok None
  end.

(** [InfoExtractor._xpath_ns]. *)
Definition _xpath_ns (path : string) (namespace : option string) : string :=
  match namespace with
  | None | Some "" => path
  | Some ns =>
      Str.join "/"
        (map (fun c => if String.eqb c "" || String.eqb c "." then c
                       else "{" +:+ ns +:+ "}" +:+ c)
           (Str.split "/" path))
  end.

Definition names : list string := ["Number"; "Bandwidth"; "Time"].

(** [re.sub(r'\$(Number|Bandwidth|Time)\$', r'%(\1)d', t)]. *)
Definition sub_plain (t : string) : string :=
  Str.scan (fun u =>
    match list_find (fun n => String.prefix ("$" +:+ n +:+ "$") u = true) names with
    | Some (_, n) => Some ("%(" +:+ n +:+ ")d", String.length n + 2)
    | None => None
    end) t 0.

(** [re.sub(r'\$(Number|Bandwidth|Time)%([^$]+)\$', r'%(\1)\2', t)]. *)
Definition sub_formatted (t : string) : string :=
  Str.scan (fun u =>
    match list_find (fun n => String.prefix ("$" +:+ n +:+ "%") u = true) names with
    | Some (_, n) =>
        let rest := Str.drop (String.length n + 2) u in
        match Str.find_char "$" rest with
        | Some (S k) =>
            Some ("%(" +:+ n +:+ ")" +:+ String.substring 0 (S k) rest,
                  String.length n + 2 + S k + 1)
        | _ => None
        end
    | None => None
    end) t 0.

(** The four statements that turn the [media] attribute into a template
    for [%].  The value of the last one,
    [media_template.replace('$$', '$')], is not assigned: the template
    stays as the substitutions left it. *)
Definition prepare_template (media_template representation_id : string)
  : string :=
  let media_template :=
    Str.replace "$RepresentationID$" representation_id media_template in
  let media_template := sub_plain media_template in
  let media_template := sub_formatted media_template in
  let _ := Str.replace "$$" "$" media_template in
  media_template.

Definition fragment (url : string) (duration : option Q) : pyval :=
  PDict [("url", PStr url); ("duration", PFloat_or_none duration)].

(** [int(e.get(key, 0))]. *)
Definition int_attr (key : string) (e : Element) : result Z :=
  match get key e with
  | Some v => Str.int v
  | None => Ok 0%Z
  end.

(** The body of the loop over [S] elements in [extract_common]. *)
Definition add_s (acc : Z * list s_entry) (e : Element)
  : result (Z * list s_entry) :=
  r ← int_attr "r" e;
  t ← int_attr "t" e;
  d ← attrib_item "d" e;
  d ← Str.int d;
  Ok ((fst acc + (1 + r))%Z, (snd acc ++ [SEntry t d r])%list).

Section parse.
(** The functions of [utils] that stay abstract, and the caller's
    arguments. *)
Variable parse_duration : option string -> option Q.
Variable mimetype2ext : string -> option string.
Variable parse_codecs : option string -> option (string * string).
Variable urljoin : string -> string -> option string.
Variable namespace : option string.
Variable mpd_id : option string.
Variable formats_dict : gmap string (gmap string pyval).
Variable mpd_url : option string.

Definition _add_ns (path : string) : string := _xpath_ns path namespace.

Definition is_drm_protected (element : Element) : bool :=
  bool_decide (is_Some (find (_add_ns "ContentProtection") element)).

Definition extract_common (source : Element) (ms : ms_info)
  : result ms_info :=
  ms ←
    match find (_add_ns "SegmentTimeline") source with
    | Some segment_timeline =>
        match findall (_add_ns "S") segment_timeline with
        | [] => Ok ms
        | s_e =>
            '(total, entries) ← for_each add_s s_e (0%Z, []);
            Ok (set_timeline total entries ms)
        end
    | None => Ok ms
    end;
  ms ←
    (if truthy (get "startNumber" source) then
       n ← Str.int (default "" (get "startNumber" source));
       Ok (set_start_number n ms)
     else Ok ms);
  ms ←
    (if truthy (get "timescale" source) then
       n ← Str.int (default "" (get "timescale" source));
       Ok (set_timescale n ms)
     else Ok ms);
  if truthy (get "duration" source) then
    n ← Str.int (default "" (get "duration" source));
    Ok (set_segment_duration n ms)
  else Ok ms.

Definition extract_Initialization (source : Element) (ms : ms_info)
  : result ms_info :=
  match find (_add_ns "Initialization") source with
  | Some initialization =>
      u ← attrib_item "sourceURL" initialization;
      Ok (set_initialization_url u ms)
  | None => Ok ms
  end.

Definition extract_multisegment_info (element : Element)
    (ms_parent_info : ms_info) : result ms_info :=
  let ms := ms_parent_info in
  match find (_add_ns "SegmentList") element with
  | Some segment_list =>
      ms ← extract_common segment_list ms;
      ms ← extract_Initialization segment_list ms;
      match findall (_add_ns "SegmentURL") segment_list with
      | [] => Ok ms
      | segment_urls_e =>
          urls ← mapM (M := result) (attrib_item "media") segment_urls_e;
          Ok (set_segment_urls urls ms)
      end
  | None =>
      match find (_add_ns "SegmentTemplate") element with
      | Some segment_template =>
          ms ← extract_common segment_template ms;
          let ms :=
            if truthy (get "media" segment_template)
            then set_media_template
                   (default "" (get "media" segment_template)) ms
            else ms in
          if truthy (get "initialization" segment_template)
          then Ok (set_initialization_url
                     (default "" (get "initialization" segment_template)) ms)
          else extract_Initialization segment_template ms
      | None => Ok ms
      end
  end.

(** The walk over [(representation, adaptation_set, period, mpd_doc)]
    that assembles [base_url]. *)
Fixpoint base_url_walk (elements : list Element) (base_url : string)
  : result string :=
  match elements with
  | [] => Ok base_url
  | element :: rest =>
      match find (_add_ns "BaseURL") element with
      | Some base_url_e =>
          match text base_url_e with
          | Some t =>
              let base_url := t +:+ base_url in
              if Utils.is_http_url base_url then Ok base_url
              else base_url_walk rest base_url
          | None => Raise TypeError
          end
      | None => base_url_walk rest base_url
      end
  end.

(** The mapping given to [%]; [Time] is there in the timeline branch
    only. *)
Definition template_mapping (time : option Z) (bandwidth : option Z)
    (number : Z) : list (string * option Z) :=
  match time with
  | Some t => [("Time", Some t); ("Bandwidth", bandwidth);
               ("Number", Some number)]
  | None => [("Number", Some number); ("Bandwidth", bandwidth)]
  end.

(** [add_segment_url()], on the variables it closes over. *)
Definition add_segment_url (media_template : string)
    (bandwidth : option Z) (timescale : Z) (segment_time : Z)
    (segment_d : Z) (segment_number : Z) (fragments : list pyval)
  : result (list pyval) :=
  segment_url ← Format.format media_template
    (template_mapping (Some segment_time) bandwidth segment_number);
  duration ← Utils.float_or_none (Some segment_d) timescale;
  Ok (fragments ++ [fragment segment_url duration])%list.

(** The body of [for num, s in enumerate(representation_ms_info['s'])],
    on the state [(fragments, segment_time, segment_number)]. *)
Definition timeline_step (media_template : string) (bandwidth : option Z)
    (timescale : Z) (st : list pyval * Z * Z) (entry : s_entry)
  : result (list pyval * Z * Z) :=
  let '(fragments, segment_time, segment_number) := st in
  let segment_time := int_or (Some (s_t entry)) segment_time in
  let segment_d := s_d entry in
  fragments ← add_segment_url media_template bandwidth timescale
    segment_time segment_d segment_number fragments;
  let segment_number := (segment_number + 1)%Z in
  '(fragments, segment_time, segment_number) ←
    repeat_step (Z.to_nat (s_r entry))
      (fun '(fragments, segment_time, segment_number) =>
         let segment_time := (segment_time + segment_d)%Z in
         fragments ← add_segment_url media_template bandwidth timescale
           segment_time segment_d segment_number fragments;
         Ok (fragments, segment_time, (segment_number + 1)%Z))
      (fragments, segment_time, segment_number);
  Ok (fragments, (segment_time + segment_d)%Z, segment_number).

(** The branch "$Number*$ or $Time$ in media template with S list
    available". *)
Definition timeline_fragments (media_template : string)
    (bandwidth : option Z) (ms : ms_info) : result (list pyval) :=
  match s ms with
  | None => Raise (KeyError "s")
  | Some entries =>
      '(fragments, _, _) ←
        for_each (timeline_step media_template bandwidth (timescale ms))
          entries ([], 0%Z, start_number ms);
      Ok fragments
  end.

(** The branch for a [$Number$] template without an S list. *)
Definition numbered_fragments (media_template : string)
    (bandwidth : option Z) (period_duration : option Q) (ms : ms_info)
  : result (ms_info * list pyval) :=
  '(ms, segment_duration) ←
    match total_number ms with
    | None =>
        match segment_duration ms with
        | None => Raise (KeyError "segment_duration")
        | Some sd =>
            segment_duration ← Utils.float_or_none (Some sd) (timescale ms);
            match period_duration, segment_duration with
            | None, _ => Raise TypeError
            | Some pd, Some d =>
                if Qeq_bool d 0 then Raise ZeroDivisionError
                else Ok (set_total_number (Qceiling (truediv pd d)) ms,
                         segment_duration)
            | Some _, None => Raise TypeError
            end
        end
    | Some _ => Ok (ms, None)
    end;
  let total := default 0%Z (total_number ms) in
  fragments ← mapM (M := result)
    (fun segment_number =>
       url ← Format.format media_template
         (template_mapping None bandwidth segment_number);
       Ok (fragment url segment_duration))
    (range (start_number ms) (total + start_number ms));
  Ok (ms, fragments).

(** The branch without a media template: [SegmentList] URLs paired with
    the S list.  [s_num] is set to [0] and is not changed afterwards. *)
Definition segment_list_fragments (segment_urls : list string)
    (entries : list s_entry) (timescale : Z) : result (list pyval) :=
  let s_num := 0%nat in
  for_each
    (fun fragments segment_url =>
       match entries !! s_num with
       | None => Raise IndexError
       | Some entry =>
           repeat_step (Z.to_nat (s_r entry + 1))
             (fun fragments =>
                duration ← Utils.float_or_none (Some (s_d entry)) timescale;
                Ok (fragments ++ [fragment segment_url duration])%list)
             fragments
       end)
    segment_urls [].

(** [fragment['url'] = urljoin(base_url, fragment['url'])]. *)
Definition join_fragment_url (base_url : string) (fragment : pyval)
  : pyval :=
  match fragment with
  | PDict d =>
      PDict (map (fun p =>
               match p with
               | ("url", PStr u) => ("url", PStr_or_none (urljoin base_url u))
               | _ => p
               end) d)
  | _ => fragment
  end.

(** [next(fo for fo in formats if fo['format_id'] == representation_id)]:
    the position of the first such format, [None] for [StopIteration]. *)
Fixpoint find_existing (formats : list (gmap string pyval))
    (representation_id : option string) (i : nat) : result (option nat) :=
  match formats with
  | [] => Ok None
  | fo :: formats' =>
      match fo !! "format_id" with
      | None => Raise (KeyError "format_id")
      | Some v =>
          let same :=
            match v, representation_id with
            | PStr a, Some b => String.eqb a b
            | PNone, None => true
            | _, _ => false
            end in
          if same then Ok (Some i)
          else find_existing formats' representation_id (S i)
      end
  end.

(** ['%s' % x]. *)
Definition percent_s (x : option string) : string := default "None" x.

(** The body of the loop over the Representations of an AdaptationSet,
    on the state [(formats, mpd_base_url)]. *)
Definition representation_step (mpd_doc period adaptation_set : Element)
    (period_duration : option Q) (adaption_set_ms_info : ms_info)
    (st : list (gmap string pyval) * string) (representation : Element)
  : result (list (gmap string pyval) * string) :=
  let '(formats, mpd_base_url) := st in
  if is_drm_protected representation then Ok st else
  let representation_attrib :=
    attrib representation ∪ attrib adaptation_set in
  match representation_attrib !! "mimeType" with
  | None => Raise (KeyError "mimeType")
  | Some mime_type =>
    let content_type := Str.before "/" mime_type in
    if String.eqb content_type "text" then Ok st
    else if String.eqb content_type "video"
            || String.eqb content_type "audio" then
      base_url ← base_url_walk
        [representation; adaptation_set; period; mpd_doc] "";
      let '(mpd_base_url, base_url) :=
        if negb (String.eqb mpd_base_url "")
           && negb (Utils.is_http_url base_url) then
          let mpd_base_url :=
            if negb (Str.endswith_char mpd_base_url "/")
               && negb (Str.startswith base_url "/")
            then mpd_base_url +:+ "/" else mpd_base_url in
          (mpd_base_url, mpd_base_url +:+ base_url)
        else (mpd_base_url, base_url) in
      let representation_id := representation_attrib !! "id" in
      let lang := representation_attrib !! "lang" in
      let url_el := find (_add_ns "BaseURL") representation in
      let filesize :=
        Utils.int_or_none
          (url_el ≫= get "{http://youtube.com/yt/2012/10/10}contentLength")
          1 in
      let bandwidth :=
        Utils.int_or_none (representation_attrib !! "bandwidth") 1 in
      let f : gmap string pyval :=
        list_to_map
          [ ("format_id",
             if truthy mpd_id
             then PStr (percent_s mpd_id +:+ "-" +:+ percent_s representation_id)
             else PStr_or_none representation_id);
            ("url", PStr base_url);
            ("manifest_url", PStr_or_none mpd_url);
            ("ext", PStr_or_none (mimetype2ext mime_type));
            ("width", PInt_or_none
               (Utils.int_or_none (representation_attrib !! "width") 1));
            ("height", PInt_or_none
               (Utils.int_or_none (representation_attrib !! "height") 1));
            ("tbr", PInt_or_none
               (Utils.int_or_none (representation_attrib !! "bandwidth") 1000));
            ("asr", PInt_or_none
               (Utils.int_or_none
                  (representation_attrib !! "audioSamplingRate") 1));
            ("fps", PInt_or_none
               (Utils.int_or_none (representation_attrib !! "frameRate") 1));
            ("language",
             match lang with
             | Some l =>
                 if existsb (String.eqb l) ["mul"; "und"; "zxx"; "mis"]
                 then PNone else PStr l
             | None => PNone
             end);
            ("format_note", PStr ("DASH " +:+ content_type));
            ("filesize", PInt_or_none filesize) ] in
      let f :=
        codecs_dict (parse_codecs (representation_attrib !! "codecs")) ∪ f in
      representation_ms_info ←
        extract_multisegment_info representation adaption_set_ms_info;
      representation_ms_info ←
        match segment_urls representation_ms_info,
              media_template representation_ms_info with
        | None, Some media_template =>
            match representation_id with
            | None => Raise TypeError
            | Some representation_id =>
                let media_template :=
                  prepare_template media_template representation_id in
                if Str.contains "%(Number" media_template
                   && bool_decide (s representation_ms_info = None)
                then
                  '(ms, fragments) ← numbered_fragments media_template
                    bandwidth period_duration representation_ms_info;
                  Ok (set_fragments fragments ms)
                else
                  fragments ← timeline_fragments media_template bandwidth
                    representation_ms_info;
                  Ok (set_fragments fragments representation_ms_info)
            end
        | Some segment_urls, _ =>
            match s representation_ms_info with
            | Some entries =>
                fragments ← segment_list_fragments segment_urls entries
                  (timescale representation_ms_info);
                Ok (set_fragments fragments representation_ms_info)
            | None => Ok representation_ms_info
            end
        | None, None => Ok representation_ms_info
        end;
      f ←
        match fragments representation_ms_info with
        | Some ms_fragments =>
            let f := <["protocol" := PStr "http_dash_segments"]> f in
            '(f, fragments) ←
              match initialization_url representation_ms_info with
              | Some initialization_url =>
                  match representation_id with
                  | None => Raise TypeError
                  | Some representation_id =>
                      let initialization_url :=
                        Str.replace "$RepresentationID$" representation_id
                          initialization_url in
                      let initialization_url :=
                        Str.replace "$Bandwidth$"
                          (default "None" (Str.of_Z <$> bandwidth))
                          initialization_url in
                      let f :=
                        if negb (py_truthy (dict_get "url" f))
                        then <["url" := PStr initialization_url]> f
                        else f in
                      Ok (f, [PDict [("url", PStr initialization_url)]])
                  end
              | None => Ok (f, [])
              end;
            let fragments := (fragments ++ ms_fragments)%list in
            Ok (<["fragments" :=
                    PList (map (join_fragment_url base_url) fragments)]> f)
        | None => Ok f
        end;
      existing ← find_existing formats representation_id 0;
      match existing with
      | None =>
          let full_info :=
            default ∅ (representation_id ≫= (formats_dict !!.)) in
          Ok ((formats ++ [f ∪ full_info])%list, mpd_base_url)
      | Some i =>
          Ok (alter (fun existing_format => f ∪ existing_format) i formats,
              mpd_base_url)
      end
    else Ok st
  end.

Definition adaptation_set_step (mpd_doc period : Element)
    (period_duration : option Q) (period_ms_info : ms_info)
    (st : list (gmap string pyval) * string) (adaptation_set : Element)
  : result (list (gmap string pyval) * string) :=
  if is_drm_protected adaptation_set then Ok st else
  adaption_set_ms_info ←
    extract_multisegment_info adaptation_set period_ms_info;
  for_each
    (representation_step mpd_doc period adaptation_set period_duration
       adaption_set_ms_info)
    (findall (_add_ns "Representation") adaptation_set) st.

Definition period_step (mpd_doc : Element) (mpd_duration : option Q)
    (st : list (gmap string pyval) * string) (period : Element)
  : result (list (gmap string pyval) * string) :=
  let period_duration :=
    match parse_duration (get "duration" period) with
    | Some d => if Qeq_bool d 0 then mpd_duration else Some d
    | None => mpd_duration
    end in
  period_ms_info ←
    extract_multisegment_info period
      (MsInfo 1 1 None None None None None None None);
  for_each
    (adaptation_set_step mpd_doc period period_duration period_ms_info)
    (findall (_add_ns "AdaptationSet") period) st.
End parse.

(** [_parse_mpd_formats(mpd_doc, mpd_id, mpd_base_url, formats_dict,
    mpd_url)].  Warnings go to the diagnostics sink and are not part of
    the result. *)
Definition _parse_mpd_formats
    (parse_duration : option string -> option Q)
    (mimetype2ext : string -> option string)
    (parse_codecs : option string -> option (string * string))
    (urljoin : string -> string -> option string)
    (mpd_doc : Element) (mpd_id : option string) (mpd_base_url : string)
    (formats_dict : gmap string (gmap string pyval))
    (mpd_url : option string) : result (list (gmap string pyval)) :=
  if bool_decide (get "type" mpd_doc = Some "dynamic") then Ok [] else
  namespace ← search_namespace (tag mpd_doc);
  let mpd_duration := parse_duration (get "mediaPresentationDuration" mpd_doc) in
  '(formats, _) ←
    for_each
      (period_step parse_duration mimetype2ext parse_codecs urljoin
         namespace mpd_id formats_dict mpd_url mpd_doc mpd_duration)
      (findall (_xpath_ns "Period" namespace) mpd_doc) ([], mpd_base_url);
  Ok formats.
End Dash.

(** ** The Smooth Streaming parser: [_parse_ism_formats] *)

Module Ism.
Import ET.

(** A number held in [fragment_ctx]: an [int] or a [float]. *)
Inductive num : Type :=
  | NInt (n : Z)
  | NFloat (q : Q).

Definition num_value (a : num) : Q :=
  match a with
  | NInt n => inject_Z n
  | NFloat q => q
  end.

Definition num_add (a b : num) : num :=
  match a, b with
  | NInt x, NInt y => NInt (x + y)
  | _, _ => NFloat (Qred (num_value a + num_value b))
  end.

Definition num_sub (a b : num) : num :=
  match a, b with
  | NInt x, NInt y => NInt (x - y)
  | _, _ => NFloat (Qred (num_value a - num_value b))
  end.

(** [a / b]: true division, [b] not zero. *)
Definition num_div (a b : num) : num :=
  NFloat (truediv (num_value a) (num_value b)).

Definition num_pyval (a : num) : pyval :=
  match a with
  | NInt n => PInt n
  | NFloat q => PFloat q
  end.

(** [re.sub(r'{[Bb]itrate}', bitrate, url_pattern)]. *)
Definition sub_bitrate (bitrate url_pattern : string) : string :=
  Str.scan (fun u =>
    if String.prefix "{Bitrate}" u || String.prefix "{bitrate}" u
    then Some (bitrate, 9) else None) url_pattern 0.

(** [re.sub(r'{start[ _]time}', time, track_url_pattern)]. *)
Definition sub_start_time (time track_url_pattern : string) : string :=
  Str.scan (fun u =>
    if String.prefix "{start time}" u || String.prefix "{start_time}" u
    then Some (time, 12) else None) track_url_pattern 0.

Section parse.
(** [compat_urlparse.urljoin], and [compat_str] of a [float]. *)
Variable urljoin : string -> string -> string.
Variable float_str : Q -> string.

Definition compat_str (a : num) : string :=
  match a with
  | NInt n => Str.of_Z n
  | NFloat q => float_str q
  end.

(** The body of the loop over the [c] elements of a stream, on the
    state [(fragments, fragment_ctx['time'])]. *)
Definition chunk_step (duration : Z) (stream_timescale : Z)
    (track_url_pattern : string) (st : list pyval * num)
    (indexed : nat * Element) : result (list pyval * num) :=
  let '(fragments, time) := st in
  let '(stream_fragment_index, stream_fragment) := indexed in
  let time :=
    match Utils.int_or_none (get "t" stream_fragment) 1 with
    | Some 0%Z | None => time
    | Some t => NInt t
    end in
  let fragment_repeat :=
    int_or (Utils.int_or_none (get "r" stream_fragment) 1) 1 in
  chunk_duration ←
    match Utils.int_or_none (get "d" stream_fragment) 1 with
    | Some 0%Z | None =>
        next_fragment_time ←
          match children stream_fragment !! (stream_fragment_index + 1) with
          | Some next =>
              t ← attrib_item "t" next;
              Str.int t
          | None => Ok duration
          end;
        Ok (num_div (num_sub (NInt next_fragment_time) time)
              (NInt fragment_repeat))
    | Some d => Ok (NInt d)
    end;
  repeat_step (Z.to_nat fragment_repeat)
    (fun '(fragments, time) =>
       Ok ((fragments ++
              [PDict [("url", PStr (sub_start_time (compat_str time)
                                      track_url_pattern));
                      ("duration",
                       num_pyval (num_div chunk_duration
                                    (NInt stream_timescale)))]])%list,
           num_add time chunk_duration))
    (fragments, time).

Definition track_step (ism_url : string) (ism_id : option string)
    (duration timescale : Z) (stream : Element) (stream_type : string)
    (url_pattern : string) (stream_timescale : Z)
    (stream_name : option string)
    (formats : list (gmap string pyval)) (track : Element)
  : result (list (gmap string pyval)) :=
  let fourcc := get "FourCC" track in
  if negb (bool_decide (fourcc ∈ [Some "H264"; Some "AVC1"; Some "AACL"]))
  then Ok formats else
  bitrate ← attrib_item "Bitrate" track;
  bitrate_n ← Str.int bitrate;
  let tbr := (bitrate_n / 1000)%Z in
  let width := Utils.int_or_none (get "MaxWidth" track) 1 in
  let height := Utils.int_or_none (get "MaxHeight" track) 1 in
  let sampling_rate := Utils.int_or_none (get "SamplingRate" track) 1 in
  let track_url_pattern := sub_bitrate bitrate url_pattern in
  let track_url_pattern := urljoin ism_url track_url_pattern in
  '(fragments, _) ←
    for_each (chunk_step duration stream_timescale track_url_pattern)
      (enumerate (findall "c" stream)) ([], NInt 0);
  let format_id :=
    ((if truthy ism_id then [default "" ism_id] else []) ++
     (if truthy stream_name then [default "" stream_name] else []) ++
     [Str.of_Z tbr])%list in
  let int_attr_default (key : string) (d : Z) : pyval :=
    match get key track with
    | Some v => PInt_or_none (Utils.int_or_none (Some v) 1)
    | None => PInt d
    end in
  Ok (formats ++ [list_to_map
    [ ("format_id", PStr (Str.join "-" format_id));
      ("url", PStr ism_url);
      ("manifest_url", PStr ism_url);
      ("ext", PStr (if String.eqb stream_type "video" then "ismv" else "isma"));
      ("width", PInt_or_none width);
      ("height", PInt_or_none height);
      ("tbr", PInt tbr);
      ("asr", PInt_or_none sampling_rate);
      ("vcodec", if String.eqb stream_type "audio" then PStr "none"
                 else PStr_or_none fourcc);
      ("acodec", if String.eqb stream_type "video" then PStr "none"
                 else PStr_or_none fourcc);
      ("protocol", PStr "ism");
      ("fragments", PList fragments);
      ("_download_params", PDict
        [ ("duration", PInt duration);
          ("timescale", PInt stream_timescale);
          ("width", PInt (int_or width 0));
          ("height", PInt (int_or height 0));
          ("fourcc", PStr_or_none fourcc);
          ("codec_private_data", PStr_or_none (get "CodecPrivateData" track));
          ("sampling_rate", PInt_or_none sampling_rate);
          ("channels", int_attr_default "Channels" 2%Z);
          ("bits_per_sample", int_attr_default "BitsPerSample" 16%Z);
          ("nal_unit_length_field", int_attr_default "NALUnitLengthField" 4%Z) ])
    ]])%list.

Definition stream_step (ism_url : string) (ism_id : option string)
    (duration timescale : Z) (formats : list (gmap string pyval))
    (stream : Element) : result (list (gmap string pyval)) :=
  match get "Type" stream with
  | Some stream_type =>
      if String.eqb stream_type "video" || String.eqb stream_type "audio"
      then
        url_pattern ← attrib_item "Url" stream;
        let stream_timescale :=
          int_or (Utils.int_or_none (get "TimeScale" stream) 1) timescale in
        let stream_name := get "Name" stream in
        for_each
          (track_step ism_url ism_id duration timescale stream stream_type
             url_pattern stream_timescale stream_name)
          (findall "QualityLevel" stream) formats
      else Ok formats
  | None => Ok formats
  end.

(** [_parse_ism_formats(ism_doc, ism_url, ism_id)]. *)
Definition _parse_ism_formats (ism_doc : Element) (ism_url : string)
    (ism_id : option string) : result (list (gmap string pyval)) :=
  if bool_decide (get "IsLive" ism_doc = Some "TRUE")
     || bool_decide (is_Some (find "Protection" ism_doc))
  then Ok [] else
  duration ← attrib_item "Duration" ism_doc;
  duration ← Str.int duration;
  let timescale :=
    int_or (Utils.int_or_none (get "TimeScale" ism_doc) 1) 10000000 in
  for_each (stream_step ism_url ism_id duration timescale)
    (findall "StreamIndex" ism_doc) [].
End parse.
End Ism.

(** ** The HLS parser: [_extract_m3u8_formats] *)

Module Hls.

Definition is_linebreak (c : ascii) : bool :=
  let n := nat_of_ascii c in
  ((10 <=? n) && (n <=? 13) || (28 <=? n) && (n <=? 30))%nat.

Fixpoint splitlines_from (after_cr : bool) (cur : option string)
    (doc : string) : list string :=
  match doc with
  | EmptyString =>
      match cur with
      | Some line => [line]
      | None => []
      end
  | String c doc' =>
      if after_cr && Ascii.eqb c "010" then splitlines_from false cur doc'
      else if is_linebreak c then
        default "" cur :: splitlines_from (Ascii.eqb c "013") None doc'
      else
        splitlines_from false (Some (default "" cur +:+ String c "")) doc'
  end.

(** [doc.splitlines()], on the single-byte line boundaries. *)
Definition splitlines (doc : string) : list string :=
  splitlines_from false None doc.

(** ['-'.join(filter(None, l))]. *)
Definition join_truthy (l : list (option string)) : string :=
  Str.join "-" (omap (fun x => if truthy x then x else None) l).

(** [_m3u8_meta_format(m3u8_url, ext, preference, m3u8_id)]. *)
Definition _m3u8_meta_format (m3u8_url : string) (ext : option string)
    (preference : option Z) (m3u8_id : option string)
  : gmap string pyval :=
  list_to_map
    [ ("format_id", PStr (join_truthy [m3u8_id; Some "meta"]));
      ("url", PStr m3u8_url);
      ("ext", PStr_or_none ext);
      ("protocol", PStr "m3u8");
      ("preference",
       match preference with
       | Some 0%Z | None => PInt (-100)
       | Some p => PInt (p - 100)
       end);
      ("resolution", PStr "multiple");
      ("format_note", PStr "Quality selection URL") ].

(** The variables the loop over the lines carries. *)
Record walk : Type := Walk {
  formats : list (gmap string pyval);
  audio_in_video_stream : gmap string bool;
  last_info : gmap string string;
  last_media : gmap string string;
}.

(** [a.get(k1) or b.get(k2)] on attribute dictionaries. *)
Definition get_or (a : gmap string string) (k1 : string)
    (b : gmap string string) (k2 : string) : option string :=
  if truthy (a !! k1) then a !! k1 else b !! k2.

Section parse.
(** The page fetcher ([_download_webpage_handle]: [None] for its [False],
    otherwise the document and the final URL), the functions of [utils]
    and of the standard library that stay abstract, and the caller's
    arguments. *)
Variable _download_webpage_handle :
  string -> bool -> result (option (string * string)).
Variable parse_m3u8_attributes : string -> gmap string string.
Variable urljoin : string -> string -> string.
Variable float_or_none : option string -> Z -> option Q.
Variable parse_codecs : option string -> option (string * string).
(** [re.search(r'(?P<width>\d+)[xX](?P<height>\d+)', s)], its groups. *)
Variable search_resolution : string -> option (string * string).
(** [re.search(r'audio.*?(?:%3D|=)(\d+)(?:-video.*?(?:%3D|=)(\d+))?', s)],
    its groups. *)
Variable search_usp : string -> option (string * option string).

Variable ext : option string.
Variable entry_protocol : string.
Variable preference : option Z.
Variable m3u8_id : option string.
Variable live : bool.

Definition format_url (m3u8_url u : string) : string :=
  if Utils.is_http_url u then u else urljoin m3u8_url u.

(** The branch for an [#EXT-X-MEDIA:] line. *)
Definition media_line (m3u8_url line : string) (w : walk) : walk :=
  let media := parse_m3u8_attributes line in
  let media_type := media !! "TYPE" in
  if bool_decide (media_type ∈ [Some "VIDEO"; Some "AUDIO"]) then
    let group_id := media !! "GROUP-ID" in
    let media_url := media !! "URI" in
    if truthy media_url then
      let f : gmap string pyval :=
        list_to_map
          [ ("format_id", PStr (join_truthy [group_id; media !! "NAME"]));
            ("url", PStr (format_url m3u8_url (default "" media_url)));
            ("language", PStr_or_none (media !! "LANGUAGE"));
            ("ext", PStr_or_none ext);
            ("protocol", PStr entry_protocol);
            ("preference", PInt_or_none preference) ] in
      let '(f, audio) :=
        if bool_decide (media_type = Some "AUDIO") then
          (<["vcodec" := PStr "none"]> f,
           if truthy group_id
              && negb (default false
                         (audio_in_video_stream w !! default "" group_id))
           then <[default "" group_id := false]> (audio_in_video_stream w)
           else audio_in_video_stream w)
        else (f, audio_in_video_stream w) in
      Walk (formats w ++ [f])%list audio (last_info w) (last_media w)
    else
      Walk (formats w)
        (if bool_decide (media_type = Some "AUDIO") && truthy group_id
         then <[default "" group_id := true]> (audio_in_video_stream w)
         else audio_in_video_stream w)
        (last_info w) media
  else w.

(** The branch for a stream URI line. *)
Definition stream_line (m3u8_url line : string) (w : walk)
  : result walk :=
  let tbr :=
    Utils.int_or_none
      (get_or (last_info w) "AVERAGE-BANDWIDTH" (last_info w) "BANDWIDTH")
      1000 in
  let format_id := if truthy m3u8_id then [default "" m3u8_id] else [] in
  let stream_name := get_or (last_info w) "NAME" (last_media w) "NAME" in
  let format_id :=
    if negb live then
      (format_id ++
         [if truthy stream_name then default "" stream_name
          else Str.of_Z (match tbr with
                         | Some 0%Z | None => Z.of_nat (length (formats w))
                         | Some t => t
                         end)])%list
    else format_id in
  let manifest_url := format_url m3u8_url (Str.strip line) in
  let f : gmap string pyval :=
    list_to_map
      [ ("format_id", PStr (Str.join "-" format_id));
        ("url", PStr manifest_url);
        ("manifest_url", PStr manifest_url);
        ("tbr", PInt_or_none tbr);
        ("ext", PStr_or_none ext);
        ("fps", PFloat_or_none
           (float_or_none (last_info w !! "FRAME-RATE") 1));
        ("protocol", PStr entry_protocol);
        ("preference", PInt_or_none preference) ] in
  f ←
    (if truthy (last_info w !! "RESOLUTION") then
       match search_resolution (default "" (last_info w !! "RESOLUTION")) with
       | Some (width, height) =>
           width ← Str.int width;
           height ← Str.int height;
           Ok (<["height" := PInt height]> (<["width" := PInt width]> f))
       | None => Ok f
       end
     else Ok f);
  let f :=
    match search_usp manifest_url with
    | Some (abr, vbr) =>
        let abr := float_or_none (Some abr) 1000 in
        let vbr := float_or_none vbr 1000 in
        <["abr" := PFloat_or_none abr]> (<["vbr" := PFloat_or_none vbr]> f)
    | None => f
    end in
  let f := codecs_dict (parse_codecs (last_info w !! "CODECS")) ∪ f in
  let f :=
    if bool_decide ((last_info w !! "AUDIO") ≫=
                      (audio_in_video_stream w !!.) = Some false)
    then <["acodec" := PStr "none"]> f else f in
  Ok (Walk (formats w ++ [f])%list (audio_in_video_stream w) ∅ ∅).

(** The body of [for line in m3u8_doc.splitlines()]. *)
Definition line_step (m3u8_url : string) (w : walk) (line : string)
  : result walk :=
  if Str.startswith line "#EXT-X-STREAM-INF:" then
    Ok (Walk (formats w) (audio_in_video_stream w)
          (parse_m3u8_attributes line) (last_media w))
  else if Str.startswith line "#EXT-X-MEDIA:" then
    Ok (media_line m3u8_url line w)
  else if Str.startswith line "#" || String.eqb (Str.strip line) "" then
    Ok w
  else stream_line m3u8_url line w.

(** [_extract_m3u8_formats(m3u8_url, video_id, ext, entry_protocol,
    preference, m3u8_id, note, errnote, fatal, live)]. *)
Definition _extract_m3u8_formats (m3u8_url : string) (fatal : bool)
  : result (list (gmap string pyval)) :=
  res ← _download_webpage_handle m3u8_url fatal;
  match res with
  | None => Ok []
  | Some (m3u8_doc, m3u8_url) =>
      let formats := [_m3u8_meta_format m3u8_url ext preference m3u8_id] in
      if Str.contains "#EXT-X-TARGETDURATION" m3u8_doc then
        Ok [list_to_map
              [ ("url", PStr m3u8_url);
                ("format_id", PStr_or_none m3u8_id);
                ("ext", PStr_or_none ext);
                ("protocol", PStr entry_protocol);
                ("preference", PInt_or_none preference) ]]
      else
        w ← for_each (line_step m3u8_url) (splitlines m3u8_doc)
              (Walk formats ∅ ∅ ∅);
        Ok (Hls.formats w)
  end.
End parse.
End Hls.

(** ** The HDS parser: [_parse_f4m_formats] *)

Module F4m.
Import ET.

Definition ns1 : string := "{http://ns.adobe.com/f4m/1.0}".
Definition ns2 : string := "{http://ns.adobe.com/f4m/2.0}".

(** ['/'.join(url.split('/')[:-1])]. *)
Definition url_dirname (url : string) : string :=
  let parts := Str.split "/" url in
  Str.join "/" (take (length parts - 1) parts).

Section parse.
(** [remove_encrypted_media] of [downloader.f4m], the functions of
    [utils] that stay abstract, the two extractors that
    [_parse_f4m_formats] calls for a nested manifest, each with its
    arguments as the call site fixes them, and the caller's arguments. *)
Variable remove_encrypted_media : list Element -> list Element.
Variable xpath_text : Element -> list string -> option string.
Variable xpath_element : Element -> list string -> option Element.
Variable determine_ext : string -> string.
Variable _extract_f4m_formats :
  string -> result (list (gmap string pyval)).
Variable _extract_m3u8_formats :
  string -> result (list (gmap string pyval)).

Variable preference : option Z.
Variable f4m_id : option string.

(** The body of [for i, media_el in enumerate(media_nodes)], on the
    state [(formats, manifest_url)]. *)
Definition media_step (manifest_version : string)
    (base_url : option string) (bootstrap_info : option Element)
    (vcodec : option string)
    (st : list (gmap string pyval) * string) (indexed : nat * Element)
  : result (list (gmap string pyval) * string) :=
  let '(formats, manifest_url) := st in
  let '(i, media_el) := indexed in
  let tbr := Utils.int_or_none (get "bitrate" media_el) 1 in
  let width := Utils.int_or_none (get "width" media_el) 1 in
  let height := Utils.int_or_none (get "height" media_el) 1 in
  let format_id :=
    Hls.join_truthy
      [f4m_id; Some (Str.of_Z (default (Z.of_nat i) tbr))] in
  let append (manifest_url : string) :=
    Ok ((formats ++ [list_to_map
           [ ("format_id", PStr format_id);
             ("url", PStr manifest_url);
             ("manifest_url", PStr manifest_url);
             ("ext", if bool_decide (is_Some bootstrap_info)
                     then PStr "flv" else PNone);
             ("tbr", PInt_or_none tbr);
             ("width", PInt_or_none width);
             ("height", PInt_or_none height);
             ("vcodec", PStr_or_none vcodec);
             ("preference", PInt_or_none preference) ]])%list,
        manifest_url) in
  match bootstrap_info with
  | Some _ => append manifest_url
  | None =>
      let media_url :=
        if String.eqb manifest_version "2.0" then get "href" media_el
        else None in
      let media_url :=
        match media_url with
        | None => get "url" media_el
        | Some _ => media_url
        end in
      if negb (truthy media_url) then Ok st else
      let media_url := default "" media_url in
      let manifest_url :=
        if Utils.is_http_url media_url then media_url
        else (if truthy base_url then default "" base_url
              else url_dirname manifest_url) +:+ "/" +:+ media_url in
      let ext := determine_ext manifest_url in
      if String.eqb ext "f4m" then
        f4m_formats ← _extract_f4m_formats manifest_url;
        let f4m_formats :=
          match f4m_formats with
          | [f] =>
              [ <["vcodec" := PStr_or_none vcodec]>
                (<["format_id" :=
                     match tbr with
                     | Some 0%Z | None => dict_get "format_id" f
                     | Some _ => PStr format_id
                     end]>
                (<["height" := py_or (dict_get "height" f) (PInt_or_none height)]>
                (<["width" := py_or (dict_get "width" f) (PInt_or_none width)]>
                (<["tbr" := py_or (dict_get "tbr" f) (PInt_or_none tbr)]> f)))) ]
          | _ => f4m_formats
          end in
        Ok ((formats ++ f4m_formats)%list, manifest_url)
      else if String.eqb ext "m3u8" then
        m3u8_formats ← _extract_m3u8_formats manifest_url;
        Ok ((formats ++ m3u8_formats)%list, manifest_url)
      else append manifest_url
  end.

(** [_parse_f4m_formats(manifest, manifest_url, video_id, preference,
    f4m_id, transform_source, fatal, m3u8_id)]. *)
Definition _parse_f4m_formats (manifest : Element) (manifest_url : string)
  : result (list (gmap string pyval)) :=
  refused ←
    match find (ns1 +:+ "pv-2.0") manifest with
    | Some akamai_pv =>
        match text akamai_pv with
        | None => Raise TypeError
        | Some pv_text =>
            if Str.contains ";" pv_text then
              let playerVerificationChallenge := Str.before ";" pv_text in
              Ok (negb (String.eqb
                          (Str.strip playerVerificationChallenge) ""))
            else Ok false
        end
    | None => Ok false
    end;
  if refused : bool then Ok [] else
  let '(manifest_version, media_nodes) :=
    match findall (ns1 +:+ "media") manifest with
    | [] => ("2.0", findall (ns2 +:+ "media") manifest)
    | media_nodes => ("1.0", media_nodes)
    end in
  let media_nodes := remove_encrypted_media media_nodes in
  match media_nodes with
  | [] => Ok []
  | _ =>
      let base_url :=
        xpath_text manifest [ns1 +:+ "baseURL"; ns2 +:+ "baseURL"] in
      let base_url :=
        if truthy base_url then Str.strip <$> base_url else base_url in
      let bootstrap_info :=
        xpath_element manifest
          [ns1 +:+ "bootstrapInfo"; ns2 +:+ "bootstrapInfo"] in
      let mime_type :=
        xpath_text manifest [ns1 +:+ "mimeType"; ns2 +:+ "mimeType"] in
      let vcodec :=
        if truthy mime_type
           && Str.startswith (default "" mime_type) "audio/"
        then Some "none" else None in
      '(formats, _) ←
        for_each (media_step manifest_version base_url bootstrap_info vcodec)
          (enumerate media_nodes) ([], manifest_url);
      Ok formats
  end.
End parse.

Section extract.
(** The page fetcher ([_download_xml]: [None] for its [False]). *)
Variable _download_xml : string -> bool -> result (option Element).
Variable remove_encrypted_media : list Element -> list Element.
Variable xpath_text : Element -> list string -> option string.
Variable xpath_element : Element -> list string -> option Element.
Variable determine_ext : string -> string.
Variable _extract_m3u8_formats :
  string -> option Z -> option string -> bool ->
  result (list (gmap string pyval)).

(** [_extract_f4m_formats(manifest_url, video_id, preference, f4m_id,
    transform_source, fatal, m3u8_id)].  [depth] is the number of nested
    calls that the interpreter still admits; Python raises
    [RuntimeError] beyond its recursion limit. *)
Fixpoint _extract_f4m_formats (depth : nat) (manifest_url : string)
    (preference : option Z) (f4m_id : option string) (fatal : bool)
    (m3u8_id : option string) : result (list (gmap string pyval)) :=
  match depth with
  | O => Raise RecursionError
  | S depth' =>
      manifest ← _download_xml manifest_url fatal;
      match manifest with
      | None => Ok []
      | Some manifest =>
          _parse_f4m_formats remove_encrypted_media xpath_text
            xpath_element determine_ext
            (fun url =>
               _extract_f4m_formats depth' url preference f4m_id fatal None)
            (fun url => _extract_m3u8_formats url preference m3u8_id fatal)
            preference f4m_id manifest manifest_url
      end
  end.
End extract.
End F4m.

(** ** Sample manifests *)

Module Samples.
Import ET.

(** A format with a video and an audio stream. *)
Definition muxed_format : Selector.format :=
  Selector.Format "http://cdn.example/a.mp4" (Some "mp4") None (Some "https")
    (Some "avc1") (Some "mp4a") None None None None None (Some (720 # 1))
    None None None None None (Some "22").

(** Stand-ins for the functions that the parsers take as parameters. *)
Definition parse_duration (v : option string) : option Q := None.
Definition mimetype2ext (mime_type : string) : option string := Some "mp4".
Definition parse_codecs (codecs : option string) : option (string * string) :=
  None.
Definition urljoin (base path : string) : option string :=
  Some (if Utils.is_http_url path then path else base +:+ path).

Definition parse_mpd (mpd_doc : Element) (mpd_id : option string)
  : result (list (gmap string pyval)) :=
  Dash._parse_mpd_formats parse_duration mimetype2ext parse_codecs urljoin
    mpd_doc mpd_id "http://cdn.example/v/" ∅ None.

(** The fragments of each format of a result. *)
Definition fragments_of (r : result (list (gmap string pyval)))
  : result (list (option pyval)) :=
  match r with
  | Ok formats => Ok (map (fun f : gmap string pyval => f !! "fragments") formats)
  | Raise e => Raise e
  end.

Definition format_ids_of (r : result (list (gmap string pyval)))
  : result (list (option pyval)) :=
  match r with
  | Ok formats => Ok (map (fun f : gmap string pyval => f !! "format_id") formats)
  | Raise e => Raise e
  end.

(** One Representation with a SegmentTemplate and the timeline
    [{t:0, d:10, r:2}]. *)
Definition mpd_timeline (media : string) : Element :=
  element "MPD" [] None
    [ element "Period" [] None
        [ element "AdaptationSet" [("mimeType", "video/mp4")] None
            [ element "Representation"
                [("id", "v1"); ("bandwidth", "800000")] None
                [ element "SegmentTemplate"
                    [("media", media); ("timescale", "1")] None
                    [ element "SegmentTimeline" [] None
                        [ element "S" [("t", "0"); ("d", "10"); ("r", "2")]
                            None [] ] ] ] ] ] ].

(** The same Representation id under two Periods. *)
Definition mpd_two_periods : Element :=
  let period (base : string) :=
    element "Period" [] None
      [ element "AdaptationSet" [("mimeType", "video/mp4")] None
          [ element "Representation"
              [("id", "v1"); ("bandwidth", "800000")] None
              [ element "BaseURL" [] (Some base) [] ] ] ] in
  element "MPD" [] None [period "p1.mp4"; period "p2.mp4"].

(** A SegmentList with three URLs and a timeline of two entries,
    [{d:10, r:1}] and [{d:5}]. *)
Definition mpd_segment_list : Element :=
  element "MPD" [] None
    [ element "Period" [] None
        [ element "AdaptationSet" [("mimeType", "video/mp4")] None
            [ element "Representation"
                [("id", "v1"); ("bandwidth", "800000")] None
                [ element "SegmentList" [("timescale", "1")] None
                    [ element "SegmentTimeline" [] None
                        [ element "S" [("d", "10"); ("r", "1")] None [];
                          element "S" [("d", "5")] None [] ];
                      element "SegmentURL" [("media", "a.m4s")] None [];
                      element "SegmentURL" [("media", "b.m4s")] None [];
                      element "SegmentURL" [("media", "c.m4s")] None [] ] ] ] ] ].

(** Two Representations; the second has no [mimeType], and neither has
    its AdaptationSet. *)
Definition mpd_missing_mime_type : Element :=
  element "MPD" [] None
    [ element "Period" [] None
        [ element "AdaptationSet" [] None
            [ element "Representation"
                [("id", "v1"); ("mimeType", "video/mp4")] None
                [ element "BaseURL" [] (Some "v1.mp4") [] ];
              element "Representation" [("id", "v2")] None
                [ element "BaseURL" [] (Some "v2.mp4") [] ] ] ] ].

(** Stand-ins for [compat_urlparse.urljoin] and for [compat_str] of a
    [float]. *)
Definition std_urljoin (base path : string) : string :=
  if Utils.is_http_url path then path else base +:+ path.
Definition float_str (q : Q) : string :=
  match Qden q with
  | 1%positive => Str.of_Z (Qnum q) +:+ ".0"
  | d => Str.of_Z (Qnum q) +:+ "/" +:+ Str.of_Z (Z.pos d)
  end.

Definition parse_ism (ism_doc : Element)
  : result (list (gmap string pyval)) :=
  Ism._parse_ism_formats std_urljoin float_str ism_doc
    "http://cdn.example/v.ism/" None.

(** One video track and the chunks given; [Duration] is 20 and the time
    scale is 1. *)
Definition ism_doc (chunks : list Element) : Element :=
  element "SmoothStreamingMedia" [("Duration", "20"); ("TimeScale", "1")]
    None
    [ element "StreamIndex"
        [("Type", "video"); ("Url", "Q({bitrate})/F({start time})")] None
        (element "QualityLevel" [("FourCC", "H264"); ("Bitrate", "800000")]
           None [] :: chunks) ].

(** Two chunks: the first starts at 0 and has no [d], the second starts
    at 10 and lasts 10. *)
Definition ism_two_chunks : Element :=
  ism_doc [ element "c" [("t", "0")] None [];
            element "c" [("t", "10"); ("d", "10")] None [] ].

(** One chunk without [d], repeated twice. *)
Definition ism_last_chunk : Element :=
  ism_doc [ element "c" [("t", "0"); ("r", "2")] None [] ].

Definition nl : string := String "010" "".

(** A master playlist with two variant streams. *)
Definition master_playlist : string :=
  "#EXTM3U" +:+ nl +:+
  "#EXT-X-STREAM-INF:BANDWIDTH=500000" +:+ nl +:+
  "low.m3u8" +:+ nl +:+
  "#EXT-X-STREAM-INF:BANDWIDTH=1500000" +:+ nl +:+
  "high.m3u8" +:+ nl.

(** Stand-ins for the page fetcher and for [utils.parse_m3u8_attributes]
    on the lines of [master_playlist]. *)
Definition fetch_master (url : string) (fatal : bool)
  : result (option (string * string)) :=
  Ok (Some (master_playlist, "http://cdn.example/hls/master.m3u8")).

Definition parse_m3u8_attributes (line : string) : gmap string string :=
  if String.eqb line "#EXT-X-STREAM-INF:BANDWIDTH=500000"
  then {["BANDWIDTH" := "500000"]}
  else if String.eqb line "#EXT-X-STREAM-INF:BANDWIDTH=1500000"
  then {["BANDWIDTH" := "1500000"]}
  else ∅.

(** An F4M manifest with a player verification challenge and one media
    entry. *)
Definition f4m_with_challenge : Element :=
  element (F4m.ns1 +:+ "manifest") [] None
    [ element (F4m.ns1 +:+ "pv-2.0") [] (Some "ZXhwPTE0;hdntl=abc") [];
      element (F4m.ns1 +:+ "media")
        [("url", "stream"); ("bitrate", "800")] None [] ].
End Samples.

(** ** Format lists: duplicates and reachability *)

Module Formats.

(** The key under which a value enters a [set].  A list or a dictionary is
    not hashable; a number as a URL is not embedded. *)
Definition hash_key (v : pyval) : result (option string) :=
  match v with
  | PStr s => Ok (Some s)
  | PNone => Ok None
  | PList _ | PDict _ => Raise TypeError
  | PInt _ | PFloat _ => Raise NotEmbedded
  end.

(** [item['url']], as a set key. *)
Definition item_url (item : gmap string pyval) : result (option string) :=
  match item !! "url" with
  | Some v => hash_key v
  | None => Raise (KeyError "url")
  end.

(** [_remove_duplicate_formats(formats)]: the list that the call leaves in
    [formats].  The loop state is [(format_urls, unique_formats)]. *)
Definition _remove_duplicate_formats (formats : list (gmap string pyval))
  : result (list (gmap string pyval)) :=
  '(_, unique_formats) ←
    for_each
      (fun (st : gset (option string) * list (gmap string pyval)) f =>
         let '(format_urls, unique_formats) := st in
         url ← item_url f;
         if decide (url ∈ format_urls) then Ok (format_urls, unique_formats)
         else Ok ({[url]} ∪ format_urls, (unique_formats ++ [f])%list))
      formats (∅, []);
  Ok unique_formats.

(** What the loop of [_remove_duplicate_formats] keeps true of the formats
    seen so far, [pre], and of its two variables. *)
Definition dedup_invariant (pre : list (gmap string pyval))
    (st : gset (option string) * list (gmap string pyval)) : Prop :=
  exists urls unique_urls,
    mapM item_url pre = Ok urls /\
    mapM item_url (snd st) = Ok unique_urls /\
    NoDup unique_urls /\
    (forall u, u ∈ fst st <-> u ∈ unique_urls) /\
    (forall u, u ∈ unique_urls <-> u ∈ urls) /\
    sublist (snd st) pre /\
    (forall i f u,
       pre !! i = Some f -> item_url f = Ok u ->
       (forall j g, j < i -> pre !! j = Some g -> item_url g <> Ok u) ->
       f ∈ snd st).

(** [http_scheme()]; [prefer_insecure] is the downloader parameter. *)
Definition http_scheme (prefer_insecure : bool) : string :=
  if prefer_insecure then "http:" else "https:".

(** [_proto_relative_url(url, scheme)]. *)
Definition _proto_relative_url (prefer_insecure : bool) (url : option string)
    (scheme : option string) : option string :=
  match url with
  | None => None
  | Some url =>
      if Str.startswith url "//" then
        Some (default (http_scheme prefer_insecure) scheme +:+ url)
      else Some url
  end.

(** What [_request_webpage] does with a URL: it returns a handle, or it
    raises [ExtractorError] whose cause is a [URLError], or it raises
    something else. *)
Inductive request_outcome : Type :=
  | Opened
  | FailedURLError
  | Failed (e : exn).

Section check.
Variable prefer_insecure : bool.
Variable _request_webpage : string -> request_outcome.

(** [_is_valid_url(url, video_id, item)]. *)
Definition _is_valid_url (url : string) : result bool :=
  match _proto_relative_url prefer_insecure (Some url) (Some "http:") with
  | None => Raise NotEmbedded
  | Some url =>
      if negb (Str.startswith url "http://" || Str.startswith url "https://")
      then Ok true
      else match _request_webpage url with
           | Opened => Ok true
           | FailedURLError => Ok false
           | Failed e => Raise e
           end
  end.

(** [filter(lambda f: self._is_valid_url(f['url'], ...), formats)].  A URL
    that is not a string has no [startswith]; that [AttributeError] is not
    embedded. *)
Fixpoint filter_valid (formats : list (gmap string pyval))
  : result (list (gmap string pyval)) :=
  match formats with
  | [] => Ok []
  | f :: formats' =>
      valid ←
        match f !! "url" with
        | None => Raise (KeyError "url")
        | Some (PStr url) => _is_valid_url url
        | Some _ => Raise NotEmbedded
        end;
      rest ← filter_valid formats';
      Ok (if valid : bool then f :: rest else rest)
  end.

(** [_check_formats(formats, video_id)]: the list that the call leaves in
    [formats]. *)
Definition _check_formats (formats : list (gmap string pyval))
  : result (list (gmap string pyval)) :=
  match formats with
  | [] => Ok formats
  | _ => filter_valid formats
  end.
End check.

End Formats.

(** ** Subtitles *)

Module Subtitles.
Import Formats.

(** [_merge_subtitle_items(subtitle_list1, subtitle_list2)]. *)
Definition _merge_subtitle_items
    (subtitle_list1 subtitle_list2 : list (gmap string pyval))
  : result (list (gmap string pyval)) :=
  list1_urls ← mapM (M := result) item_url subtitle_list1;
  extra ←
    for_each
      (fun (extra : list (gmap string pyval)) item =>
         url ← item_url item;
         Ok (if decide (url ∈ list1_urls) then extra
             else (extra ++ [item])%list))
      subtitle_list2 [];
  Ok (subtitle_list1 ++ extra)%list.

(** [_merge_subtitles(subtitle_dict1, subtitle_dict2)].  The languages of
    [subtitle_dict2] are visited in the order of [map_to_list]; the order
    in which Python visits them decides only which exception is seen when
    the items of several languages fail. *)
Definition _merge_subtitles
    (subtitle_dict1 subtitle_dict2 : gmap string (list (gmap string pyval)))
  : result (gmap string (list (gmap string pyval))) :=
  for_each
    (fun (ret : gmap string (list (gmap string pyval)))
         (entry : string * list (gmap string pyval)) =>
       let '(lang, items) := entry in
       merged ← _merge_subtitle_items
                  (default [] (subtitle_dict1 !! lang)) items;
       Ok (<[lang := merged]> ret))
    (map_to_list subtitle_dict2) subtitle_dict1.

End Subtitles.

(** ** Search extractors: [SearchInfoExtractor] *)

Module Search.

Fixpoint take_digits (s : string) : string * string :=
  match s with
  | String c s' =>
      if Str.is_digit c then
        let '(digits, rest) := take_digits s' in (String c digits, rest)
      else (EmptyString, s)
  | EmptyString => (EmptyString, EmptyString)
  end.

Section search.
(** [_SEARCH_KEY], a key without regular expression operators, as the
    search extractors define it, and [_MAX_RESULTS]. *)
Variable _SEARCH_KEY : string.
Variable _MAX_RESULTS : Z.

(** The tail [:(?P<query>[\s\S]+)] of the pattern, after the prefix. *)
Definition with_query (prefix rest : string) : option (string * string) :=
  match rest with
  | String c0 (String c q) =>
      if Ascii.eqb c0 ":" then Some (prefix, String c q) else None
  | _ => None
  end.

(** [re.match(cls._make_valid_url(), s)], that is
    [KEY(?P<prefix>|[1-9][0-9]*|all):(?P<query>[\s\S]+)]: the groups
    [prefix] and [query].  The three alternatives of the prefix begin
    with different characters, so at most one of them can match. *)
Definition match_valid_url (s : string) : option (string * string) :=
  if String.prefix _SEARCH_KEY s then
    let rest := Str.drop (String.length _SEARCH_KEY) s in
    if Str.startswith rest ":" then with_query "" rest
    else
      let '(digits, rest') := take_digits rest in
      match digits with
      | String c _ =>
          if Ascii.eqb c "0" then None else with_query digits rest'
      | EmptyString =>
          if Str.startswith rest "all" then with_query "all" (Str.drop 3 rest)
          else None
      end
  else None.

(** [suitable(url)]. *)
Definition suitable (url : string) : bool :=
  bool_decide (is_Some (match_valid_url url)).

Section real_extract.
Variable R : Type.
Variable _get_n_results : string -> Z -> result R.

(** [_real_extract(query)]. *)
Definition _real_extract (query : string) : result R :=
  match match_valid_url query with
  | None =>
      Raise (ExtractorError
               ("Invalid search query " +:+ String "034" (query +:+ String "034" "")))
  | Some (prefix, query) =>
      if String.eqb prefix "" then _get_n_results query 1
      else if String.eqb prefix "all" then _get_n_results query _MAX_RESULTS
      else
        n ← Str.int prefix;
        if (n <=? 0)%Z then
          Raise (ExtractorError
                   ("invalid download number " +:+ Str.of_Z n
                    +:+ " for query " +:+ String "034" (query +:+ String "034" "")))
        else if (n >? _MAX_RESULTS)%Z then _get_n_results query _MAX_RESULTS
        else _get_n_results query n
  end.
End real_extract.
End search.

End Search.

(** ** Test cases and age limits: [get_testcases], [is_suitable] *)

Module Suitability.

(** A test case, with what [is_suitable] reads of it: whether
    [only_matching] is set, the [age_limit] of the [info_dict] of each
    entry of its [playlist], and the [age_limit] of its own [info_dict];
    an age limit is [None] when a key on the way to it is absent. *)
Record testcase : Type := Testcase {
  only_matching : bool;
  playlist : list (option Z);
  age_limit : option Z;
}.

Section suitability.
(** The class attributes [_TEST], [None] when absent or empty, and
    [_TESTS], [None] when absent, and [utils.age_restricted]. *)
Variable _TEST : option testcase.
Variable _TESTS : option (list testcase).
Variable age_restricted : option Z -> option Z -> bool.

(** [get_testcases(include_onlymatching)]: the test cases it yields.  A
    class with both [_TEST] and [_TESTS] fails the assertion, which is
    not embedded.  The [name] that is stored in each test case is not
    read by [is_suitable]. *)
Definition get_testcases (include_onlymatching : bool)
  : result (list testcase) :=
  tests ←
    match _TEST with
    | Some t =>
        match _TESTS with
        | Some _ => Raise NotEmbedded
        | None => Ok [t]
        end
    | None => Ok (default [] _TESTS)
    end;
  Ok (filter (fun t => negb (negb include_onlymatching && only_matching t)
                       = true) tests).

(** The loop of [is_suitable], on [any_restricted]; the [true] of the
    first branch is the [return True] inside the loop. *)
Fixpoint suitable_loop (limit : option Z) (tcs : list testcase)
    (any_restricted : bool) : bool :=
  match tcs with
  | [] => negb any_restricted
  | tc :: tcs' =>
      let tc_age_limit :=
        match playlist tc with
        | first :: _ => first
        | [] => age_limit tc
        end in
      let is_restricted := age_restricted tc_age_limit limit in
      if negb is_restricted then true
      else suitable_loop limit tcs' (any_restricted || is_restricted)
  end.

(** [is_suitable(age_limit)]. *)
Definition is_suitable (limit : option Z) : result bool :=
  tcs ← get_testcases false;
  Ok (suitable_loop limit tcs false).
End suitability.

End Suitability.

(** ** The entry point and the regular expression helper *)

Module Extractor.

(** The [default] argument of [_search_regex]: the sentinel [NO_DEFAULT],
    or a value, which can be [None]. *)
Inductive default_value : Type :=
  | NO_DEFAULT
  | Default (v : option string).

(** The [pattern] argument: one pattern, or a list of patterns. *)
Inductive pattern_argument : Type :=
  | Pattern (p : string)
  | Patterns (l : list string).

Section search_regex.
(** [re.search(pattern, string, flags)]: [None] when nothing matches,
    otherwise [mobj.groups()]; and the name as it is shown, in colour on a
    terminal. *)
Variable re_search : string -> string -> option (list (option string)).
Variable _name_of : string -> string.

(** [for p in pattern: mobj = re.search(p, string, flags); if mobj: break],
    on [mobj].  Before the first pattern [mobj] is unbound; using it then
    is an [UnboundLocalError], which is not embedded. *)
Fixpoint search_each (patterns : list string) (s : string)
    (mobj : result (option (list (option string))))
  : result (option (list (option string))) :=
  match patterns with
  | [] => mobj
  | p :: patterns' =>
      match re_search p s with
      | Some groups => Ok (Some groups)
      | None => search_each patterns' s (Ok None)
      end
  end.

(** [next(g for g in mobj.groups() if g is not None)]. *)
Fixpoint first_group (groups : list (option string)) : result string :=
  match groups with
  | [] => Raise StopIteration
  | Some g :: _ => Ok g
  | None :: groups' => first_group groups'
  end.

(** [_search_regex(pattern, string, name, default, fatal, flags)], with
    [group] left at [None].  [RegexNotFoundError] is an [ExtractorError];
    the warning of the last branch goes to the diagnostics sink. *)
Definition _search_regex (pattern : pattern_argument) (s name : string)
    (default : default_value) (fatal : bool) : result (option string) :=
  mobj ←
    match pattern with
    | Pattern p => Ok (re_search p s)
    | Patterns l => search_each l s (Raise NotEmbedded)
    end;
  match mobj with
  | Some groups => g ← first_group groups; Ok (Some g)
  | None =>
      match default with
      | Default v => Ok v
      | NO_DEFAULT =>
          if fatal
          then Raise (ExtractorError ("Unable to extract " +:+ _name_of name))
          else Ok None
      end
  end.
End search_regex.

Section extract.
(** The result type of [_real_extract], and the two methods that a
    subclass redefines.  They are called with the instance; what they do
    to the instance besides [_ready] is not embedded. *)
Variable Info : Type.
Variable _real_initialize : result unit.
Variable _real_extract : string -> result Info.

(** [initialize()], on [self._ready]; an exception of [_real_initialize]
    leaves [_ready] as it was. *)
Definition initialize (_ready : bool) : bool * result unit :=
  if negb _ready then
    match _real_initialize with
    | Ok _ => (true, Ok tt)
    | Raise e => (_ready, Raise e)
    end
  else (_ready, Ok tt).

(** [extract(url)], on [self._ready].  An [ExtractorError] is raised
    again; a [KeyError] or a [StopIteration] becomes an [ExtractorError],
    whose cause is not embedded; [IncompleteRead] is not an exception of
    the embedding; any other exception is not caught. *)
Definition extract (url : string) (_ready : bool) : bool * result Info :=
  let '(_ready, initialized) := initialize _ready in
  let r := initialized ≫= fun _ => _real_extract url in
  (_ready,
   match r with
   | Raise (KeyError _) | Raise StopIteration =>
       Raise (ExtractorError "An extractor error has occurred.")
   | _ => r
   end).
End extract.

End Extractor.

(** ** Sample formats, subtitles and manifests for the helper functions *)

Module MoreSamples.
Import ET.

Definition fmt (url format_id : string) : gmap string pyval :=
  list_to_map [("url", PStr url); ("format_id", PStr format_id)].

(** Three formats, the third with the URL of the first. *)
Definition formats_with_duplicate : list (gmap string pyval) :=
  [ fmt "http://cdn.example/a.mp4" "a";
    fmt "rtmp://cdn.example/b" "b";
    fmt "http://cdn.example/a.mp4" "c" ].

(** The first two of them. *)
Definition formats_without_duplicate : list (gmap string pyval) :=
  [ fmt "http://cdn.example/a.mp4" "a"; fmt "rtmp://cdn.example/b" "b" ].

Definition format_without_url : gmap string pyval :=
  {["format_id" := PStr "d"]}.

(** A network on which one URL cannot be opened. *)
Definition request_webpage (url : string) : Formats.request_outcome :=
  if String.eqb url "http://cdn.example/dead.mp4" then Formats.FailedURLError
  else Formats.Opened.

Definition formats_with_dead_url : list (gmap string pyval) :=
  [ fmt "http://cdn.example/a.mp4" "a";
    fmt "http://cdn.example/dead.mp4" "b";
    fmt "rtmp://cdn.example/c" "c" ].

(** Those of them whose URL can be opened or is not probed. *)
Definition formats_without_dead_url : list (gmap string pyval) :=
  [ fmt "http://cdn.example/a.mp4" "a"; fmt "rtmp://cdn.example/c" "c" ].

Definition subtitle (url ext : string) : gmap string pyval :=
  list_to_map [("url", PStr url); ("ext", PStr ext)].

Definition subtitles_vtt : list (gmap string pyval) :=
  [subtitle "http://cdn.example/en.vtt" "vtt"].

Definition subtitles_vtt_srt : list (gmap string pyval) :=
  [ subtitle "http://cdn.example/en.vtt" "vtt";
    subtitle "http://cdn.example/en.srt" "srt" ].

(** A subtitle that holds its text instead of a URL. *)
Definition subtitle_with_data : gmap string pyval :=
  list_to_map [("data", PStr "WEBVTT"); ("ext", PStr "vtt")].

Definition subtitles_first : gmap string (list (gmap string pyval)) :=
  {["en" := subtitles_vtt]}.

Definition subtitles_second : gmap string (list (gmap string pyval)) :=
  <["de" := [subtitle "http://cdn.example/de.vtt" "vtt"]]>
    {["en" := subtitles_vtt_srt]}.

(** An audio-only format, and stand-ins for [determine_ext] and
    [determine_protocol]. *)
Definition audio_format : Selector.format :=
  Selector.Format "http://cdn.example/a.m4a" (Some "m4a") None (Some "https")
    (Some "none") (Some "mp4a") None None None None None None
    None (Some (128 # 1)) None None None (Some "140").

Definition determine_ext (url : string) : string := "mp4".
Definition determine_protocol (f : Selector.format) : string := "https".

(** [ms_info] of a Representation with the timeline [{t:0, d:10, r:2}],
    and of one with segments of four seconds and no timeline. *)
Definition ms_timeline : Dash.ms_info :=
  Dash.MsInfo 1 1 None (Some 3%Z) (Some [Dash.SEntry 0 10 2]) None
    (Some "seg-$Time$.m4s") None None.

Definition ms_numbered : Dash.ms_info :=
  Dash.MsInfo 1 1 (Some 4%Z) None None None (Some "seg-$Number$.m4s") None
    None.

(** The fragments of [ms_timeline] for the template [seg-$Time$.m4s], and
    of [ms_numbered] for [seg-$Number$.m4s] in a Period of ten seconds. *)
Definition timeline_sample_fragments : list pyval :=
  [ Dash.fragment "seg-0.m4s" (Some (10 # 1));
    Dash.fragment "seg-10.m4s" (Some (10 # 1));
    Dash.fragment "seg-20.m4s" (Some (10 # 1)) ].

Definition numbered_sample_fragments : list pyval :=
  [ Dash.fragment "seg-1.m4s" (Some (4 # 1));
    Dash.fragment "seg-2.m4s" (Some (4 # 1));
    Dash.fragment "seg-3.m4s" (Some (4 # 1)) ].

(** The list that a call returns, for a call that does return. *)
Definition returned {A} (r : result (list A)) : list A :=
  match r with
  | Ok l => l
  | Raise _ => []
  end.

(** The formats of the sample manifests. *)
Definition master_playlist_formats : list (gmap string pyval) :=
  returned
    (Hls._extract_m3u8_formats Samples.fetch_master
       Samples.parse_m3u8_attributes Samples.std_urljoin (fun _ _ => None)
       Samples.parse_codecs (fun _ => None) (fun _ => None) (Some "mp4")
       "m3u8_native" (Some 1%Z) (Some "hls") false
       "http://cdn.example/hls/master.m3u8" true).

Definition mpd_two_periods_formats : list (gmap string pyval) :=
  returned (Samples.parse_mpd Samples.mpd_two_periods None).

Definition ism_two_chunks_formats : list (gmap string pyval) :=
  returned (Samples.parse_ism Samples.ism_two_chunks).

(** Stand-ins for [xpath_element] and [xpath_text] of [utils]: the first
    child found under one of the paths, and its text. *)
Definition xpath_element (e : Element) (paths : list string)
  : option Element :=
  head (omap (fun path => find path e) paths).

Definition xpath_text (e : Element) (paths : list string) : option string :=
  xpath_element e paths ≫= text.

(** A stream-level F4M manifest with two media entries. *)
Definition f4m_stream_level : Element :=
  element (F4m.ns1 +:+ "manifest") [] None
    [ element (F4m.ns1 +:+ "bootstrapInfo") [] (Some "AAAA") [];
      element (F4m.ns1 +:+ "media")
        [("url", "low"); ("bitrate", "400")] None [];
      element (F4m.ns1 +:+ "media")
        [("url", "high.f4m"); ("bitrate", "800")] None [] ].

Definition f4m_stream_level_formats : list (gmap string pyval) :=
  returned
    (F4m._parse_f4m_formats (fun nodes => nodes) xpath_text xpath_element
       determine_ext (fun _ => Raise ValueError) (fun _ => Raise ValueError)
       None None f4m_stream_level "http://cdn.example/hds/stream.f4m").

(** A set-level F4M manifest whose media entry is the manifest's own
    URL. *)
Definition f4m_cyclic : Element :=
  element (F4m.ns1 +:+ "manifest") [] None
    [ element (F4m.ns1 +:+ "media")
        [("url", "http://cdn.example/hds/manifest.f4m")] None [] ].

(** Test cases: one that only matches, one restricted to adults, one with
    a playlist whose first entry has no age limit. *)
Definition testcases : list Suitability.testcase :=
  [ Suitability.Testcase true [] None;
    Suitability.Testcase false [] (Some 18%Z);
    Suitability.Testcase false [None; Some 18%Z] (Some 18%Z) ].

(** A stand-in for [utils.age_restricted]. *)
Definition age_restricted (content_limit age_limit : option Z) : bool :=
  match content_limit, age_limit with
  | Some c, Some a => (a <? c)%Z
  | _, _ => false
  end.

End MoreSamples.

(** * Properties *)

(** ** The order on composite keys *)

Section key_order.
Import Selector.

Lemma lex_compare_antisym k1 k2 :
  lex_compare k2 k1 = CompOpp (lex_compare k1 k2).
Proof.
  revert k2; induction k1 as [|x k1 IH]; intros [|y k2]; simpl; try done.
  rewrite <- (Qcompare_antisym x y).
  destruct (x ?= y)%Q; simpl; auto.
Qed.

Lemma lex_compare_eq_l k1 k2 k3 :
  lex_compare k1 k2 = Eq -> lex_compare k1 k3 = lex_compare k2 k3.
Proof.
  revert k2 k3; induction k1 as [|x k1 IH]; intros [|y k2] k3; simpl;
    try done.
  destruct (x ?= y)%Q eqn:Hxy; try done.
  intros H. apply Qeq_alt in Hxy.
  destruct k3 as [|z k3]; simpl; [done|].
  rewrite Hxy. destruct (y ?= z)%Q; auto.
Qed.

Lemma lex_compare_lt_trans k1 k2 k3 :
  lex_compare k1 k2 = Lt -> lex_compare k2 k3 = Lt -> lex_compare k1 k3 = Lt.
Proof.
  revert k2 k3; induction k1 as [|x k1 IH]; intros [|y k2] [|z k3]; simpl;
    try done.
  destruct (x ?= y)%Q eqn:Hxy; try done.
  - apply Qeq_alt in Hxy. rewrite Hxy.
    destruct (y ?= z)%Q; try done. apply IH.
  - intros _.
    destruct (y ?= z)%Q eqn:Hyz; try done.
    + apply Qeq_alt in Hyz. by rewrite <- Hyz, Hxy.
    + assert (x < z)%Q as Hxz.
      { apply Qlt_trans with y; by apply Qlt_alt. }
      by rewrite (proj1 (Qlt_alt x z) Hxz).
Qed.

Lemma string_compare_lt_trans s1 s2 s3 :
  String.compare s1 s2 = Lt -> String.compare s2 s3 = Lt ->
  String.compare s1 s3 = Lt.
Proof.
  intros H1 H2. apply String_as_OT.cmp_lt.
  apply String_as_OT.lt_trans with s2; by apply String_as_OT.cmp_lt.
Qed.

Lemma key_compare_antisym k1 k2 :
  key_compare k2 k1 = CompOpp (key_compare k1 k2).
Proof.
  unfold key_compare. rewrite lex_compare_antisym.
  destruct (lex_compare _ _); simpl; try done.
  by rewrite String.compare_antisym.
Qed.

Lemma key_compare_lt_trans k1 k2 k3 :
  key_compare k1 k2 = Lt -> key_compare k2 k3 = Lt -> key_compare k1 k3 = Lt.
Proof.
  unfold key_compare.
  destruct (lex_compare (key_numbers k1) (key_numbers k2)) eqn:H12;
    try done.
  - rewrite (lex_compare_eq_l _ _ _ H12).
    destruct (lex_compare (key_numbers k2) (key_numbers k3)); try done.
    apply string_compare_lt_trans.
  - intros _.
    destruct (lex_compare (key_numbers k2) (key_numbers k3)) eqn:H23;
      try done.
    + intros _.
      assert (lex_compare (key_numbers k3) (key_numbers k2) = Eq) as H32
        by (by rewrite lex_compare_antisym, H23).
      assert (lex_compare (key_numbers k3) (key_numbers k1) = Gt) as H31.
      { rewrite (lex_compare_eq_l _ _ _ H32).
        by rewrite lex_compare_antisym, H12. }
      rewrite lex_compare_antisym, H31. done.
    + intros _. by rewrite (lex_compare_lt_trans _ _ _ H12 H23).
Qed.

Lemma key_compare_eq_l k1 k2 k3 :
  key_compare k1 k2 = Eq -> key_compare k1 k3 = key_compare k2 k3.
Proof.
  unfold key_compare.
  destruct (lex_compare (key_numbers k1) (key_numbers k2)) eqn:H12;
    try done.
  intros Hs. apply String.compare_eq_iff in Hs.
  rewrite (lex_compare_eq_l _ _ _ H12), Hs. done.
Qed.

Lemma key_le_total k1 k2 : key_le k1 k2 \/ key_le k2 k1.
Proof.
  unfold key_le. rewrite (key_compare_antisym k1 k2).
  destruct (key_compare k1 k2); simpl; auto.
Qed.

Lemma key_le_trans k1 k2 k3 : key_le k1 k2 -> key_le k2 k3 -> key_le k1 k3.
Proof.
  unfold key_le.
  destruct (key_compare k1 k2) eqn:H12; try done; intros _.
  - by rewrite (key_compare_eq_l _ _ _ H12).
  - destruct (key_compare k2 k3) eqn:H23; try done; intros _.
    + assert (key_compare k3 k2 = Eq) as H32
        by (by rewrite key_compare_antisym, H23).
      assert (key_compare k3 k1 = Gt) as H31.
      { rewrite (key_compare_eq_l _ _ _ H32).
        by rewrite key_compare_antisym, H12. }
      by rewrite key_compare_antisym, H31.
    + by rewrite (key_compare_lt_trans _ _ _ H12 H23).
Qed.

Lemma key_leb_le k1 k2 : key_leb k1 k2 = true <-> key_le k1 k2.
Proof. unfold key_leb, key_le. destruct (key_compare k1 k2); naive_solver. Qed.
End key_order.

(** ** The stable sort *)

Section sort_facts.
Import Selector.

Lemma key_le_refl k : key_le k k.
Proof. destruct (key_le_total k k); done. Qed.

Lemma insert_by_key_perm x l : insert_by_key x l ≡ₚ x :: l.
Proof.
  induction l as [|y l IH]; simpl; [done|].
  destruct (key_leb (snd x) (snd y)); [done|].
  rewrite IH. apply Permutation_swap.
Qed.

Lemma sort_by_key_perm l : sort_by_key l ≡ₚ l.
Proof.
  induction l as [|x l IH]; simpl; [done|].
  by rewrite insert_by_key_perm, IH.
Qed.

Lemma insert_by_key_sorted x l :
  StronglySorted keyed_le l -> StronglySorted keyed_le (insert_by_key x l).
Proof.
  induction l as [|y l IH]; simpl; intros Hs.
  - by repeat constructor.
  - apply StronglySorted_inv in Hs as [Hl Hy].
    destruct (key_leb (snd x) (snd y)) eqn:Hxy.
    + apply key_leb_le in Hxy.
      constructor; [by constructor|].
      constructor; [done|].
      eapply Forall_impl; [exact Hy|].
      intros z Hz. by apply key_le_trans with (snd y).
    + constructor; [by apply IH|].
      rewrite insert_by_key_perm. constructor; [|done].
      destruct (key_le_total (snd y) (snd x)) as [?|Hle]; [done|].
      apply key_leb_le in Hle. congruence.
Qed.

Lemma sort_by_key_sorted l : StronglySorted keyed_le (sort_by_key l).
Proof.
  induction l as [|x l IH]; simpl; [constructor|].
  by apply insert_by_key_sorted.
Qed.

Lemma StronglySorted_last {A} (R : relation A) (l : list A) (b : A) :
  (forall x, R x x) -> StronglySorted R l -> last l = Some b ->
  forall x, x ∈ l -> R x b.
Proof.
  intros Hrefl Hs. induction Hs as [|y l Hs IH Hy]; intros Hlast x Hx.
  - by apply elem_of_nil in Hx.
  - destruct l as [|z l].
    + simpl in Hlast. apply list_elem_of_singleton in Hx. by simplify_eq.
    + rewrite last_cons_cons in Hlast.
      apply elem_of_cons in Hx as [->|Hx]; [|by apply IH].
      rewrite Forall_forall in Hy. apply Hy.
      apply last_Some in Hlast as [l' ->].
      apply elem_of_app. right. apply list_elem_of_singleton. done.
Qed.

Variable determine_ext : string -> string.
Variable determine_protocol : format -> string.
Variable prefer_free_formats : bool.

Lemma determine_missing_ext_idemp f :
  determine_missing_ext determine_ext (determine_missing_ext determine_ext f)
  = determine_missing_ext determine_ext f.
Proof.
  unfold determine_missing_ext.
  destruct (str_truthy (ext f)) eqn:Hf; simpl; [by rewrite Hf|].
  by destruct (determine_ext (url f)).
Qed.

(** The key the sort used for a format is the key of the format as the
    sort left it. *)
Lemma formats_key_composite f :
  snd (_formats_key determine_ext determine_protocol prefer_free_formats f)
  = composite_key determine_ext determine_protocol prefer_free_formats
      (fst (_formats_key determine_ext determine_protocol
              prefer_free_formats f)).
Proof.
  unfold composite_key, _formats_key; simpl.
  by rewrite determine_missing_ext_idemp.
Qed.
End sort_facts.

(** ** [_sort_formats] *)

Section sort_formats_spec.
Import Selector.
Variable determine_ext : string -> string.
Variable determine_protocol : format -> string.
Variable prefer_free_formats : bool.

Local Abbreviation sort_formats :=
  (_sort_formats determine_ext determine_protocol prefer_free_formats).
Local Abbreviation ckey :=
  (composite_key determine_ext determine_protocol prefer_free_formats).
Local Abbreviation formats_key' :=
  (_formats_key determine_ext determine_protocol prefer_free_formats).

Lemma keyed_sorted_fst (l : list (format * formats_key)) :
  Forall (fun p => snd p = ckey (fst p)) l ->
  StronglySorted keyed_le l ->
  StronglySorted (fun a b => key_le (ckey a) (ckey b)) (map fst l).
Proof.
  intros Hk Hs. induction Hs as [|p l Hs IH Hp]; simpl; [constructor|].
  apply Forall_cons in Hk as [Hkp Hk].
  constructor; [by apply IH|].
  apply Forall_map. rewrite Forall_forall in Hp, Hk |- *.
  intros q Hq. simpl. rewrite <- Hkp, <- (Hk q Hq). by apply Hp.
Qed.


Local Abbreviation default_preference :=
  (Selector.default_preference determine_ext).

Lemma default_preference_bounds f :
  (default_preference f == - (1 # 2) \/ default_preference f == 0)%Q.
Proof. unfold default_preference. destruct (str_in _ _); [left|right]; done. Qed.

Lemma key_lt_primary p1 p2 n1 n2 s1 s2 :
  (p1 < p2)%Q -> key_lt (FormatsKey (p1 :: n1) s1) (FormatsKey (p2 :: n2) s2).
Proof.
  intros H. unfold key_lt, key_compare; simpl.
  by rewrite (proj1 (Qlt_alt p1 p2) H).
Qed.

Lemma composite_key_primary f :
  preference f = None ->
  exists rest,
    ckey f = FormatsKey
      ((if str_is (vcodec f) "none"
        then (default_preference f - inject_Z 50)%Q
        else if str_is (acodec f) "none"
             then (default_preference f - inject_Z 40)%Q
             else default_preference f) :: rest)
      (default "" (format_id f)).
Proof.
  intros Hp. unfold composite_key, _formats_key, key_tuple, default_preference.
  simpl.
  assert (preference (determine_missing_ext determine_ext f) = None) as ->.
  { unfold determine_missing_ext. by destruct (negb _). }
  assert (vcodec (determine_missing_ext determine_ext f) = vcodec f) as ->.
  { unfold determine_missing_ext. by destruct (negb _). }
  assert (acodec (determine_missing_ext determine_ext f) = acodec f) as ->.
  { unfold determine_missing_ext. by destruct (negb _). }
  assert (format_id (determine_missing_ext determine_ext f) = format_id f)
    as ->.
  { unfold determine_missing_ext. by destruct (negb _). }
  destruct (str_is (vcodec f) "none"); [by eexists|].
  destruct (str_is (acodec f) "none"); by eexists.
Qed.

Lemma rank_lt muxed video_only audio_only :
  preference muxed = None -> preference video_only = None ->
  preference audio_only = None ->
  str_is (vcodec muxed) "none" = false ->
  str_is (acodec muxed) "none" = false ->
  str_is (vcodec video_only) "none" = false ->
  str_is (acodec video_only) "none" = true ->
  str_is (vcodec audio_only) "none" = true ->
  key_lt (ckey audio_only) (ckey video_only) /\
  key_lt (ckey video_only) (ckey muxed).
Proof.
  intros Hm Hv Ha Hmv Hma Hvv Hva Hav.
  destruct (composite_key_primary muxed Hm) as [rm ->].
  destruct (composite_key_primary video_only Hv) as [rv ->].
  destruct (composite_key_primary audio_only Ha) as [ra ->].
  rewrite Hmv, Hma, Hvv, Hva, Hav.
  split; apply key_lt_primary.
  - destruct (default_preference_bounds audio_only) as [->| ->],
      (default_preference_bounds video_only) as [->| ->]; done.
  - destruct (default_preference_bounds video_only) as [->| ->],
      (default_preference_bounds muxed) as [->| ->]; done.
Qed.

Lemma synthesize_tbr_fields f :
  preference (synthesize_tbr f) = preference f /\
  vcodec (synthesize_tbr f) = vcodec f /\
  acodec (synthesize_tbr f) = acodec f.
Proof.
  unfold synthesize_tbr.
  destruct (tbr f), (abr f), (vbr f); done.
Qed.

Lemma key_lt_leb_false k1 k2 : key_lt k1 k2 -> key_leb k2 k1 = false.
Proof.
  unfold key_lt, key_leb. intros H.
  by rewrite key_compare_antisym, H.
Qed.

(** C10.  Without an explicit preference, the primary key component is
    the default lowered by 50 for an audio-only format ([vcodec] is
    'none'), by 40 for a video-only one ([acodec] is 'none', [vcodec] is
    not), and not lowered otherwise; so a format with both streams has a
    strictly greater key than a video-only one, and that one a strictly
    greater key than an audio-only one, whatever their other fields, and
    they are sorted in that order. *)
Theorem audio_only_and_video_only_rank_below_muxed :
  (forall f, preference f = None ->
     head (key_numbers (ckey f)) =
       Some (if str_is (vcodec f) "none"
             then (default_preference f - inject_Z 50)%Q
             else if str_is (acodec f) "none"
                  then (default_preference f - inject_Z 40)%Q
                  else default_preference f)) /\
  (forall muxed video_only audio_only,
     preference muxed = None -> preference video_only = None ->
     preference audio_only = None ->
     str_is (vcodec muxed) "none" = false ->
     str_is (acodec muxed) "none" = false ->
     str_is (vcodec video_only) "none" = false ->
     str_is (acodec video_only) "none" = true ->
     str_is (vcodec audio_only) "none" = true ->
     key_lt (ckey audio_only) (ckey video_only) /\
     key_lt (ckey video_only) (ckey muxed) /\
     sort_formats [muxed; video_only; audio_only] =
       Ok (map (fun f => determine_missing_ext determine_ext
                           (synthesize_tbr f))
             [audio_only; video_only; muxed])).
Proof.
  split.
  - intros f Hp. destruct (composite_key_primary f Hp) as [rest ->]. done.
  - intros m v a Hm Hv Ha Hmv Hma Hvv Hva Hav.
    destruct (rank_lt m v a) as [Hav' Hvm']; try done.
    do 2 (split; [done|]).
    destruct (synthesize_tbr_fields m) as (Pm & Vm & Am).
    destruct (synthesize_tbr_fields v) as (Pv & Vv & Av).
    destruct (synthesize_tbr_fields a) as (Pa & Va & Aa).
    destruct (rank_lt (synthesize_tbr m) (synthesize_tbr v)
                (synthesize_tbr a)) as [H1 H2]; try congruence.
    assert (key_lt (ckey (synthesize_tbr a)) (ckey (synthesize_tbr m)))
      as H3 by (by eapply key_compare_lt_trans).
    unfold composite_key in H1, H2, H3.
    unfold _sort_formats. cbn [map sort_by_key insert_by_key].
    rewrite (key_lt_leb_false _ _ H1). cbn [insert_by_key].
    rewrite (key_lt_leb_false _ _ H3).
    rewrite (key_lt_leb_false _ _ H2).
    done.
Qed.
End sort_formats_spec.

(** ** [_parse_mpd_formats] *)

Lemma bind_Ok {A B} (a : A) (k : A -> result B) : Ok a ≫= k = k a.
Proof. reflexivity. Qed.

Lemma bind_Raise {A B} (e : exn) (k : A -> result B) : Raise e ≫= k = Raise e.
Proof. reflexivity. Qed.

(** One step of a computation in [result]: reduce, but keep the functions
    that stay symbolic. *)
Ltac step_result :=
  repeat (rewrite ?bind_Ok, ?bind_Raise;
          cbn -[Format.format Utils.float_or_none Dash.template_mapping mbind]).

Section dash_spec.
Import ET Dash Samples.

(** C2.  With the timeline [{t:0, d:10, r:2}] and timescale 1 the
    timeline branch makes exactly three fragments: their URLs are the
    media template filled in with the times 0, 10 and 20 (and three
    consecutive numbers), and each has the duration 10.  On a manifest
    with such a Representation, [_parse_mpd_formats] returns these three
    fragments, for a [$Time$] and for a [$Number$] template. *)
Theorem dash_timeline_three_fragments :
  (forall media_template bandwidth number sd tn su mt iu fr,
     timeline_fragments media_template bandwidth
       (MsInfo number 1 sd tn (Some [SEntry 0 10 2]) su mt iu fr) =
     u0 ← Format.format media_template
            (template_mapping (Some 0%Z) bandwidth number);
     u1 ← Format.format media_template
            (template_mapping (Some 10%Z) bandwidth (number + 1)%Z);
     u2 ← Format.format media_template
            (template_mapping (Some 20%Z) bandwidth (number + 1 + 1)%Z);
     Ok [fragment u0 (Some (10 # 1)); fragment u1 (Some (10 # 1));
         fragment u2 (Some (10 # 1))]) /\
  fragments_of (parse_mpd (mpd_timeline "seg-$Time$.m4s") None) =
    Ok [Some (PList
          [fragment "http://cdn.example/v/seg-0.m4s" (Some (10 # 1));
           fragment "http://cdn.example/v/seg-10.m4s" (Some (10 # 1));
           fragment "http://cdn.example/v/seg-20.m4s" (Some (10 # 1))])] /\
  fragments_of (parse_mpd (mpd_timeline "seg-$Number%03d$.m4s") None) =
    Ok [Some (PList
          [fragment "http://cdn.example/v/seg-001.m4s" (Some (10 # 1));
           fragment "http://cdn.example/v/seg-002.m4s" (Some (10 # 1));
           fragment "http://cdn.example/v/seg-003.m4s" (Some (10 # 1))])].
Proof.
  split; [|split; vm_compute; reflexivity].
  intros media_template bandwidth number sd tn su mt iu fr.
  assert (Utils.float_or_none (Some 10%Z) 1 = Ok (Some (10 # 1))) as Hd
    by (vm_compute; reflexivity).
  unfold timeline_fragments, timeline_step, add_segment_url.
  step_result. change (Z.to_nat 2) with 2%nat. cbn [repeat_step].
  rewrite !Hd.
  destruct (Format.format media_template
              (template_mapping (Some 0%Z) bandwidth number)) as [u0|e];
    step_result; [|done].
  change (0 + 10)%Z with 10%Z.
  destruct (Format.format media_template
              (template_mapping (Some 10%Z) bandwidth (number + 1)%Z))
    as [u1|e]; step_result; [|done].
  change (10 + 10)%Z with 20%Z.
  destruct (Format.format media_template
              (template_mapping (Some 20%Z) bandwidth (number + 1 + 1)%Z))
    as [u2|e]; step_result; done.
Qed.

(** C3, with a prefix.  The manifest has the Representation id [v1] under
    two Periods.  Called with the prefix [dash], the parser returns two
    formats with the format id [dash-v1]: the second is not merged into
    the first.  Without a prefix it returns one format. *)
Theorem mpd_id_prefix_duplicates_format_id :
  format_ids_of (parse_mpd mpd_two_periods (Some "dash")) =
    Ok [Some (PStr "dash-v1"); Some (PStr "dash-v1")] /\
  format_ids_of (parse_mpd mpd_two_periods None) = Ok [Some (PStr "v1")].
Proof. split; vm_compute; reflexivity. Qed.

Lemma repeat_step_append (n : nat) (x : pyval)
    (step : list pyval -> result (list pyval)) (acc : list pyval) :
  (forall fragments, step fragments = Ok (fragments ++ [x])%list) ->
  repeat_step n step acc = Ok (acc ++ replicate n x)%list.
Proof.
  intros Hstep. revert acc. induction n as [|n IH]; intros acc; simpl.
  - by rewrite app_nil_r.
  - rewrite Hstep, bind_Ok, IH. by rewrite <- app_assoc.
Qed.

(** C4.  Whatever the timeline entries after the first are, every URL of
    the [SegmentList] is emitted once per repetition of the first entry
    and with the first entry's duration.  For three [SegmentURL]s with
    the timeline [{d:10, r:1}; {d:5}] the result has six fragments, all of
    duration 10, not the three of a positional pairing. *)
Theorem segment_list_repeats_each_url :
  (forall (urls : list string) (first : s_entry) (others : list s_entry)
          (timescale : positive),
     segment_list_fragments urls (first :: others) (Z.pos timescale) =
     Ok (concat
           (map (fun url =>
                   replicate (Z.to_nat (s_r first + 1))
                     (fragment url
                        (Some (truediv (inject_Z (s_d first))
                                 (inject_Z (Z.pos timescale))))))
              urls))) /\
  fragments_of (parse_mpd mpd_segment_list None) =
    Ok [Some (PList
          [fragment "http://cdn.example/v/a.m4s" (Some (10 # 1));
           fragment "http://cdn.example/v/a.m4s" (Some (10 # 1));
           fragment "http://cdn.example/v/b.m4s" (Some (10 # 1));
           fragment "http://cdn.example/v/b.m4s" (Some (10 # 1));
           fragment "http://cdn.example/v/c.m4s" (Some (10 # 1));
           fragment "http://cdn.example/v/c.m4s" (Some (10 # 1))])].
Proof.
  split; [|vm_compute; reflexivity].
  intros urls first others timescale. unfold segment_list_fragments.
  match goal with
  | |- for_each ?step _ _ = Ok (concat (map ?f _)) =>
      assert (forall acc, for_each step urls acc
                          = Ok (acc ++ concat (map f urls))%list) as Hacc
  end.
  { induction urls as [|url urls IH]; intros acc; simpl.
    - by rewrite app_nil_r.
    - rewrite (repeat_step_append _
                 (fragment url
                    (Some (truediv (inject_Z (s_d first))
                             (inject_Z (Z.pos timescale))))))
        by (intros; reflexivity).
      rewrite bind_Ok, IH. by rewrite app_assoc. }
  apply Hacc.
Qed.

(** C9.  A [$$] of the media template is still [$$] in the template given
    to [%], and in every fragment URL. *)
Theorem double_dollar_is_kept :
  prepare_template "s$$-$RepresentationID$-$Number$.m4s" "v1" =
    "s$$-v1-%(Number)d.m4s" /\
  fragments_of
    (parse_mpd (mpd_timeline "s$$-$RepresentationID$-$Number$.m4s") None) =
    Ok [Some (PList
          [fragment "http://cdn.example/v/s$$-v1-1.m4s" (Some (10 # 1));
           fragment "http://cdn.example/v/s$$-v1-2.m4s" (Some (10 # 1));
           fragment "http://cdn.example/v/s$$-v1-3.m4s" (Some (10 # 1))])].
Proof. split; vm_compute; reflexivity. Qed.

(** A loop stops with the exception of the first body that raises. *)
Lemma for_each_raises {A S} (step : S -> A -> result S) (l : list A) (x : A) :
  x ∈ l ->
  (forall s, exists e, step s x = Raise e) ->
  forall s, exists e, for_each step l s = Raise e.
Proof.
  intros Hx Hstep. induction l as [|y l IH]; intros s.
  - by apply elem_of_nil in Hx.
  - simpl. destruct (step s y) as [s'|e] eqn:Hy; simpl; [|by eexists].
    apply elem_of_cons in Hx as [->|Hx]; [|by apply IH].
    destruct (Hstep s) as [e He]. congruence.
Qed.

(** C7, as the code has it: the manifest with one Representation that
    lacks [mimeType] is not parsed at all. *)
Lemma missing_mime_type_aborts_sample :
  parse_mpd mpd_missing_mime_type None = Raise (KeyError "mimeType").
Proof. vm_compute. reflexivity. Qed.

(** C7, amended.  A Representation without [mimeType], on itself and on
    its AdaptationSet, that the walk reaches (no [ContentProtection] on
    either) aborts the parse of a manifest that is not dynamic: an
    exception is raised and no format is returned, those of the other
    Representations included. *)
Theorem missing_mime_type_aborts
    (parse_duration : option string -> option Q)
    (mimetype2ext : string -> option string)
    (parse_codecs : option string -> option (string * string))
    (urljoin : string -> string -> option string)
    (mpd_doc : Element) (mpd_id : option string) (mpd_base_url : string)
    (formats_dict : gmap string (gmap string pyval))
    (mpd_url : option string)
    (namespace : option string)
    (period adaptation_set representation : Element) :
  get "type" mpd_doc <> Some "dynamic" ->
  search_namespace (tag mpd_doc) = Ok namespace ->
  period ∈ findall (_xpath_ns "Period" namespace) mpd_doc ->
  adaptation_set ∈ findall (_xpath_ns "AdaptationSet" namespace) period ->
  is_drm_protected namespace adaptation_set = false ->
  representation ∈
    findall (_xpath_ns "Representation" namespace) adaptation_set ->
  is_drm_protected namespace representation = false ->
  (attrib representation ∪ attrib adaptation_set) !! "mimeType" = None ->
  exists e,
    _parse_mpd_formats parse_duration mimetype2ext parse_codecs urljoin
      mpd_doc mpd_id mpd_base_url formats_dict mpd_url = Raise e.
Proof.
  intros Htype Hns Hp Ha Hda Hr Hdr Hmime.
  unfold _parse_mpd_formats.
  rewrite bool_decide_eq_false_2 by done.
  rewrite Hns; simpl.
  match goal with
  | |- context [for_each ?step ?l ?s] =>
      assert (forall st, exists e, for_each step l st = Raise e) as Hloop
  end.
  { apply (for_each_raises _ _ period Hp).
    intros st. unfold period_step.
    destruct (extract_multisegment_info _ period _) as [pms|e]; simpl;
      [|by eexists].
    apply (for_each_raises _ _ adaptation_set Ha).
    intros st'. unfold adaptation_set_step. rewrite Hda.
    destruct (extract_multisegment_info _ adaptation_set _) as [ams|e];
      simpl; [|by eexists].
    apply (for_each_raises _ _ representation Hr).
    intros [formats base]. unfold representation_step.
    rewrite Hdr, Hmime. by eexists. }
  destruct (Hloop ([], mpd_base_url)) as [e He].
  rewrite He. by eexists.
Qed.

(** The amended C7 on the sample manifest. *)
Lemma missing_mime_type_aborts_witness :
  exists e, parse_mpd mpd_missing_mime_type None = Raise e.
Proof.
  unfold parse_mpd.
  refine (missing_mime_type_aborts _ _ _ _ _ _ _ _ _ None
            (element "Period" [] None
               [ element "AdaptationSet" [] None
                   [ element "Representation"
                       [("id", "v1"); ("mimeType", "video/mp4")] None
                       [ element "BaseURL" [] (Some "v1.mp4") [] ];
                     element "Representation" [("id", "v2")] None
                       [ element "BaseURL" [] (Some "v2.mp4") [] ] ] ])
            (element "AdaptationSet" [] None
               [ element "Representation"
                   [("id", "v1"); ("mimeType", "video/mp4")] None
                   [ element "BaseURL" [] (Some "v1.mp4") [] ];
                 element "Representation" [("id", "v2")] None
                   [ element "BaseURL" [] (Some "v2.mp4") [] ] ])
            (element "Representation" [("id", "v2")] None
               [ element "BaseURL" [] (Some "v2.mp4") [] ])
            _ _ _ _ _ _ _ _).
  - vm_compute. discriminate.
  - reflexivity.
  - vm_compute. apply list_elem_of_here.
  - vm_compute. apply list_elem_of_here.
  - reflexivity.
  - vm_compute. apply list_elem_of_further, list_elem_of_here.
  - reflexivity.
  - reflexivity.
Defined.
End dash_spec.

(** ** [_parse_ism_formats] *)

Section ism_spec.
Import ET Ism Samples.

(** C5.  [Duration] is 20 and the time scale 1.  For a first chunk
    without [d] that is followed by a chunk starting at 10, the duration
    used is 20, which is [Duration] minus the chunk's start, not 10, the
    next chunk's start minus the chunk's start: the fragments of the two
    chunks overlap.  For a last chunk without [d], repeated twice, the
    duration is (20 - 0) / 2 for each of its two fragments, the second
    starting where the first ends. *)
Theorem ism_duration_ignores_next_chunk :
  fragments_of (parse_ism ism_two_chunks) =
    Ok [Some (PList
          [PDict [("url", PStr "http://cdn.example/v.ism/Q(800000)/F(0)");
                  ("duration", PFloat (20 # 1))];
           PDict [("url", PStr "http://cdn.example/v.ism/Q(800000)/F(10)");
                  ("duration", PFloat (10 # 1))]])] /\
  fragments_of (parse_ism ism_last_chunk) =
    Ok [Some (PList
          [PDict [("url", PStr "http://cdn.example/v.ism/Q(800000)/F(0)");
                  ("duration", PFloat (10 # 1))];
           PDict [("url", PStr "http://cdn.example/v.ism/Q(800000)/F(10.0)");
                  ("duration", PFloat (10 # 1))]])].
Proof. split; vm_compute; reflexivity. Qed.
End ism_spec.

(** ** [_extract_m3u8_formats] *)

Section hls_spec.
Import Hls Samples.

Lemma codecs_dict_lookup c k :
  k <> "vcodec" -> k <> "acodec" -> codecs_dict c !! k = None.
Proof.
  intros Hv Ha. destruct c as [[v a]|]; simpl; [|done].
  by rewrite !lookup_insert_ne.
Qed.

Variable _download_webpage_handle :
  string -> bool -> result (option (string * string)).
Variable parse_m3u8_attributes : string -> gmap string string.
Variable urljoin : string -> string -> string.
Variable float_or_none : option string -> Z -> option Q.
Variable parse_codecs : option string -> option (string * string).
Variable search_resolution : string -> option (string * string).
Variable search_usp : string -> option (string * option string).
Variable ext : option string.
Variable entry_protocol : string.
Variable preference : option Z.
Variable m3u8_id : option string.
Variable live : bool.

Local Abbreviation stream_line' :=
  (stream_line urljoin float_or_none parse_codecs search_resolution
     search_usp ext entry_protocol preference m3u8_id live).
Local Abbreviation line_step' :=
  (line_step parse_m3u8_attributes urljoin float_or_none parse_codecs
     search_resolution search_usp ext entry_protocol preference m3u8_id
     live).

(** The format of a stream URI line that follows an [#EXT-X-STREAM-INF]
    tag with a [BANDWIDTH] attribute only. *)
Lemma stream_line_bandwidth m3u8_url line fs audio bandwidth :
  exists f,
    stream_line' m3u8_url line
      (Walk fs audio {["BANDWIDTH" := bandwidth]} ∅) =
      Ok (Walk (fs ++ [f]) audio ∅ ∅) /\
    f !! "tbr" = Some (PInt_or_none (Utils.int_or_none (Some bandwidth) 1000)) /\
    f !! "format_id" =
      Some (PStr (Str.join "-"
        (let format_id :=
           if truthy m3u8_id then [default "" m3u8_id] else [] in
         if live then format_id
         else format_id ++
              [Str.of_Z
                 match Utils.int_or_none (Some bandwidth) 1000 with
                 | Some 0%Z | None => Z.of_nat (length fs)
                 | Some t => t
                 end]))).
Proof.
  unfold stream_line. cbn [last_info last_media formats audio_in_video_stream].
  assert (({["BANDWIDTH" := bandwidth]} : gmap string string) !! "RESOLUTION"
          = None) as -> by done.
  assert (({["BANDWIDTH" := bandwidth]} : gmap string string) !! "AUDIO"
          = None) as -> by done.
  assert (({["BANDWIDTH" := bandwidth]} : gmap string string) !! "CODECS"
          = None) as -> by done.
  assert (({["BANDWIDTH" := bandwidth]} : gmap string string) !! "FRAME-RATE"
          = None) as -> by done.
  assert (get_or {["BANDWIDTH" := bandwidth]} "AVERAGE-BANDWIDTH"
            {["BANDWIDTH" := bandwidth]} "BANDWIDTH" = Some bandwidth) as ->
    by done.
  assert (get_or {["BANDWIDTH" := bandwidth]} "NAME" ∅ "NAME" = None) as ->
    by done.
  cbn [truthy mbind result_bind mret negb bool_decide].
  rewrite bool_decide_eq_false_2 by done.
  eexists. split; [reflexivity|].
  split.
  - rewrite lookup_union_r by (by apply codecs_dict_lookup).
    destruct (search_usp _) as [[abr vbr]|].
    + rewrite !lookup_insert_ne by done. reflexivity.
    + reflexivity.
  - rewrite lookup_union_r by (by apply codecs_dict_lookup).
    destruct (search_usp _) as [[abr vbr]|].
    + rewrite !lookup_insert_ne by done.
      destruct live; reflexivity.
    + destruct live; reflexivity.
Qed.

Lemma master_playlist_lines :
  Str.contains "#EXT-X-TARGETDURATION" master_playlist = false /\
  splitlines master_playlist =
    [ "#EXTM3U"; "#EXT-X-STREAM-INF:BANDWIDTH=500000"; "low.m3u8";
      "#EXT-X-STREAM-INF:BANDWIDTH=1500000"; "high.m3u8" ].
Proof. split; vm_compute; reflexivity. Qed.

Lemma join_truthy_prefix (x : option string) (l : list string) :
  Forall (fun s => s <> "") l ->
  Str.join "-" ((if truthy x then [default "" x] else []) ++ l) =
  join_truthy (x :: map Some l).
Proof.
  intros Hl. unfold join_truthy. f_equal.
  assert (forall (y : option string) (l' : list (option string)),
            omap (fun y : option string => if truthy y then y else None)
              (y :: l') =
            match (if truthy y then y else None) with
            | Some z =>
                z :: omap (fun y : option string =>
                             if truthy y then y else None) l'
            | None =>
                omap (fun y : option string => if truthy y then y else None) l'
            end) as Hcons by reflexivity.
  assert (omap (fun y : option string => if truthy y then y else None)
            (map Some l) = l) as Hmap.
  { induction Hl as [|s l Hs Hl IH]; [done|].
    cbn [map]. rewrite Hcons, IH. by destruct s. }
  rewrite Hcons, Hmap. by destruct x as [[|c s]|].
Qed.

End hls_spec.

(** ** [_parse_f4m_formats] *)

Section f4m_spec.
Import ET F4m Samples.


End f4m_spec.

(** ** Instances *)

Section instances.
Import Samples.


(** C10 on a format and its video-only and audio-only variants. *)
Lemma audio_only_and_video_only_rank_below_muxed_witness :
  let video_only := Selector.set_acodec (Some "none") muxed_format in
  let audio_only := Selector.set_vcodec (Some "none") muxed_format in
  let key := Selector.composite_key (fun _ => "mp4") (fun _ => "https") false in
  Selector.key_lt (key audio_only) (key video_only) /\
  Selector.key_lt (key video_only) (key muxed_format) /\
  Selector._sort_formats (fun _ => "mp4") (fun _ => "https") false
    [muxed_format; video_only; audio_only] =
    Ok (map (fun f => Selector.determine_missing_ext (fun _ => "mp4")
                        (Selector.synthesize_tbr f))
          [audio_only; video_only; muxed_format]).
Proof.
  intros video_only audio_only key.
  apply (proj2 (audio_only_and_video_only_rank_below_muxed
                  (fun _ => "mp4") (fun _ => "https") false)
           muxed_format video_only audio_only);
    reflexivity.
Defined.
End instances.

Local Open Scope list_scope.

(** ** Loops and [mapM] in [result] *)

Lemma for_each_invariant {A S} (I : list A -> S -> Prop)
    (step : S -> A -> result S) (l : list A) (s0 s : S) :
  I [] s0 ->
  (forall pre x post st st',
     l = pre ++ x :: post -> I pre st -> step st x = Ok st' ->
     I (pre ++ [x]) st') ->
  for_each step l s0 = Ok s -> I l s.
Proof.
  intros H0 Hstep.
  assert (forall pre post st,
            l = pre ++ post -> I pre st -> for_each step post st = Ok s ->
            I l s) as Hgen.
  { intros pre post. revert pre.
    induction post as [|x post IH]; intros pre st Hl Hpre Hrun;
      simpl in Hrun.
    - rewrite app_nil_r in Hl. congruence.
    - destruct (step st x) as [st'|e] eqn:Hx; [|done].
      rewrite bind_Ok in Hrun.
      apply (IH (pre ++ [x]) st'); [|by eapply Hstep|done].
      by rewrite <- app_assoc. }
  intros Hrun. by apply (Hgen [] l s0).
Qed.

Lemma mapM_Ok_cons {A B} (f : A -> result B) (x : A) (l : list A) (y : B)
    (ys : list B) :
  f x = Ok y -> mapM f l = Ok ys -> mapM f (x :: l) = Ok (y :: ys).
Proof. intros Hx Hl. simpl. by rewrite Hx, bind_Ok, Hl. Qed.

Lemma mapM_Ok_inv {A B} (f : A -> result B) (x : A) (l : list A)
    (zs : list B) :
  mapM f (x :: l) = Ok zs ->
  exists y ys, f x = Ok y /\ mapM f l = Ok ys /\ zs = y :: ys.
Proof.
  simpl. destruct (f x) as [y|e]; [|done]. rewrite bind_Ok.
  destruct (mapM f l) as [ys|e]; [|done]. rewrite bind_Ok.
  intros [= <-]. eauto.
Qed.

Lemma mapM_Ok_snoc {A B} (f : A -> result B) (l : list A) (x : A)
    (ys : list B) (y : B) :
  mapM f l = Ok ys -> f x = Ok y -> mapM f (l ++ [x]) = Ok (ys ++ [y]).
Proof.
  revert ys. induction l as [|z l IH]; intros ys Hl Hx.
  - simpl in Hl. injection Hl as <-. simpl. by rewrite Hx.
  - apply mapM_Ok_inv in Hl as (y' & ys' & Hz & Hl & ->).
    simpl. rewrite Hz, bind_Ok, (IH ys' Hl Hx). done.
Qed.

Lemma mapM_Ok_lookup {A B} (f : A -> result B) (l : list A) (ys : list B)
    (i : nat) (x : A) :
  mapM f l = Ok ys -> l !! i = Some x ->
  exists y, f x = Ok y /\ ys !! i = Some y.
Proof.
  revert ys i. induction l as [|z l IH]; intros ys i Hl Hi; [done|].
  apply mapM_Ok_inv in Hl as (y' & ys' & Hz & Hl & ->).
  destruct i as [|i]; simpl in Hi.
  - injection Hi as <-. eauto.
  - destruct (IH ys' i Hl Hi) as (y & Hy & Hlookup). eauto.
Qed.

Lemma mapM_Ok_elem_of {A B} (f : A -> result B) (l : list A) (ys : list B)
    (y : B) :
  mapM f l = Ok ys -> y ∈ ys -> exists x, x ∈ l /\ f x = Ok y.
Proof.
  revert ys. induction l as [|z l IH]; intros ys Hl Hy.
  - simpl in Hl. injection Hl as <-. by apply elem_of_nil in Hy.
  - apply mapM_Ok_inv in Hl as (y' & ys' & Hz & Hl & ->).
    apply elem_of_cons in Hy as [->|Hy].
    + exists z. split; [apply list_elem_of_here|done].
    + destruct (IH ys' Hl Hy) as (x & Hx & Hfx).
      exists x. split; [by apply list_elem_of_further|done].
Qed.

(** ** [_remove_duplicate_formats] *)

Section remove_duplicates.
Import Formats.

Local Abbreviation dedup_step :=
  (fun (st : gset (option string) * list (gmap string pyval))
       (f : gmap string pyval) =>
     let '(format_urls, unique_formats) := st in
     item_url f ≫= fun url =>
     if decide (url ∈ format_urls) then Ok (format_urls, unique_formats)
     else Ok ({[url]} ∪ format_urls, (unique_formats ++ [f])%list)).

Lemma dedup_invariant_step pre f st st' :
  dedup_invariant pre st -> dedup_step st f = Ok st' ->
  dedup_invariant (pre ++ [f]) st'.
Proof.
  intros (urls & uurls & Hpre & Hacc & Hnd & Hseen & Hsame & Hsub & Hfirst).
  destruct st as [seen acc]. simpl in *.
  destruct (item_url f) as [u|e] eqn:Hu; [|done]. rewrite bind_Ok.
  destruct (decide (u ∈ seen)) as [Hin|Hnin]; intros [= <-]; cbn [fst snd].
  - exists (urls ++ [u]), uurls. cbn [fst snd].
    split; [by apply mapM_Ok_snoc|].
    split; [done|]. split; [done|]. split; [done|].
    split.
    { intros v. rewrite elem_of_app, list_elem_of_singleton, <- Hsame.
      split; [by left|]. intros [?| ->]; [done|]. by apply Hseen. }
    split; [by apply sublist_inserts_r|].
    intros i g v Hi Hv Hearlier.
    destruct (decide (i < length pre)) as [Hlt|Hge].
    + rewrite lookup_app_l in Hi by done.
      apply (Hfirst i g v Hi Hv).
      intros j h Hj Hh. apply (Hearlier j h Hj).
      rewrite lookup_app_l; [done|lia].
    + exfalso.
      rewrite lookup_app_r in Hi by lia.
      apply list_lookup_singleton_Some in Hi as [_ <-].
      assert (v = u) as -> by congruence.
      apply Hseen, Hsame in Hin.
      apply list_elem_of_lookup in Hin as [j Hj].
      assert (j < length pre) as Hjlt.
      { apply lookup_lt_Some in Hj.
        assert (length urls = length pre) as <-; [|done].
        clear -Hpre. revert urls Hpre.
        induction pre as [|x pre IH]; intros urls Hpre.
        - simpl in Hpre. by injection Hpre as <-.
        - apply mapM_Ok_inv in Hpre as (y & ys & _ & Hpre & ->).
          simpl. f_equal. by apply IH. }
      destruct (lookup_lt_is_Some_2 pre j Hjlt) as [h Hh].
      destruct (mapM_Ok_lookup _ _ _ _ _ Hpre Hh) as (w & Hw & Hjw).
      assert (w = u) as -> by congruence.
      apply (Hearlier j h); [lia| |done].
      by rewrite lookup_app_l.
  - exists (urls ++ [u]), (uurls ++ [u]). cbn [fst snd].
    split; [by apply mapM_Ok_snoc|].
    split; [by apply mapM_Ok_snoc|].
    split.
    { apply NoDup_app. split; [done|]. split; [|apply NoDup_singleton].
      intros v Hv ->%list_elem_of_singleton. apply Hnin. by apply Hseen. }
    split.
    { intros v. rewrite elem_of_app, list_elem_of_singleton, <- Hseen. split.
      - intros [Hv%elem_of_singleton|Hv]%elem_of_union; [by right|by left].
      - intros [Hv| ->]; apply elem_of_union; [by right|].
        left. by apply elem_of_singleton. }
    split.
    { intros v. rewrite !elem_of_app, Hsame. tauto. }
    split; [by apply sublist_app|].
    intros i g v Hi Hv Hearlier.
    destruct (decide (i < length pre)) as [Hlt|Hge].
    + rewrite lookup_app_l in Hi by done.
      apply elem_of_app. left. apply (Hfirst i g v Hi Hv).
      intros j h Hj Hh. apply (Hearlier j h Hj).
      rewrite lookup_app_l; [done|lia].
    + rewrite lookup_app_r in Hi by lia.
      apply list_lookup_singleton_Some in Hi as [_ <-].
      apply elem_of_app. right. apply list_elem_of_here.
Qed.

Lemma remove_duplicates_invariant
    (formats unique : list (gmap string pyval)) :
  _remove_duplicate_formats formats = Ok unique ->
  exists urls unique_urls,
    mapM item_url formats = Ok urls /\
    mapM item_url unique = Ok unique_urls /\
    NoDup unique_urls /\
    (forall u, u ∈ unique_urls <-> u ∈ urls) /\
    sublist unique formats /\
    (forall i f u,
       formats !! i = Some f -> item_url f = Ok u ->
       (forall j g, j < i -> formats !! j = Some g -> item_url g <> Ok u) ->
       f ∈ unique).
Proof.
  unfold _remove_duplicate_formats. intros Hrun.
  destruct (for_each _ formats (∅, [])) as [[seen acc]|e] eqn:Hloop; [|done].
  rewrite bind_Ok in Hrun. injection Hrun as <-.
  apply (for_each_invariant dedup_invariant) in Hloop.
  - destruct Hloop as (urls & uurls & H1 & H2 & H3 & _ & H5 & H6 & H7).
    exists urls, uurls. done.
  - exists [], []. cbn [fst snd].
    split; [done|]. split; [done|]. split; [apply NoDup_nil_2|].
    split.
    { intros u. split; intros Hu.
      - by apply elem_of_empty in Hu.
      - by apply elem_of_nil in Hu. }
    split; [done|]. split; [done|].
    intros i f u Hi. done.
  - intros pre x post st st' _ Hinv Hstep.
    by apply (dedup_invariant_step pre x st).
Qed.

(** A list whose URLs are pairwise different is left as it is. *)
Lemma remove_duplicates_distinct (formats : list (gmap string pyval))
    (urls : list (option string)) :
  mapM item_url formats = Ok urls -> NoDup urls ->
  _remove_duplicate_formats formats = Ok formats.
Proof.
  intros Hurls Hnd. unfold _remove_duplicate_formats.
  assert (forall seen acc,
            (forall u, u ∈ urls -> u ∉ seen) ->
            exists seen', for_each dedup_step formats (seen, acc)
                          = Ok (seen', acc ++ formats)) as Hgen.
  { revert urls Hurls Hnd.
    induction formats as [|f formats IH]; intros urls Hurls Hnd seen acc Hnew.
    - exists seen. simpl. by rewrite app_nil_r.
    - apply mapM_Ok_inv in Hurls as (u & us & Hu & Hus & ->).
      apply NoDup_cons in Hnd as [Hu_new Hnd].
      simpl. rewrite Hu, bind_Ok.
      destruct (decide (u ∈ seen)) as [Hin|_].
      { exfalso. apply (Hnew u); [apply list_elem_of_here|done]. }
      rewrite bind_Ok.
      destruct (IH us Hus Hnd ({[u]} ∪ seen) (acc ++ [f])) as [seen' Hrun].
      { intros v Hv [->%elem_of_singleton|Hseen]%elem_of_union; [done|].
        apply (Hnew v); [by apply list_elem_of_further|done]. }
      exists seen'. rewrite Hrun. by rewrite <- app_assoc. }
  destruct (Hgen ∅ []) as [seen' Hrun].
  { intros u _ Hu. by apply elem_of_empty in Hu. }
  rewrite Hrun. done.
Qed.

(** X1.  [_remove_duplicate_formats], when it returns: the formats left
    are a sublist of the input, in the input's order; no two of them have
    the same URL; every URL of the input is the URL of one of them; and
    the format kept for a URL is the first one of the input with that
    URL. *)
Theorem remove_duplicates_keeps_first_of_each_url
    (formats unique : list (gmap string pyval)) :
  _remove_duplicate_formats formats = Ok unique ->
  exists urls unique_urls,
    mapM item_url formats = Ok urls /\
    mapM item_url unique = Ok unique_urls /\
    NoDup unique_urls /\
    (forall u, u ∈ unique_urls <-> u ∈ urls) /\
    sublist unique formats /\
    (forall i f u,
       formats !! i = Some f -> item_url f = Ok u ->
       (forall j g, j < i -> formats !! j = Some g -> item_url g <> Ok u) ->
       f ∈ unique).
Proof. apply remove_duplicates_invariant. Qed.

(** X2.  Removing duplicates twice is the same as once: the list that
    [_remove_duplicate_formats] leaves is left unchanged by a second
    call. *)
Theorem remove_duplicates_idempotent
    (formats unique : list (gmap string pyval)) :
  _remove_duplicate_formats formats = Ok unique ->
  _remove_duplicate_formats unique = Ok unique.
Proof.
  intros Hrun.
  destruct (remove_duplicates_invariant formats unique Hrun)
    as (urls & uurls & _ & Huniq & Hnd & _).
  by apply (remove_duplicates_distinct unique uurls).
Qed.

(** X3.  A format without a [url] key anywhere in the list makes
    [_remove_duplicate_formats] raise: no list is returned. *)
Theorem remove_duplicates_missing_url
    (formats : list (gmap string pyval)) (f : gmap string pyval) :
  f ∈ formats -> f !! "url" = None ->
  exists e, _remove_duplicate_formats formats = Raise e.
Proof.
  intros Hf Hurl. unfold _remove_duplicate_formats.
  destruct (for_each_raises dedup_step formats f Hf) with (s := (∅ : gset (option string), @nil (gmap string pyval)))
    as [e He].
  - intros [seen acc]. unfold item_url. rewrite Hurl. by eexists.
  - rewrite He. by eexists.
Qed.
End remove_duplicates.

(** ** [_proto_relative_url], [_is_valid_url], [_check_formats] *)

Section check_formats.
Import Formats.

Lemma startswith_slashes (url : string) :
  Str.startswith url "//" = true -> exists rest, url = "//" +:+ rest.
Proof.
  unfold Str.startswith.
  destruct url as [|c1 [|c2 rest]]; cbn [String.prefix]; try done.
  - by destruct (ascii_dec "/" c1).
  - destruct (ascii_dec "/" c1) as [<-|]; [|done].
    destruct (ascii_dec "/" c2) as [<-|]; [|done].
    intros _. by exists rest.
Qed.

(** X4.  With the scheme left to [http_scheme], [_proto_relative_url]
    returns a URL that is not protocol-relative, leaves a URL that is not
    protocol-relative as it is, and applied to its own result changes
    nothing. *)
Theorem proto_relative_url_idempotent (prefer_insecure : bool) (url : string) :
  exists absolute,
    _proto_relative_url prefer_insecure (Some url) None = Some absolute /\
    Str.startswith absolute "//" = false /\
    (Str.startswith url "//" = false -> absolute = url) /\
    _proto_relative_url prefer_insecure (Some absolute) None = Some absolute.
Proof.
  unfold _proto_relative_url.
  destruct (Str.startswith url "//") eqn:Hrel.
  - exists (http_scheme prefer_insecure +:+ url).
    assert (Str.startswith (http_scheme prefer_insecure +:+ url) "//" = false)
      as Habs by (by destruct prefer_insecure).
    split; [reflexivity|]. split; [exact Habs|]. split; [done|].
    by rewrite Habs.
  - exists url. by rewrite Hrel.
Qed.

(** X5.  [_is_valid_url] sends no request for a URL that is neither
    protocol-relative nor http(s): it is valid whatever the network
    answers.  A protocol-relative URL is probed over plain http, also when
    https is the preferred scheme; it is valid when the request succeeds,
    invalid on a [URLError], and any other failure is raised again. *)
Theorem is_valid_url_probes_only_http (prefer_insecure : bool)
    (_request_webpage : string -> request_outcome) (url : string) :
  (Str.startswith url "//" = false ->
   Str.startswith url "http://" = false ->
   Str.startswith url "https://" = false ->
   _is_valid_url prefer_insecure _request_webpage url = Ok true) /\
  (Str.startswith url "//" = true ->
   _is_valid_url prefer_insecure _request_webpage url =
   match _request_webpage ("http:" +:+ url) with
   | Opened => Ok true
   | FailedURLError => Ok false
   | Failed e => Raise e
   end).
Proof.
  unfold _is_valid_url, _proto_relative_url. split.
  - intros -> -> ->. done.
  - intros Hrel. rewrite Hrel. cbn [default].
    apply startswith_slashes in Hrel as [rest ->].
    by destruct rest.
Qed.

Lemma filter_valid_spec (prefer_insecure : bool)
    (_request_webpage : string -> request_outcome)
    (formats kept : list (gmap string pyval)) :
  filter_valid prefer_insecure _request_webpage formats = Ok kept ->
  sublist kept formats /\
  (forall f, f ∈ formats ->
     exists url, f !! "url" = Some (PStr url) /\
       exists valid : bool,
         _is_valid_url prefer_insecure _request_webpage url = Ok valid /\
         (f ∈ kept <-> valid = true)).
Proof.
  revert kept. induction formats as [|f formats IH]; intros kept; simpl.
  - intros [= <-]. split; [done|]. intros f Hf. by apply elem_of_nil in Hf.
  - destruct (f !! "url") as [[| | |url| |]|] eqn:Hurl; try done.
    destruct (_is_valid_url _ _ url) as [valid|e] eqn:Hvalid; [|done].
    rewrite bind_Ok.
    destruct (filter_valid _ _ formats) as [rest|e] eqn:Hrest; [|done].
    rewrite bind_Ok. intros [= <-].
    destruct (IH rest eq_refl) as [Hsub Hall].
    split.
    { destruct valid; [by apply sublist_skip|by apply sublist_cons]. }
    intros g Hg.
    apply elem_of_cons in Hg as [->|Hg].
    + exists url. split; [done|]. exists valid. split; [done|].
      destruct valid.
      * split; [done|]. intros _. apply list_elem_of_here.
      * split; [|done]. intros Hin.
        destruct (Hall f) as (url' & Hurl' & valid' & Hvalid' & Hiff).
        { by apply (elem_of_sublist rest formats). }
        assert (url' = url) as -> by congruence.
        assert (valid' = false) as -> by congruence.
        by apply Hiff.
    + destruct (Hall g Hg) as (url' & Hurl' & valid' & Hvalid' & Hiff).
      exists url'. split; [done|]. exists valid'. split; [done|].
      rewrite <- Hiff. destruct valid; [|done].
      rewrite elem_of_cons. split; [|by right].
      intros [->|?]; [|done].
      apply Hiff. congruence.
Qed.

(** X6.  [_check_formats], when it returns: the formats left are a
    sublist of the input, every format of the input has a string URL, and
    a format of the input is among those left exactly when
    [_is_valid_url] accepts its URL. *)
Theorem check_formats_keeps_valid (prefer_insecure : bool)
    (_request_webpage : string -> request_outcome)
    (formats kept : list (gmap string pyval)) :
  _check_formats prefer_insecure _request_webpage formats = Ok kept ->
  sublist kept formats /\
  (forall f, f ∈ formats ->
     exists url, f !! "url" = Some (PStr url) /\
       exists valid : bool,
         _is_valid_url prefer_insecure _request_webpage url = Ok valid /\
         (f ∈ kept <-> valid = true)).
Proof.
  destruct formats as [|f formats].
  - intros [= <-]. split; [done|]. intros f Hf. by apply elem_of_nil in Hf.
  - apply filter_valid_spec.
Qed.
End check_formats.

(** ** [_merge_subtitle_items], [_merge_subtitles] *)

Section merge_subtitles.
Import Formats Subtitles.

Local Abbreviation extra_step list1_urls :=
  (fun (extra : list (gmap string pyval)) (item : gmap string pyval) =>
     item_url item ≫= fun url =>
     Ok (if decide (url ∈ list1_urls) then extra else extra ++ [item])).

(** The items of the second list that are appended. *)
Lemma merge_extra (list1_urls : list (option string))
    (l2 : list (gmap string pyval)) (k2 : list (option string)) :
  mapM item_url l2 = Ok k2 ->
  exists extra extra_urls,
    for_each (extra_step list1_urls) l2 [] = Ok extra /\
    mapM item_url extra = Ok extra_urls /\
    sublist extra l2 /\
    sublist extra_urls k2 /\
    (forall u, u ∈ extra_urls <-> u ∈ k2 /\ u ∉ list1_urls).
Proof.
  intros Hk2.
  assert (forall acc acc_urls,
            mapM item_url acc = Ok acc_urls ->
            exists extra extra_urls,
              for_each (extra_step list1_urls) l2 acc = Ok (acc ++ extra) /\
              mapM item_url extra = Ok extra_urls /\
              sublist extra l2 /\
              sublist extra_urls k2 /\
              (forall u, u ∈ extra_urls <-> u ∈ k2 /\ u ∉ list1_urls))
    as Hgen.
  { revert k2 Hk2. induction l2 as [|item l2 IH]; intros k2 Hk2 acc aks Hacc.
    - simpl in Hk2. injection Hk2 as <-. exists [], []. simpl.
      rewrite app_nil_r.
      split; [done|]. split; [done|]. split; [done|]. split; [done|].
      intros u. split.
      + intros Hu. by apply elem_of_nil in Hu.
      + intros [Hu _]. by apply elem_of_nil in Hu.
    - apply mapM_Ok_inv in Hk2 as (u & us & Hu & Hus & ->).
      simpl. rewrite Hu, bind_Ok.
      destruct (decide (u ∈ list1_urls)) as [Hin|Hnin].
      + rewrite bind_Ok.
        destruct (IH us Hus acc aks Hacc)
          as (extra & eks & Hrun & Heks & Hsub & Hsubk & Hiff).
        exists extra, eks. split; [done|]. split; [done|].
        split; [by apply sublist_cons|]. split; [by apply sublist_cons|].
        intros v. rewrite Hiff, elem_of_cons. split; [tauto|].
        intros [[->|?] ?]; done.
      + rewrite bind_Ok.
        destruct (IH us Hus (acc ++ [item]) (aks ++ [u]))
          as (extra & eks & Hrun & Heks & Hsub & Hsubk & Hiff).
        { by apply mapM_Ok_snoc. }
        exists (item :: extra), (u :: eks).
        split; [by rewrite Hrun, <- app_assoc|].
        split; [by apply mapM_Ok_cons|].
        split; [by apply sublist_skip|]. split; [by apply sublist_skip|].
        intros v. rewrite !elem_of_cons, Hiff. split.
        * intros [->|[? ?]]; [split; [by left|done]|split; [by right|done]].
        * intros [[->|?] ?]; [by left|by right]. }
  destruct (Hgen [] []) as (extra & eks & Hrun & Hrest); [done|].
  exists extra, eks. by rewrite Hrun.
Qed.

Lemma mapM_Ok_app {A B} (f : A -> result B) (l1 l2 : list A)
    (k1 k2 : list B) :
  mapM f l1 = Ok k1 -> mapM f l2 = Ok k2 ->
  mapM f (l1 ++ l2) = Ok (k1 ++ k2).
Proof.
  revert k1. induction l1 as [|x l1 IH]; intros k1 H1 H2.
  - simpl in H1. by injection H1 as <-.
  - apply mapM_Ok_inv in H1 as (y & ys & Hx & H1 & ->).
    simpl. by rewrite Hx, bind_Ok, (IH ys H1 H2).
Qed.

Lemma merge_items_urls (l1 l2 : list (gmap string pyval))
    (k1 k2 : list (option string)) :
  mapM item_url l1 = Ok k1 -> mapM item_url l2 = Ok k2 ->
  exists extra extra_urls,
    _merge_subtitle_items l1 l2 = Ok (l1 ++ extra) /\
    mapM item_url (l1 ++ extra) = Ok (k1 ++ extra_urls) /\
    sublist extra l2 /\
    sublist extra_urls k2 /\
    (forall u, u ∈ extra_urls <-> u ∈ k2 /\ u ∉ k1).
Proof.
  intros H1 H2. unfold _merge_subtitle_items. rewrite H1, bind_Ok.
  destruct (merge_extra k1 l2 k2 H2)
    as (extra & eks & Hrun & Heks & Hsub & Hsubk & Hiff).
  exists extra, eks. rewrite Hrun, bind_Ok.
  split; [done|]. split; [by apply mapM_Ok_app|]. done.
Qed.

(** X7.  When every item has a URL, [_merge_subtitle_items] returns the
    first list followed by items of the second, in their order; the URLs
    of the result are those of the two lists; and when neither list
    holds a URL twice, the result holds none twice. *)
Theorem merge_subtitle_items_urls (l1 l2 : list (gmap string pyval))
    (k1 k2 : list (option string)) :
  mapM item_url l1 = Ok k1 -> mapM item_url l2 = Ok k2 ->
  exists extra merged_urls,
    _merge_subtitle_items l1 l2 = Ok (l1 ++ extra) /\
    sublist extra l2 /\
    mapM item_url (l1 ++ extra) = Ok merged_urls /\
    (forall u, u ∈ merged_urls <-> u ∈ k1 \/ u ∈ k2) /\
    (NoDup k1 -> NoDup k2 -> NoDup merged_urls).
Proof.
  intros H1 H2.
  destruct (merge_items_urls l1 l2 k1 k2 H1 H2)
    as (extra & eks & Hrun & Hurls & Hsub & Hsubk & Hiff).
  exists extra, (k1 ++ eks).
  split; [done|]. split; [done|]. split; [done|].
  split.
  - intros u. rewrite elem_of_app, Hiff.
    destruct (decide (u ∈ k1)); tauto.
  - intros Hnd1 Hnd2. apply NoDup_app. split; [done|].
    split; [|by apply (sublist_NoDup eks k2)].
    intros u Hu1 Hu. by apply Hiff in Hu as [_ ?].
Qed.

(** X8.  Merging a list of items with itself, or with the empty list,
    returns the list. *)
Theorem merge_subtitle_items_self (l : list (gmap string pyval))
    (urls : list (option string)) :
  mapM item_url l = Ok urls ->
  _merge_subtitle_items l l = Ok l /\ _merge_subtitle_items l [] = Ok l.
Proof.
  intros Hurls. split.
  - destruct (merge_items_urls l l urls urls Hurls Hurls)
      as (extra & eks & Hrun & Hks & Hsub & Hsubk & Hiff).
    rewrite Hrun. f_equal.
    assert (eks = []) as ->.
    { destruct eks as [|u eks]; [done|].
      destruct (proj1 (Hiff u)) as [? ?]; [apply list_elem_of_here|done]. }
    assert (length extra = 0) as Hlen.
    { assert (length (l ++ extra) = length (urls ++ [])) as Hl.
      { clear -Hks. revert Hks. generalize (urls ++ []), (l ++ extra).
        intros ks items. revert ks.
        induction items as [|x items IH]; intros ks Hks.
        - simpl in Hks. by injection Hks as <-.
        - apply mapM_Ok_inv in Hks as (y & ys & _ & Hks & ->).
          simpl. f_equal. by apply IH. }
      assert (length l = length urls) as Hl'.
      { clear -Hurls. revert urls Hurls.
        induction l as [|x l IH]; intros ks Hks.
        - simpl in Hks. by injection Hks as <-.
        - apply mapM_Ok_inv in Hks as (y & ys & _ & Hks & ->).
          simpl. f_equal. by apply IH. }
      rewrite !length_app in Hl. simpl in Hl. lia. }
    destruct extra; [by rewrite app_nil_r|done].
  - unfold _merge_subtitle_items. rewrite Hurls, bind_Ok. simpl.
    by rewrite app_nil_r.
Qed.

(** X9.  An item without a [url] key, such as one that holds the
    subtitles as [data], makes [_merge_subtitle_items] raise, in whichever
    list it is. *)
Theorem merge_subtitle_items_missing_url
    (l1 l2 : list (gmap string pyval)) (item : gmap string pyval) :
  item ∈ l1 \/ item ∈ l2 -> item !! "url" = None ->
  exists e, _merge_subtitle_items l1 l2 = Raise e.
Proof.
  intros Hin Hurl. unfold _merge_subtitle_items.
  destruct (mapM item_url l1) as [k1|e] eqn:H1; [|by eexists].
  rewrite bind_Ok.
  destruct Hin as [Hin|Hin].
  - exfalso. apply list_elem_of_lookup in Hin as [i Hi].
    destruct (mapM_Ok_lookup _ _ _ _ _ H1 Hi) as (u & Hu & _).
    unfold item_url in Hu. by rewrite Hurl in Hu.
  - destruct (for_each_raises (extra_step k1) l2 item Hin)
      with (s := @nil (gmap string pyval)) as [e He].
    + intros extra. unfold item_url. rewrite Hurl. by eexists.
    + rewrite He. by eexists.
Qed.

(** X10.  [_merge_subtitles], when it returns: a language that the second
    dictionary lacks keeps the items of the first; a language of the
    second dictionary holds the merge of the items of the two
    dictionaries for it. *)
Theorem merge_subtitles_by_language
    (d1 d2 ret : gmap string (list (gmap string pyval))) :
  _merge_subtitles d1 d2 = Ok ret ->
  (forall lang, d2 !! lang = None -> ret !! lang = d1 !! lang) /\
  (forall lang items,
     d2 !! lang = Some items ->
     exists merged,
       _merge_subtitle_items (default [] (d1 !! lang)) items = Ok merged /\
       ret !! lang = Some merged).
Proof.
  unfold _merge_subtitles. intros Hrun.
  pose proof (NoDup_fst_map_to_list d2) as Hnd.
  apply (for_each_invariant
           (fun pre (ret : gmap string (list (gmap string pyval))) =>
              (forall lang, lang ∉ pre.*1 -> ret !! lang = d1 !! lang) /\
              (forall lang items,
                 (lang, items) ∈ pre ->
                 exists merged,
                   _merge_subtitle_items (default [] (d1 !! lang)) items
                   = Ok merged /\
                   ret !! lang = Some merged))) in Hrun.
  - destruct Hrun as [Hother Hlang]. split.
    + intros lang Hnone. apply Hother.
      intros ([lang' items] & -> & Hin%elem_of_map_to_list)%list_elem_of_fmap.
      simpl in Hnone. congruence.
    + intros lang items Hsome. by apply Hlang, elem_of_map_to_list.
  - split; [done|]. intros lang items Hin. by apply elem_of_nil in Hin.
  - intros pre [lang0 items0] post ret0 ret1 Hl [Hother Hlang] Hstep.
    destruct (_merge_subtitle_items _ items0) as [merged0|e] eqn:Hm; [|done].
    rewrite bind_Ok in Hstep. injection Hstep as <-.
    rewrite Hl, fmap_app, fmap_cons in Hnd.
    apply NoDup_app in Hnd as (_ & Hdisj & _). simpl in Hdisj.
    split.
    + intros lang Hnot. rewrite fmap_app, elem_of_app in Hnot.
      rewrite lookup_insert_ne.
      * apply Hother. tauto.
      * intros <-. apply Hnot. right. apply list_elem_of_here.
    + intros lang items [Hin|Hin%list_elem_of_singleton]%elem_of_app.
      * destruct (Hlang lang items Hin) as (merged & Hmerged & Hret).
        exists merged. split; [done|].
        rewrite lookup_insert_ne; [done|].
        intros <-. apply (Hdisj lang0); [|apply list_elem_of_here].
        apply list_elem_of_fmap. by exists (lang0, items).
      * injection Hin as -> ->. exists merged0. split; [done|].
        apply lookup_insert_eq.
Qed.
End merge_subtitles.

(** ** [SearchInfoExtractor] *)

Section string_facts.

Lemma append_cons (c : ascii) (s t : string) :
  String c s +:+ t = String c (s +:+ t).
Proof. reflexivity. Qed.

Lemma append_nil_l (t : string) : "" +:+ t = t.
Proof. reflexivity. Qed.

Lemma append_assoc (s t u : string) : (s +:+ t) +:+ u = s +:+ (t +:+ u).
Proof.
  induction s as [|c s IH]; [done|]. rewrite !append_cons. by rewrite IH.
Qed.

Lemma prefix_append (p s : string) : String.prefix p (p +:+ s) = true.
Proof.
  induction p as [|c p IH]; [by destruct s|].
  rewrite append_cons. cbn [String.prefix].
  by destruct (ascii_dec c c).
Qed.

Lemma drop_append (p s : string) : Str.drop (String.length p) (p +:+ s) = s.
Proof.
  induction p as [|c p IH]; [by destruct s|].
  rewrite append_cons. exact IH.
Qed.

Lemma prefix_drop (p s : string) :
  String.prefix p s = true -> s = p +:+ Str.drop (String.length p) s.
Proof.
  revert s. induction p as [|c p IH]; intros s Hp; [by destruct s|].
  destruct s as [|c' s]; [done|]. cbn [String.prefix] in Hp.
  destruct (ascii_dec c c') as [<-|]; [|done].
  rewrite append_cons. cbn [String.length Str.drop]. f_equal. by apply IH.
Qed.

Lemma is_digit_bounds (c : ascii) :
  Str.is_digit c = true <-> (48 <= nat_of_ascii c <= 57)%nat.
Proof.
  unfold Str.is_digit. rewrite andb_true_iff, !Nat.leb_le. done.
Qed.

Lemma is_digit_not_space (c : ascii) :
  Str.is_digit c = true -> Str.is_space c = false.
Proof.
  intros Hc%is_digit_bounds. unfold Str.is_space.
  apply orb_false_iff. split; apply andb_false_iff.
  - right. apply Nat.leb_gt. lia.
  - right. apply Nat.leb_gt. lia.
Qed.

Lemma digit_value_bounds (c : ascii) :
  Str.is_digit c = true -> (0 <= Str.digit_value c <= 9)%Z.
Proof. intros Hc%is_digit_bounds. unfold Str.digit_value. lia. Qed.

Lemma digit_value_nonzero (c : ascii) :
  Str.is_digit c = true -> Ascii.eqb c "0" = false ->
  (1 <= Str.digit_value c)%Z.
Proof.
  intros Hc%is_digit_bounds Hz. unfold Str.digit_value.
  enough (nat_of_ascii c <> 48)%nat by lia.
  intros H48. apply Ascii.eqb_neq in Hz. apply Hz.
  by apply String_as_OT.nat_of_ascii_inverse.
Qed.

(** A string of decimal digits. *)
Local Abbreviation digits s :=
  (Forall (fun c => Str.is_digit c = true) (list_ascii_of_string s)).

Lemma rstrip_digits (s : string) : digits s -> Str.rstrip s = s.
Proof.
  induction s as [|c s IH]; [done|]. cbn [list_ascii_of_string].
  intros [Hc Hs]%Forall_cons. cbn [Str.rstrip]. rewrite (IH Hs).
  destruct s; [|done]. by rewrite (is_digit_not_space c Hc).
Qed.

Lemma strip_digits (s : string) : digits s -> Str.strip s = s.
Proof.
  intros Hs. unfold Str.strip.
  assert (Str.lstrip s = s) as ->.
  { destruct s as [|c s]; [done|]. cbn [list_ascii_of_string] in Hs.
    apply Forall_cons in Hs as [Hc _]. cbn [Str.lstrip].
    by rewrite (is_digit_not_space c Hc). }
  by apply rstrip_digits.
Qed.

Lemma digits_value_ge (s : string) (acc : Z) :
  digits s -> (0 <= acc)%Z ->
  exists n, Str.digits_value acc s = Some n /\ (acc <= n)%Z.
Proof.
  revert acc. induction s as [|c s IH]; intros acc Hs Hacc.
  - exists acc. done.
  - cbn [list_ascii_of_string] in Hs. apply Forall_cons in Hs as [Hc Hs].
    cbn [Str.digits_value]. rewrite Hc.
    pose proof (digit_value_bounds c Hc).
    destruct (IH (acc * 10 + Str.digit_value c)%Z Hs) as (n & -> & Hn);
      [lia|].
    exists n. split; [done|lia].
Qed.

(** [int] of a decimal numeral without a leading zero is at least 1. *)
Lemma int_numeral (c : ascii) (s : string) :
  Str.is_digit c = true -> Ascii.eqb c "0" = false -> digits s ->
  exists n, Str.int (String c s) = Ok n /\ (1 <= n)%Z.
Proof.
  intros Hc Hz Hs.
  assert (digits (String c s)) as Hcs by (by apply Forall_cons).
  pose proof (digit_value_nonzero c Hc Hz) as Hv.
  destruct (digits_value_ge s (0 * 10 + Str.digit_value c)%Z Hs)
    as (n & Hn & Hle); [lia|].
  exists n. split; [|lia].
  unfold Str.int. rewrite (strip_digits _ Hcs).
  assert (Str.digits_value 0 (String c s) = Some n) as Hn'.
  { cbn [Str.digits_value]. by rewrite Hc. }
  apply is_digit_bounds in Hc.
  destruct c as [[] [] [] [] [] [] [] []];
    try (exfalso; vm_compute in Hc; lia); by rewrite Hn'.
Qed.

Lemma take_digits_spec (s ds rest : string) :
  Search.take_digits s = (ds, rest) -> s = ds +:+ rest /\ digits ds.
Proof.
  revert ds rest. induction s as [|c s IH]; intros ds rest.
  - intros [= <- <-]. by split.
  - cbn [Search.take_digits]. destruct (Str.is_digit c) eqn:Hc.
    + destruct (Search.take_digits s) as [ds' rest'] eqn:Hs.
      intros [= <- <-]. destruct (IH ds' rest' eq_refl) as [-> Hds].
      split; [done|]. by apply Forall_cons.
    + intros [= <- <-]. by split.
Qed.

Lemma take_digits_append (ds rest : string) :
  digits ds ->
  match rest with String c _ => Str.is_digit c = false | "" => True end ->
  Search.take_digits (ds +:+ rest) = (ds, rest).
Proof.
  intros Hds Hrest. induction ds as [|c ds IH].
  - rewrite append_nil_l. destruct rest as [|c rest]; [done|].
    cbn [Search.take_digits]. by rewrite Hrest.
  - cbn [list_ascii_of_string] in Hds. apply Forall_cons in Hds as [Hc Hds].
    rewrite append_cons. cbn [Search.take_digits]. by rewrite Hc, (IH Hds).
Qed.
End string_facts.

Section search_spec.
Import Search.
Variable _SEARCH_KEY : string.
Variable _MAX_RESULTS : Z.

(** The prefixes that the pattern of [_make_valid_url] admits: nothing,
    [all], or a decimal numeral without a leading zero. *)
Local Abbreviation valid_prefix prefix :=
  (prefix = "" \/ prefix = "all" \/
   exists c ds, prefix = String c ds /\ Str.is_digit c = true /\
     Ascii.eqb c "0" = false /\
     Forall (fun c => Str.is_digit c = true) (list_ascii_of_string ds)).

Lemma with_query_inv (p r prefix query : string) :
  with_query p r = Some (prefix, query) ->
  p = prefix /\ r = ":" +:+ query /\ query <> "".
Proof.
  destruct r as [|c0 [|c q]]; try done. cbn [with_query].
  destruct (Ascii.eqb_spec c0 ":") as [->|]; [|done].
  by intros [= <- <-].
Qed.

Lemma startswith_char (a c : ascii) (s : string) :
  Str.startswith (String c s) (String a "") = Ascii.eqb a c.
Proof.
  unfold Str.startswith. cbn [String.prefix].
  destruct (ascii_dec a c) as [->|Hne].
  - rewrite Ascii.eqb_refl. by destruct s.
  - symmetry. by apply Ascii.eqb_neq.
Qed.

Lemma match_valid_url_inv (s prefix query : string) :
  match_valid_url _SEARCH_KEY s = Some (prefix, query) ->
  s = _SEARCH_KEY +:+ prefix +:+ ":" +:+ query /\ query <> "" /\
  valid_prefix prefix.
Proof.
  unfold match_valid_url.
  destruct (String.prefix _SEARCH_KEY s) eqn:Hkey; [|done].
  apply prefix_drop in Hkey.
  remember (Str.drop (String.length _SEARCH_KEY) s) as rest eqn:Hrest.
  clear Hrest. subst s.
  destruct (Str.startswith rest ":") eqn:Hcolon.
  - intros (<- & -> & Hq)%with_query_inv. by auto.
  - destruct (take_digits rest) as [ds rest'] eqn:Hds.
    apply take_digits_spec in Hds as [-> Hds].
    destruct ds as [|c ds].
    + rewrite append_nil_l.
      destruct (Str.startswith rest' "all") eqn:Hall; [|done].
      apply (prefix_drop "all") in Hall.
      intros (<- & Hrest & Hq)%with_query_inv.
      change (Str.drop (String.length "all") rest')
        with (Str.drop 3 rest') in Hall.
      rewrite Hrest in Hall. rewrite Hall. by auto.
    + destruct (Ascii.eqb c "0") eqn:Hz; [done|].
      intros (<- & -> & Hq)%with_query_inv.
      cbn [list_ascii_of_string] in Hds. apply Forall_cons in Hds as [Hc Hds].
      split; [done|]. split; [done|]. right. right. by exists c, ds.
Qed.

Lemma match_valid_url_complete (prefix query : string) :
  query <> "" -> valid_prefix prefix ->
  match_valid_url _SEARCH_KEY (_SEARCH_KEY +:+ prefix +:+ ":" +:+ query)
  = Some (prefix, query).
Proof.
  intros Hq Hp. unfold match_valid_url.
  rewrite prefix_append, drop_append.
  destruct query as [|q0 query]; [done|].
  destruct Hp as [->| [->| (c & ds & -> & Hc & Hz & Hds)]].
  - done.
  - done.
  - rewrite append_cons, startswith_char.
    assert (Ascii.eqb ":" c = false) as ->.
    { apply Ascii.eqb_neq. intros <-. done. }
    rewrite <- append_cons, take_digits_append; [|by apply Forall_cons|done].
    by rewrite Hz.
Qed.

(** X11.  [suitable] accepts exactly the strings made of the search key, a
    prefix that is empty, [all] or a decimal numeral without a leading
    zero, a colon, and a query that is not empty. *)
Theorem search_suitable_queries (url : string) :
  suitable _SEARCH_KEY url = true <->
  exists prefix query,
    url = _SEARCH_KEY +:+ prefix +:+ ":" +:+ query /\ query <> "" /\
    (prefix = "" \/ prefix = "all" \/
     exists c ds, prefix = String c ds /\ Str.is_digit c = true /\
       Ascii.eqb c "0" = false /\
       Forall (fun c => Str.is_digit c = true) (list_ascii_of_string ds)).
Proof.
  unfold suitable. rewrite bool_decide_eq_true. split.
  - intros [[prefix query] Hm]. exists prefix, query.
    by apply match_valid_url_inv.
  - intros (prefix & query & -> & Hq & Hp).
    rewrite (match_valid_url_complete prefix query Hq Hp). by eexists.
Qed.

Section real_extract_spec.
Variable R : Type.
Variable _get_n_results : string -> Z -> result R.

(** X12.  [_real_extract] refuses a query exactly when [suitable] does,
    and otherwise returns what [_get_n_results] returns for a query that
    is not empty and a number that is 1, [_MAX_RESULTS], or between the
    two: the error for a download number that is not positive is never
    raised by [_real_extract] itself. *)
Theorem search_real_extract_cases (query : string) :
  (suitable _SEARCH_KEY query = false /\
   _real_extract _SEARCH_KEY _MAX_RESULTS R _get_n_results query =
   Raise (ExtractorError
            ("Invalid search query " +:+
             String "034" (query +:+ String "034" "")))) \/
  (suitable _SEARCH_KEY query = true /\
   exists q n,
     q <> "" /\
     (n = 1 \/ n = _MAX_RESULTS \/ 1 <= n <= _MAX_RESULTS)%Z /\
     _real_extract _SEARCH_KEY _MAX_RESULTS R _get_n_results query =
     _get_n_results q n).
Proof.
  unfold _real_extract, suitable.
  destruct (match_valid_url _SEARCH_KEY query) as [[prefix q]|] eqn:Hm.
  - right. split; [by apply bool_decide_eq_true; eexists|].
    apply match_valid_url_inv in Hm as (_ & Hq & Hp).
    exists q.
    destruct Hp as [->| [->| (c & ds & -> & Hc & Hz & Hds)]].
    + exists 1%Z. by auto.
    + exists _MAX_RESULTS. by auto.
    + destruct (int_numeral c ds Hc Hz Hds) as (n & Hn & Hge).
      assert (String.eqb (String c ds) "" = false) as -> by done.
      assert (String.eqb (String c ds) "all" = false) as ->.
      { apply String.eqb_neq. intros [= -> _]. done. }
      rewrite Hn, bind_Ok.
      destruct (Z.leb_spec n 0) as [?|_]; [lia|].
      destruct (Z.gtb_spec n _MAX_RESULTS) as [Hgt|Hle].
      * exists _MAX_RESULTS. by auto.
      * exists n. split; [done|]. split; [|done]. right. right. lia.
  - left. split; [|done]. apply bool_decide_eq_false. by intros [? ?].
Qed.
End real_extract_spec.
End search_spec.

(** ** [_sort_formats], further properties *)

Section sort_formats_more.
Import Selector.
Variable determine_ext : string -> string.
Variable determine_protocol : format -> string.
Variable prefer_free_formats : bool.

Local Abbreviation sort_formats :=
  (_sort_formats determine_ext determine_protocol prefer_free_formats).
Local Abbreviation ckey :=
  (composite_key determine_ext determine_protocol prefer_free_formats).
Local Abbreviation formats_key' :=
  (_formats_key determine_ext determine_protocol prefer_free_formats).
Local Abbreviation missing_ext := (determine_missing_ext determine_ext).

Lemma sort_by_key_sorted_id (l : list (format * formats_key)) :
  StronglySorted keyed_le l -> sort_by_key l = l.
Proof.
  induction 1 as [|x l Hs IH Hx]; [done|].
  cbn [sort_by_key]. rewrite IH.
  destruct l as [|y l]; [done|]. cbn [insert_by_key].
  apply Forall_cons in Hx as [Hxy _].
  by rewrite (proj2 (key_leb_le _ _) Hxy).
Qed.

Lemma synthesize_tbr_missing_ext (f : format) :
  synthesize_tbr (missing_ext (synthesize_tbr f))
  = missing_ext (synthesize_tbr f).
Proof.
  unfold synthesize_tbr, determine_missing_ext.
  destruct (tbr f) eqn:Ht, (abr f) eqn:Ha, (vbr f) eqn:Hv;
    destruct (negb _); cbn; rewrite ?Ht, ?Ha, ?Hv; done.
Qed.

Lemma formats_key_fixed (f : format) :
  formats_key' (synthesize_tbr (fst (formats_key' (synthesize_tbr f))))
  = formats_key' (synthesize_tbr f).
Proof.
  unfold _formats_key. cbn [fst].
  by rewrite synthesize_tbr_missing_ext, determine_missing_ext_idemp.
Qed.

(** X13.  Sorting is idempotent: the list that [_sort_formats] leaves is
    left as it is by a second call, which neither moves a format nor
    changes a field. *)
Theorem sort_formats_idempotent (L L' : list format) :
  sort_formats L = Ok L' -> sort_formats L' = Ok L'.
Proof.
  unfold _sort_formats. destruct L as [|f0 L]; [done|].
  set (K := sort_by_key (map formats_key' (map synthesize_tbr (f0 :: L)))).
  intros [= <-].
  assert (map formats_key' (map synthesize_tbr (map fst K)) = K) as HK.
  { rewrite !map_map. rewrite <- (map_id K) at 2.
    apply map_ext_in. intros p Hp.
    apply list_elem_of_In in Hp. unfold K in Hp.
    rewrite sort_by_key_perm, map_map in Hp.
    apply list_elem_of_fmap in Hp as (f & -> & _).
    apply formats_key_fixed. }
  destruct (map fst K) as [|g0 G] eqn:HG.
  - exfalso. apply map_eq_nil in HG.
    assert (K ≡ₚ map formats_key' (map synthesize_tbr (f0 :: L))) as Hperm
      by apply sort_by_key_perm.
    rewrite HG in Hperm. by apply Permutation_nil_cons in Hperm.
  - rewrite HK. f_equal. rewrite <- HG. f_equal.
    apply sort_by_key_sorted_id, sort_by_key_sorted.
Qed.

Lemma missing_ext_fields (f : format) :
  preference (missing_ext f) = preference f /\
  vcodec (missing_ext f) = vcodec f /\
  acodec (missing_ext f) = acodec f.
Proof. unfold determine_missing_ext. by destruct (negb _). Qed.

Lemma composite_key_explicit (f : format) (p : Q) :
  preference f = Some p ->
  head (key_numbers (ckey f)) =
    Some (if str_is (vcodec f) "none" then (p - inject_Z 50)%Q
          else if str_is (acodec f) "none" then (p - inject_Z 40)%Q
               else p).
Proof.
  intros Hp. unfold composite_key, _formats_key, key_tuple. cbn [snd].
  destruct (missing_ext_fields f) as (-> & -> & ->). rewrite Hp.
  destruct (str_is (vcodec f) "none"); [done|].
  by destruct (str_is (acodec f) "none").
Qed.

(** X14.  A preference that the extractor sets is not exempt from the
    deductions: the primary component of the key is the preference
    lowered by 50 for an audio-only format and by 40 for a video-only
    one.  So an audio-only format with the preference [p] has a smaller
    key than a format with both streams and the preference [q] as soon as
    [p - 50 < q], whatever their other fields are. *)
Theorem explicit_preference_is_lowered :
  (forall f p,
     preference f = Some p ->
     head (key_numbers (ckey f)) =
       Some (if str_is (vcodec f) "none" then (p - inject_Z 50)%Q
             else if str_is (acodec f) "none" then (p - inject_Z 40)%Q
                  else p)) /\
  (forall audio_only muxed p q,
     preference audio_only = Some p -> preference muxed = Some q ->
     str_is (vcodec audio_only) "none" = true ->
     str_is (vcodec muxed) "none" = false ->
     str_is (acodec muxed) "none" = false ->
     (p - inject_Z 50 < q)%Q ->
     key_lt (ckey audio_only) (ckey muxed)).
Proof.
  split; [apply composite_key_explicit|].
  intros a m p q Hp Hq Hav Hmv Hma Hlt.
  pose proof (composite_key_explicit a p Hp) as Ha.
  pose proof (composite_key_explicit m q Hq) as Hm.
  rewrite Hav in Ha. rewrite Hmv, Hma in Hm.
  destruct (ckey a) as [[|x xs] ida]; [done|].
  destruct (ckey m) as [[|y ys] idm]; [done|].
  cbn in Ha, Hm. injection Ha as ->. injection Hm as ->.
  by apply key_lt_primary.
Qed.
End sort_formats_more.

(** ** [_extract_m3u8_formats], further properties *)

Section hls_more.
Import Hls Formats.

(** A format that holds a string under [url]. *)
Local Abbreviation has_url f := (exists u : string, f !! "url" = Some (PStr u)).

Lemma has_url_insert (k : string) (v : pyval) (f : gmap string pyval) :
  k <> "url" -> has_url f -> has_url (<[k := v]> f).
Proof. intros Hk [u Hu]. exists u. by rewrite lookup_insert_ne. Qed.

Lemma has_url_codecs (c : option (string * string)) (f : gmap string pyval) :
  has_url f -> has_url (codecs_dict c ∪ f).
Proof.
  intros [u Hu]. exists u.
  rewrite lookup_union_r; [done|]. by apply codecs_dict_lookup.
Qed.

Lemma has_url_item_url (f : gmap string pyval) :
  has_url f -> exists u, item_url f = Ok u.
Proof. intros [u Hu]. unfold item_url. rewrite Hu. by eexists. Qed.

(** A list in which every format has a string URL goes through
    [_remove_duplicate_formats], and its first format stays the first. *)
Lemma remove_duplicates_total (formats : list (gmap string pyval)) :
  Forall (fun f => has_url f) formats ->
  exists unique,
    _remove_duplicate_formats formats = Ok unique /\
    head unique = head formats.
Proof.
  intros Hall. unfold _remove_duplicate_formats.
  match goal with
  | |- context [for_each ?step _ _] =>
      assert (forall l seen acc,
                Forall (fun f => has_url f) l ->
                exists seen' more,
                  for_each step l (seen, acc) = Ok (seen', acc ++ more))
        as Hgen
  end.
  { induction l as [|f l IH]; intros seen acc Hl.
    - exists seen, []. simpl. by rewrite app_nil_r.
    - apply Forall_cons in Hl as [Hf Hl].
      destruct (has_url_item_url f Hf) as [u Hu].
      cbn [for_each]. rewrite Hu, bind_Ok.
      destruct (decide (u ∈ seen)); rewrite bind_Ok.
      + apply (IH _ _ Hl).
      + destruct (IH ({[u]} ∪ seen) (acc ++ [f]) Hl) as (seen' & more & ->).
        exists seen', (f :: more). by rewrite <- app_assoc. }
  destruct formats as [|f formats].
  - exists []. done.
  - apply Forall_cons in Hall as [Hf Hall].
    destruct (has_url_item_url f Hf) as [u Hu].
    cbn [for_each]. rewrite Hu, bind_Ok.
    destruct (decide (u ∈ (∅ : gset (option string)))) as [Hin|_];
      [by apply elem_of_empty in Hin|].
    rewrite bind_Ok.
    destruct (Hgen formats ({[u]} ∪ ∅) ([] ++ [f]) Hall)
      as (seen' & more & ->).
    rewrite bind_Ok. by exists (([] ++ [f]) ++ more).
Qed.

Variable _download_webpage_handle :
  string -> bool -> result (option (string * string)).
Variable parse_m3u8_attributes : string -> gmap string string.
Variable urljoin : string -> string -> string.
Variable float_or_none : option string -> Z -> option Q.
Variable parse_codecs : option string -> option (string * string).
Variable search_resolution : string -> option (string * string).
Variable search_usp : string -> option (string * option string).
Variable ext : option string.
Variable entry_protocol : string.
Variable preference : option Z.
Variable m3u8_id : option string.
Variable live : bool.

Local Abbreviation media_line' :=
  (media_line parse_m3u8_attributes urljoin ext entry_protocol preference).
Local Abbreviation stream_line' :=
  (stream_line urljoin float_or_none parse_codecs search_resolution
     search_usp ext entry_protocol preference m3u8_id live).
Local Abbreviation line_step' :=
  (line_step parse_m3u8_attributes urljoin float_or_none parse_codecs
     search_resolution search_usp ext entry_protocol preference m3u8_id
     live).
Local Abbreviation extract_m3u8 :=
  (_extract_m3u8_formats _download_webpage_handle parse_m3u8_attributes
     urljoin float_or_none parse_codecs search_resolution search_usp ext
     entry_protocol preference m3u8_id live).

(** A line does nothing to the list of formats, or appends one format
    with a URL. *)
Lemma media_line_formats (m3u8_url line : string) (w : walk) :
  formats (media_line' m3u8_url line w) = formats w \/
  exists f, has_url f /\
    formats (media_line' m3u8_url line w) = formats w ++ [f].
Proof.
  unfold media_line.
  destruct (bool_decide _); [|by left].
  destruct (truthy _); [|by left].
  right.
  destruct (bool_decide (parse_m3u8_attributes line !! "TYPE" = Some "AUDIO")).
  - eexists. split; [|reflexivity].
    apply has_url_insert; [done|]. eexists.
    cbn [list_to_map foldr]. rewrite lookup_insert_ne by done.
    apply lookup_insert_eq.
  - eexists. split; [|reflexivity]. eexists.
    cbn [list_to_map foldr]. rewrite lookup_insert_ne by done.
    apply lookup_insert_eq.
Qed.

Lemma stream_line_formats (m3u8_url line : string) (w w' : walk) :
  stream_line' m3u8_url line w = Ok w' ->
  exists f, has_url f /\ formats w' = formats w ++ [f].
Proof.
  unfold stream_line.
  match goal with
  | |- context [list_to_map ?l] =>
      assert (has_url (list_to_map l : gmap string pyval)) as Hf0;
      [|generalize dependent (list_to_map l : gmap string pyval)]
  end.
  { eexists. cbn [list_to_map foldr]. rewrite lookup_insert_ne by done.
    apply lookup_insert_eq. }
  intros f0 Hf0.
  match goal with
  | |- context [mbind _ ?c] =>
      assert (forall f1, c = Ok f1 -> has_url f1) as Hf1;
      [|destruct c as [f1|e]; [|done]]
  end.
  { intros f1. destruct (truthy _); [|by intros [= <-]].
    destruct (search_resolution _) as [[width height]|]; [|by intros [= <-]].
    destruct (Str.int width) as [nw|e]; [|done]. rewrite bind_Ok.
    destruct (Str.int height) as [nh|e]; [|done]. rewrite bind_Ok.
    intros [= <-]. by do 2 (apply has_url_insert; [done|]). }
  specialize (Hf1 f1 eq_refl). rewrite bind_Ok.
  intros [= <-]. cbn [formats]. eexists. split; [|reflexivity].
  destruct (bool_decide _).
  - apply has_url_insert; [done|]. apply has_url_codecs.
    destruct (search_usp _) as [[abr vbr]|]; [|done].
    by do 2 (apply has_url_insert; [done|]).
  - apply has_url_codecs.
    destruct (search_usp _) as [[abr vbr]|]; [|done].
    by do 2 (apply has_url_insert; [done|]).
Qed.

Lemma line_step_formats (m3u8_url line : string) (w w' : walk) :
  line_step' m3u8_url w line = Ok w' ->
  formats w' = formats w \/
  exists f, has_url f /\ formats w' = formats w ++ [f].
Proof.
  unfold line_step.
  destruct (Str.startswith line "#EXT-X-STREAM-INF:"); [by intros [= <-]; left|].
  destruct (Str.startswith line "#EXT-X-MEDIA:").
  { intros [= <-]. apply media_line_formats. }
  destruct (_ || _); [by intros [= <-]; left|].
  intros (f & Hf & ->)%stream_line_formats. right. by exists f.
Qed.

(** The formats of a master playlist: the meta format, then at most one
    format for each line, each with a URL. *)
Lemma master_playlist_walk (m3u8_url : string) (lines : list string)
    (meta : gmap string pyval) (w : walk) :
  for_each (line_step' m3u8_url) lines (Walk [meta] ∅ ∅ ∅) = Ok w ->
  exists rest,
    formats w = meta :: rest /\ Forall (fun f => has_url f) rest /\
    length rest <= length lines.
Proof.
  apply (for_each_invariant
           (fun pre w => exists rest,
              formats w = meta :: rest /\ Forall (fun f => has_url f) rest /\
              length rest <= length pre)).
  - exists []. split; [done|]. split; [done|]. simpl. lia.
  - intros pre line post st st' _ (rest & Hst & Hurls & Hlen) Hstep.
    rewrite length_app. simpl.
    apply line_step_formats in Hstep as [->|(f & Hf & ->)].
    + exists rest. split; [done|]. split; [done|]. lia.
    + exists (rest ++ [f]). rewrite Hst. split; [done|].
      split; [apply Forall_app; by split; [|apply Forall_singleton]|].
      rewrite length_app. simpl. lia.
Qed.

Lemma has_url_meta (m3u8_url : string) :
  has_url (_m3u8_meta_format m3u8_url ext preference m3u8_id).
Proof.
  eexists. unfold _m3u8_meta_format. cbn [list_to_map foldr].
  rewrite lookup_insert_ne by done. apply lookup_insert_eq.
Qed.

Lemma extract_m3u8_cases (m3u8_url : string) (fatal : bool)
    (fs : list (gmap string pyval)) :
  extract_m3u8 m3u8_url fatal = Ok fs ->
  Forall (fun f => has_url f) fs /\
  (_download_webpage_handle m3u8_url fatal = Ok None /\ fs = [] \/
   exists doc final,
     _download_webpage_handle m3u8_url fatal = Ok (Some (doc, final)) /\
     if Str.contains "#EXT-X-TARGETDURATION" doc then
       exists f, fs = [f] /\ f !! "url" = Some (PStr final) /\
                 f !! "format_id" = Some (PStr_or_none m3u8_id)
     else
       exists rest,
         fs = _m3u8_meta_format final ext preference m3u8_id :: rest /\
         length rest <= length (splitlines doc)).
Proof.
  unfold _extract_m3u8_formats.
  destruct (_download_webpage_handle m3u8_url fatal) as [[[doc final]|]|e];
    [| |done]; rewrite bind_Ok.
  - destruct (Str.contains "#EXT-X-TARGETDURATION" doc) eqn:Hmedia.
    + intros [= <-]. split.
      { apply Forall_singleton. eexists. apply lookup_insert_eq. }
      right. exists doc, final. split; [done|]. rewrite Hmedia.
      eexists. split; [done|]. split; [apply lookup_insert_eq|].
      rewrite lookup_insert_ne by done. apply lookup_insert_eq.
    + destruct (for_each _ _ _) as [w|e] eqn:Hrun; [|done].
      rewrite bind_Ok. intros [= <-].
      apply master_playlist_walk in Hrun as (rest & -> & Hurls & Hlen).
      split; [apply Forall_cons; split; [apply has_url_meta|done]|].
      right. exists doc, final. split; [done|]. rewrite Hmedia.
      by exists rest.
  - intros [= <-]. split; [done|]. by left.
Qed.

(** X15.  What [_extract_m3u8_formats] returns.  Every format has a
    string [url].  A page that could not be fetched gives no format; a
    media playlist, which has the [#EXT-X-TARGETDURATION] tag, gives
    one format, with the final URL and the caller's id, and no meta
    format, whatever its other lines are; a master playlist gives the
    meta format first and then at most one format for each line. *)
Theorem m3u8_formats_shape (m3u8_url : string) (fatal : bool)
    (fs : list (gmap string pyval)) :
  extract_m3u8 m3u8_url fatal = Ok fs ->
  Forall (fun f => exists u : string, f !! "url" = Some (PStr u)) fs /\
  (_download_webpage_handle m3u8_url fatal = Ok None /\ fs = [] \/
   exists doc final,
     _download_webpage_handle m3u8_url fatal = Ok (Some (doc, final)) /\
     if Str.contains "#EXT-X-TARGETDURATION" doc then
       exists f, fs = [f] /\ f !! "url" = Some (PStr final) /\
                 f !! "format_id" = Some (PStr_or_none m3u8_id)
     else
       exists rest,
         fs = _m3u8_meta_format final ext preference m3u8_id :: rest /\
         length rest <= length (splitlines doc)).
Proof. apply extract_m3u8_cases. Qed.

(** X16.  The formats that [_extract_m3u8_formats] returns go through
    [_remove_duplicate_formats]: no [KeyError] is raised, and the first
    format, the meta format of a master playlist, stays the first. *)
Theorem m3u8_formats_remove_duplicates (m3u8_url : string) (fatal : bool)
    (fs : list (gmap string pyval)) :
  extract_m3u8 m3u8_url fatal = Ok fs ->
  exists unique,
    _remove_duplicate_formats fs = Ok unique /\ head unique = head fs.
Proof.
  intros [Hurls _]%extract_m3u8_cases. by apply remove_duplicates_total.
Qed.
End hls_more.

(** ** [_parse_mpd_formats], further properties *)

Lemma repeat_step_invariant {S} (R : nat -> S -> Prop) (k : nat)
    (step : S -> result S) (s s' : S) :
  R 0 s ->
  (forall i st st', R i st -> step st = Ok st' -> R (Datatypes.S i) st') ->
  repeat_step k step s = Ok s' -> R k s'.
Proof.
  intros H0 Hstep.
  assert (forall j i st, R i st -> repeat_step j step st = Ok s' ->
                         R (i + j) s') as Hgen.
  { induction j as [|j IH]; intros i st Hi Hrun; simpl in Hrun.
    - injection Hrun as <-. by rewrite Nat.add_0_r.
    - destruct (step st) as [st'|e] eqn:Hst; [|done].
      rewrite bind_Ok in Hrun.
      replace (i + Datatypes.S j) with (Datatypes.S i + j) by lia.
      apply (IH _ st'); [by eapply Hstep|done]. }
  apply (Hgen k 0 s H0).
Qed.

Lemma mapM_Ok_length {A B} (f : A -> result B) (l : list A) (ys : list B) :
  mapM f l = Ok ys -> length ys = length l.
Proof.
  revert ys. induction l as [|x l IH]; intros ys Hl.
  - simpl in Hl. by injection Hl as <-.
  - apply mapM_Ok_inv in Hl as (y & ys' & _ & Hl & ->).
    simpl. f_equal. by apply IH.
Qed.

Section dash_fragments.
Import ET Dash.

Lemma add_segment_url_appends media_template bandwidth timescale time d
    number (fragments fragments' : list pyval) :
  add_segment_url media_template bandwidth timescale time d number fragments
  = Ok fragments' ->
  exists x, fragments' = fragments ++ [x].
Proof.
  unfold add_segment_url.
  destruct (Format.format _ _) as [u|e]; [|done]. rewrite bind_Ok.
  destruct (Utils.float_or_none _ _) as [dur|e]; [|done]. rewrite bind_Ok.
  intros [= <-]. by eexists.
Qed.

Lemma timeline_step_count media_template bandwidth timescale
    (fragments fragments' : list pyval) (time time' number number' : Z)
    (entry : s_entry) :
  timeline_step media_template bandwidth timescale
    (fragments, time, number) entry = Ok (fragments', time', number') ->
  length fragments' = length fragments + S (Z.to_nat (s_r entry)) /\
  number' = (number + Z.of_nat (S (Z.to_nat (s_r entry))))%Z.
Proof.
  unfold timeline_step.
  destruct (add_segment_url _ _ _ _ _ _ _) as [fr1|e] eqn:H1; [|done].
  rewrite bind_Ok.
  apply add_segment_url_appends in H1 as [x ->].
  destruct (repeat_step _ _ _) as [[[fr2 t2] n2]|e] eqn:H2; [|done].
  rewrite bind_Ok. intros [= <- <- <-].
  apply (repeat_step_invariant
           (fun i (st : list pyval * Z * Z) =>
              length (fst (fst st)) = length fragments + S i /\
              snd st = (number + Z.of_nat (S i))%Z)) in H2.
  - exact H2.
  - cbn [fst snd]. rewrite length_app. simpl. split; lia.
  - intros i [[fr t] n] [[fr' t'] n'] [Hlen Hn]. cbn [fst snd] in *.
    destruct (add_segment_url _ _ _ _ _ _ _) as [fr''|e] eqn:H3; [|done].
    rewrite bind_Ok. intros [= <- <- <-].
    apply add_segment_url_appends in H3 as [y ->].
    rewrite length_app. simpl. split; lia.
Qed.

Lemma timeline_fragments_count media_template bandwidth (ms : ms_info)
    (entries : list s_entry) (fragments : list pyval) :
  s ms = Some entries ->
  timeline_fragments media_template bandwidth ms = Ok fragments ->
  length fragments = sum_list_with (fun e => S (Z.to_nat (s_r e))) entries.
Proof.
  intros Hs. unfold timeline_fragments. rewrite Hs.
  destruct (for_each _ _ _) as [[[fr t] n]|e] eqn:Hrun; [|done].
  rewrite bind_Ok. intros [= <-].
  apply (for_each_invariant
           (fun pre (st : list pyval * Z * Z) =>
              length (fst (fst st)) =
              sum_list_with (fun e => S (Z.to_nat (s_r e))) pre)) in Hrun.
  - exact Hrun.
  - done.
  - intros pre e post [[fr0 t0] n0] [[fr1 t1] n1] _ Hpre Hstep.
    cbn [fst] in *.
    apply timeline_step_count in Hstep as [Hlen _].
    rewrite sum_list_with_app. simpl. lia.
Qed.

Lemma add_s_total (elements : list Element) (total0 total : Z)
    (entries0 entries : list s_entry) :
  for_each add_s elements (total0, entries0) = Ok (total, entries) ->
  exists more,
    entries = entries0 ++ more /\
    total = (total0 + foldr Z.add 0 (map (fun e => 1 + s_r e) more))%Z.
Proof.
  revert total0 entries0.
  induction elements as [|x elements IH]; intros total0 entries0; simpl.
  - intros [= <- <-]. exists []. rewrite app_nil_r. split; [done|]. simpl. lia.
  - destruct (add_s (total0, entries0) x) as [[t1 e1]|e] eqn:Hx; [|done].
    rewrite bind_Ok. intros (more & -> & ->)%IH.
    unfold add_s in Hx. cbn [fst snd] in Hx.
    destruct (int_attr "r" x) as [r|e]; [|done]. rewrite bind_Ok in Hx.
    destruct (int_attr "t" x) as [t|e]; [|done]. rewrite bind_Ok in Hx.
    destruct (attrib_item "d" x) as [d|e]; [|done]. rewrite bind_Ok in Hx.
    destruct (Str.int d) as [dn|e]; [|done]. rewrite bind_Ok in Hx.
    injection Hx as <- <-.
    exists (SEntry t dn r :: more). rewrite <- app_assoc. split; [done|].
    simpl. lia.
Qed.

(** X17.  The timeline branch makes one fragment for each [S] entry and
    one more for each of its repetitions, a negative [r] counting as
    none.  When no [r] is negative this is the [total_number] that
    [extract_common] computes from the same [S] elements; with a negative
    [r] the two differ. *)
Theorem timeline_fragment_count media_template bandwidth (ms : ms_info)
    (entries : list s_entry) (fragments : list pyval) :
  s ms = Some entries ->
  timeline_fragments media_template bandwidth ms = Ok fragments ->
  length fragments = sum_list_with (fun e => S (Z.to_nat (s_r e))) entries /\
  forall elements total,
    for_each add_s elements (0%Z, []) = Ok (total, entries) ->
    (Forall (fun e => 0 <= s_r e)%Z entries ->
     Z.of_nat (length fragments) = total) /\
    (Exists (fun e => s_r e < 0)%Z entries ->
     (total < Z.of_nat (length fragments))%Z).
Proof.
  intros Hs Hrun.
  pose proof (timeline_fragments_count _ _ _ _ _ Hs Hrun) as Hlen.
  split; [done|]. intros elements total Htotal.
  apply add_s_total in Htotal as (more & Hmore & ->).
  rewrite app_nil_l in Hmore. subst more. rewrite Hlen. clear.
  split.
  - induction 1 as [|e entries He _ IH]; [done|]. simpl in *. lia.
  - assert (forall l : list s_entry,
              (foldr Z.add 0 (map (fun e => 1 + s_r e) l)
               <= Z.of_nat (sum_list_with
                              (fun e => S (Z.to_nat (s_r e))) l))%Z) as Hle.
    { induction l as [|e l IH]; simpl in *; lia. }
    induction 1 as [e entries He|e entries _ IH]; simpl in *.
    + specialize (Hle entries). lia.
    + lia.
Qed.

Lemma range_length (a b : Z) : length (range a b) = Z.to_nat (b - a).
Proof. unfold range. by rewrite length_map, length_seq. Qed.

End dash_fragments.

Lemma for_each_preserves {A S} (P : S -> Prop) (step : S -> A -> result S)
    (l : list A) (s0 s : S) :
  (forall st x st', P st -> step st x = Ok st' -> P st') ->
  P s0 -> for_each step l s0 = Ok s -> P s.
Proof.
  intros Hstep H0.
  apply (for_each_invariant (fun _ st => P st)); [done|].
  intros pre x post st st' _. apply Hstep.
Qed.

Section dash_format_ids.
Import ET Dash.
Variable parse_duration : option string -> option Q.
Variable mimetype2ext : string -> option string.
Variable parse_codecs : option string -> option (string * string).
Variable urljoin : string -> string -> option string.
Variable mpd_id : option string.
Variable formats_dict : gmap string (gmap string pyval).
Variable mpd_url : option string.

Local Abbreviation representation_step' namespace :=
  (representation_step mimetype2ext parse_codecs urljoin namespace mpd_id
     formats_dict mpd_url).

(** The [format_id] that the parser gives to a Representation. *)
Local Abbreviation format_id_of rid :=
  (if truthy mpd_id
   then PStr (percent_s mpd_id +:+ "-" +:+ percent_s rid)
   else PStr_or_none rid).

(** What a Representation does to the list of formats: nothing; or, with
    its format [f], it appends [f] over the entry of [formats_dict] when
    the search for a format with its id finds none, and updates the
    format found with [f] otherwise. *)
Lemma representation_step_formats (namespace : option string)
    (mpd_doc period adaptation_set : Element)
    (period_duration : option Q) (ms : ms_info)
    (formats formats' : list (gmap string pyval)) (base base' : string)
    (representation : Element) :
  representation_step' namespace mpd_doc period adaptation_set
    period_duration ms
    (formats, base) representation = Ok (formats', base') ->
  formats' = formats \/
  exists f rid,
    f !! "format_id" = Some (format_id_of rid) /\
    (find_existing formats rid 0 = Ok None /\
     formats' = formats ++ [f ∪ default ∅ (rid ≫= (formats_dict !!.))] \/
     exists i,
       find_existing formats rid 0 = Ok (Some i) /\
       formats' = alter (fun existing_format => f ∪ existing_format) i
                    formats).
Proof.
  unfold representation_step.
  destruct (is_drm_protected _ _); [by intros [= <- <-]; left|].
  destruct (_ !! "mimeType") as [mime_type|]; [|done].
  destruct (String.eqb _ "text"); [by intros [= <- <-]; left|].
  destruct (_ || _); [|by intros [= <- <-]; left].
  destruct (base_url_walk _ _ _) as [base_url|e]; [|done]. rewrite bind_Ok.
  set (rid := (attrib representation ∪ attrib adaptation_set) !! "id").
  match goal with
  | |- context [if ?c then (?a1, ?a2) else (?b1, ?b2)] => destruct c
  end.
  all: match goal with
  | |- context [codecs_dict ?c ∪ ?m] =>
      assert ((codecs_dict c ∪ m) !! "format_id" = Some (format_id_of rid))
        as Hf;
      [ rewrite lookup_union_r by (by apply codecs_dict_lookup);
        cbn [list_to_map foldr]; apply lookup_insert_eq
      | generalize dependent (codecs_dict c ∪ m); intros f Hf ]
  end.
  all: destruct (extract_multisegment_info _ _ _) as [rms|e]; [|done];
    rewrite bind_Ok.
  all: match goal with
  | |- (?c ≫= _) = _ -> _ => destruct c as [rms'|e]; [|done]
  end; rewrite bind_Ok.
  all: match goal with
  | |- (?c ≫= _) = _ -> _ =>
      assert (forall f', c = Ok f' ->
                f' !! "format_id" = Some (format_id_of rid)) as Hf';
      [|destruct c as [f'|e]; [specialize (Hf' _ eq_refl)|done]]
  end.
  1, 3: intros f'; destruct (fragments rms') as [ms_fragments|];
    [|by intros [= <-]];
    destruct (initialization_url rms') as [init|];
    [destruct rid as [rid'|]; [|done]|];
    rewrite bind_Ok; intros [= <-];
    try destruct (negb (py_truthy _));
    rewrite ?lookup_insert_ne by done; exact Hf.
  all: rewrite bind_Ok.
  all: destruct (find_existing formats rid 0) as [[i|]|e] eqn:Hfind; [| |done];
    rewrite bind_Ok; intros [= <- <-]; right; exists f', rid;
    (split; [exact Hf'|]); [right; by exists i|by left].
Qed.

(** The formats so far have the ids [ids], which differ from each other. *)
Local Abbreviation ids_of formats ids :=
  (Forall2 (fun (f : gmap string pyval) (id : option string) =>
              f !! "format_id" = Some (PStr_or_none id)) formats ids).

Lemma find_existing_spec (formats : list (gmap string pyval))
    (ids : list (option string)) (rid : option string) (i : nat) :
  ids_of formats ids ->
  match find_existing formats rid i with
  | Ok None => rid ∉ ids
  | Ok (Some j) => exists k, j = i + k /\ ids !! k = Some rid
  | Raise _ => False
  end.
Proof.
  intros Hids. revert i.
  induction Hids as [|f id formats ids Hf Hids IH]; intros i.
  - simpl. apply not_elem_of_nil.
  - cbn [find_existing]. rewrite Hf.
    assert ((match PStr_or_none id, rid with
             | PStr a, Some b => String.eqb a b
             | PNone, None => true
             | _, _ => false
             end) = bool_decide (id = rid)) as ->.
    { destruct id as [a|], rid as [b|]; simpl; try done.
      destruct (String.eqb_spec a b) as [->|Hne].
      - by rewrite bool_decide_eq_true_2.
      - rewrite bool_decide_eq_false_2; [done|]. congruence. }
    destruct (bool_decide_reflect (id = rid)) as [->|Hne].
    + exists 0. split; [lia|done].
    + specialize (IH (S i)).
      destruct (find_existing formats rid (S i)) as [[j|]|e]; [| |done].
      * destruct IH as (k & -> & Hk). exists (S k). split; [lia|done].
      * intros [->|Hin]%elem_of_cons; done.
Qed.

Lemma representation_step_ids (namespace : option string)
    (mpd_doc period adaptation_set : Element)
    (period_duration : option Q) (ms : ms_info)
    (st st' : list (gmap string pyval) * string) (representation : Element) :
  truthy mpd_id = false ->
  (exists ids, ids_of (fst st) ids /\ NoDup ids) ->
  representation_step' namespace mpd_doc period adaptation_set
    period_duration ms st representation = Ok st' ->
  exists ids, ids_of (fst st') ids /\ NoDup ids.
Proof.
  intros Hprefix (ids & Hids & Hnd). destruct st as [formats base].
  destruct st' as [formats' base']. cbn [fst] in *.
  intros [->|(f & rid & Hf & Hcase)]%representation_step_formats;
    [by exists ids|].
  rewrite Hprefix in Hf.
  pose proof (find_existing_spec formats ids rid 0 Hids) as Hspec.
  destruct Hcase as [[Hfind ->]|(i & Hfind & ->)]; rewrite Hfind in Hspec.
  - exists (ids ++ [rid]). split.
    + apply Forall2_app; [done|]. apply Forall2_cons; split; [|done].
      by apply lookup_union_Some_l.
    + apply NoDup_app. split; [done|]. split; [|apply NoDup_singleton].
      intros x Hx ->%list_elem_of_singleton. done.
  - destruct Hspec as (k & -> & Hk). exists ids. split; [|done].
    apply Forall2_alter_l; [done|].
    intros x y Hx Hy _. simpl in Hy. rewrite Hk in Hy. injection Hy as <-.
    by apply lookup_union_Some_l.
Qed.

(** X19.  Without an id prefix, no two of the formats that
    [_parse_mpd_formats] returns have the same [format_id]: a
    Representation whose id has been seen, in whichever Period or
    AdaptationSet, updates the format that has it. *)
Theorem mpd_format_ids_distinct (mpd_doc : Element) (mpd_base_url : string)
    (formats : list (gmap string pyval)) :
  truthy mpd_id = false ->
  _parse_mpd_formats parse_duration mimetype2ext parse_codecs urljoin
    mpd_doc mpd_id mpd_base_url formats_dict mpd_url = Ok formats ->
  exists ids,
    Forall2 (fun (f : gmap string pyval) (id : option string) =>
               f !! "format_id" = Some (PStr_or_none id)) formats ids /\
    NoDup ids.
Proof.
  intros Hprefix. unfold _parse_mpd_formats.
  destruct (bool_decide _).
  { intros [= <-]. exists []. split; [done|apply NoDup_nil_2]. }
  destruct (search_namespace _) as [ns|e]; [|done]. rewrite bind_Ok.
  destruct (for_each _ _ _) as [[fs base]|e] eqn:Hrun; [|done].
  rewrite bind_Ok. intros [= <-].
  change fs with (fst (fs, base)).
  set (distinct := fun st : list (gmap string pyval) * string =>
                     exists ids, ids_of (fst st) ids /\ NoDup ids).
  change (distinct (fs, base)).
  revert Hrun. apply (for_each_preserves distinct).
  - intros st period st' Hst. unfold period_step.
    destruct (extract_multisegment_info _ _ _) as [pms|e]; [|done].
    rewrite bind_Ok.
    apply (for_each_preserves distinct); [|done].
    clear st st' Hst. intros st aset st' Hst. unfold adaptation_set_step.
    destruct (is_drm_protected _ _); [by intros [= <-]|].
    destruct (extract_multisegment_info _ _ _) as [ams|e]; [|done].
    rewrite bind_Ok.
    apply (for_each_preserves distinct); [|done].
    clear st st' Hst. intros st rep st' Hst Hstep.
    by eapply representation_step_ids.
  - exists []. split; [done|apply NoDup_nil_2].
Qed.
End dash_format_ids.

(** ** [_parse_f4m_formats] and [_extract_f4m_formats], further properties *)

Section f4m_more.
Import ET F4m.
Variable remove_encrypted_media : list Element -> list Element.
Variable xpath_text : Element -> list string -> option string.
Variable xpath_element : Element -> list string -> option Element.
Variable determine_ext : string -> string.

Lemma stream_level_media (preference : option Z) (f4m_id : option string)
    (manifest_version : string) (base_url : option string)
    (bootstrap_info : Element) (vcodec : option string)
    (manifest_url : string) (nodes : list (nat * Element))
    (formats : list (gmap string pyval)) :
  exists more,
    Forall (fun f => f !! "url" = Some (PStr manifest_url) /\
                     f !! "ext" = Some (PStr "flv")) more /\
    length more = length nodes /\
    forall extract_f4m extract_m3u8,
      for_each
        (media_step determine_ext extract_f4m extract_m3u8 preference f4m_id
           manifest_version base_url (Some bootstrap_info) vcodec)
        nodes (formats, manifest_url) = Ok (formats ++ more, manifest_url).
Proof.
  revert formats. induction nodes as [|[i media_el] nodes IH]; intros formats.
  - exists []. split; [done|]. split; [done|]. intros ef em. simpl.
    by rewrite app_nil_r.
  - cbn [for_each media_step].
    match goal with
    | |- context [(formats ++ [?f])%list] =>
        destruct (IH (formats ++ [f])) as (more & Hmore & Hlen & Hrun);
        exists (f :: more)
    end.
    split; [|split].
    + apply Forall_cons. split; [|done]. split.
      * cbn [list_to_map foldr]. rewrite lookup_insert_ne by done.
        apply lookup_insert_eq.
      * cbn [list_to_map foldr]. rewrite !lookup_insert_ne by done.
        apply lookup_insert_eq.
    + simpl. by rewrite Hlen.
    + intros ef em. rewrite bind_Ok, (Hrun ef em). by rewrite <- app_assoc.
Qed.

(** X20.  A stream-level manifest, one with a [bootstrapInfo] element,
    refers to no other manifest: the nested extractors are not called,
    so the result is the same whatever they would return or raise; each
    format has the manifest's own URL and the extension [flv]. *)
Theorem f4m_stream_level_manifest
    (extract_f4m extract_m3u8 : string -> result (list (gmap string pyval)))
    (preference : option Z) (f4m_id : option string)
    (manifest bootstrap_info : Element) (manifest_url : string)
    (formats : list (gmap string pyval)) :
  xpath_element manifest [ns1 +:+ "bootstrapInfo"; ns2 +:+ "bootstrapInfo"]
  = Some bootstrap_info ->
  _parse_f4m_formats remove_encrypted_media xpath_text xpath_element
    determine_ext extract_f4m extract_m3u8 preference f4m_id manifest
    manifest_url = Ok formats ->
  Forall (fun f => f !! "url" = Some (PStr manifest_url) /\
                   f !! "ext" = Some (PStr "flv")) formats /\
  forall extract_f4m' extract_m3u8',
    _parse_f4m_formats remove_encrypted_media xpath_text xpath_element
      determine_ext extract_f4m' extract_m3u8' preference f4m_id manifest
      manifest_url = Ok formats.
Proof.
  intros Hboot. unfold _parse_f4m_formats.
  match goal with
  | |- (?c ≫= _) = _ -> _ => destruct c as [[]|e]; [| |done]
  end; rewrite ?bind_Ok.
  { by intros [= <-]. }
  rewrite Hboot.
  match goal with
  | |- context [let '(_, _) := ?c in _] => destruct c as [version nodes]
  end.
  destruct (remove_encrypted_media nodes) as [|node nodes'] eqn:Hnodes.
  { by intros [= <-]. }
  match goal with
  | |- context [media_step _ _ _ _ _ ?version ?base _ ?vcodec] =>
      destruct (stream_level_media preference
                  f4m_id version base bootstrap_info vcodec manifest_url
                  (enumerate (node :: nodes')) [])
        as (more & Hmore & _ & Hrun)
  end.
  rewrite (Hrun extract_f4m extract_m3u8), bind_Ok. intros [= <-].
  split; [done|]. intros ef em. by rewrite (Hrun ef em), bind_Ok.
Qed.
End f4m_more.

Section f4m_cycle.
Import ET F4m.
Variable _download_xml : string -> bool -> result (option Element).
Variable remove_encrypted_media : list Element -> list Element.
Variable xpath_text : Element -> list string -> option string.
Variable xpath_element : Element -> list string -> option Element.
Variable determine_ext : string -> string.
Variable _extract_m3u8_formats :
  string -> option Z -> option string -> bool ->
  result (list (gmap string pyval)).

(** X21.  [_extract_f4m_formats] follows a manifest that refers to
    itself without end.  When the page at [url] is a set-level manifest
    of version 1.0 whose first media entry, after the encrypted ones
    are removed, has the absolute URL [url], and [url] has the extension
    [f4m], the call for [url] returns no list, however many nested
    calls the interpreter admits: it ends in the recursion error. *)
Theorem f4m_cyclic_manifest_never_returns (manifest : Element)
    (url : string) (nodes rest : list Element) (media_el : Element) :
  (forall fatal, _download_xml url fatal = Ok (Some manifest)) ->
  find (ns1 +:+ "pv-2.0") manifest = None ->
  findall (ns1 +:+ "media") manifest = nodes -> nodes <> [] ->
  remove_encrypted_media nodes = media_el :: rest ->
  xpath_element manifest [ns1 +:+ "bootstrapInfo"; ns2 +:+ "bootstrapInfo"]
  = None ->
  get "url" media_el = Some url ->
  Utils.is_http_url url = true ->
  determine_ext url = "f4m" ->
  forall depth preference f4m_id fatal m3u8_id,
    _extract_f4m_formats _download_xml remove_encrypted_media xpath_text
      xpath_element determine_ext _extract_m3u8_formats depth url
      preference f4m_id fatal m3u8_id = Raise RecursionError.
Proof.
  intros Hpage Hpv Hnodes Hsome Hmedia Hboot Hurl Hhttp Hext.
  induction depth as [|depth IH]; intros preference f4m_id fatal m3u8_id;
    [done|].
  cbn [_extract_f4m_formats]. rewrite Hpage, bind_Ok.
  unfold _parse_f4m_formats. rewrite Hpv, bind_Ok, Hnodes.
  destruct nodes as [|node nodes']; [done|].
  rewrite Hmedia, Hboot.
  cbn [enumerate imap for_each media_step].
  assert (String.eqb "1.0" "2.0" = false) as -> by done.
  rewrite Hurl.
  assert (truthy (Some url) = true) as ->.
  { destruct url; [done|done]. }
  cbn [negb default]. unfold id. rewrite Hhttp, Hext.
  assert (String.eqb "f4m" "f4m" = true) as -> by done.
  by rewrite IH.
Qed.
End f4m_cycle.

(** ** [_parse_ism_formats], further properties *)

Section ism_more.
Import ET Ism.
Variable urljoin : string -> string -> string.
Variable float_str : Q -> string.

(** The codecs that [_parse_ism_formats] supports. *)
Local Abbreviation supported track :=
  (get "FourCC" track ∈ [Some "H264"; Some "AVC1"; Some "AACL"]).

(** An audio-only or a video-only format of the manifest at [ism_url]. *)
Local Abbreviation one_sided ism_url f :=
  (f !! "url" = Some (PStr ism_url) /\
   f !! "protocol" = Some (PStr "ism") /\
   (f !! "ext" = Some (PStr "ismv") /\
    f !! "acodec" = Some (PStr "none") /\
    f !! "vcodec" <> Some (PStr "none") \/
    f !! "ext" = Some (PStr "isma") /\
    f !! "vcodec" = Some (PStr "none") /\
    f !! "acodec" <> Some (PStr "none"))).

Ltac lookup_literal :=
  cbn [list_to_map foldr]; rewrite ?lookup_insert_ne by done;
  apply lookup_insert_eq.

Lemma track_step_format (ism_url : string) (ism_id : option string)
    (duration timescale : Z) (stream : Element) (stream_type : string)
    (url_pattern : string) (stream_timescale : Z)
    (stream_name : option string)
    (formats formats' : list (gmap string pyval)) (track : Element) :
  stream_type = "video" \/ stream_type = "audio" ->
  track_step urljoin float_str ism_url ism_id duration timescale stream
    stream_type url_pattern stream_timescale stream_name formats track
  = Ok formats' ->
  if decide (supported track)
  then exists f, one_sided ism_url f /\ formats' = formats ++ [f]
  else formats' = formats.
Proof.
  intros Htype. unfold track_step.
  destruct (decide (supported track)) as [Hyes|Hno].
  - rewrite bool_decide_eq_true_2 by done. cbn [negb].
    destruct (attrib_item "Bitrate" track) as [bitrate|e]; [|done].
    rewrite bind_Ok.
    destruct (Str.int bitrate) as [bitrate_n|e]; [|done]. rewrite bind_Ok.
    destruct (for_each _ _ _) as [[fragments time]|e]; [|done].
    rewrite bind_Ok. intros [= <-]. eexists. split; [|reflexivity].
    split; [lookup_literal|]. split; [lookup_literal|].
    assert (PStr_or_none (get "FourCC" track) <> PStr "none") as Hcodec.
    { destruct (get "FourCC" track) as [c|]; [|done]. intros [= ->].
      repeat (apply elem_of_cons in Hyes as [[=]|Hyes]).
      by apply elem_of_nil in Hyes. }
    destruct Htype as [-> | ->]; [left|right]; cbn [String.eqb Ascii.eqb Bool.eqb].
    + split; [lookup_literal|]. split; [lookup_literal|].
      intros H. apply Hcodec.
      assert (Some (PStr_or_none (get "FourCC" track)) = Some (PStr "none"))
        as [= ->]; [|done].
      rewrite <- H. symmetry. lookup_literal.
    + split; [lookup_literal|]. split; [lookup_literal|].
      intros H. apply Hcodec.
      assert (Some (PStr_or_none (get "FourCC" track)) = Some (PStr "none"))
        as [= ->]; [|done].
      rewrite <- H. symmetry. lookup_literal.
  - rewrite bool_decide_eq_false_2 by done. by intros [= <-].
Qed.

Lemma tracks_formats (ism_url : string) (ism_id : option string)
    (duration timescale : Z) (stream : Element) (stream_type : string)
    (url_pattern : string) (stream_timescale : Z)
    (stream_name : option string) (tracks : list Element)
    (formats formats' : list (gmap string pyval)) :
  stream_type = "video" \/ stream_type = "audio" ->
  for_each
    (track_step urljoin float_str ism_url ism_id duration timescale stream
       stream_type url_pattern stream_timescale stream_name)
    tracks formats = Ok formats' ->
  exists more,
    formats' = formats ++ more /\
    Forall (fun f => one_sided ism_url f) more /\
    length more = length (filter (fun track => supported track) tracks).
Proof.
  intros Htype. revert formats.
  induction tracks as [|track tracks IH]; intros formats; simpl.
  - intros [= <-]. exists []. by rewrite app_nil_r.
  - destruct (track_step _ _ _ _ _ _ _ _ _ _ _ _ track) as [fs|e] eqn:Hstep;
      [|done].
    rewrite bind_Ok. intros (more & -> & Hmore & Hlen)%IH.
    apply track_step_format in Hstep; [|done].
    rewrite filter_cons.
    destruct (decide (supported track)).
    + destruct Hstep as (f & Hf & ->). exists (f :: more).
      rewrite <- app_assoc. split; [done|].
      split; [by apply Forall_cons|]. simpl. by rewrite Hlen.
    + subst fs. by exists more.
Qed.

Lemma stream_step_formats (ism_url : string) (ism_id : option string)
    (duration timescale : Z) (formats formats' : list (gmap string pyval))
    (stream : Element) :
  stream_step urljoin float_str ism_url ism_id duration timescale formats
    stream = Ok formats' ->
  exists more,
    formats' = formats ++ more /\
    Forall (fun f => one_sided ism_url f) more /\
    length more =
      if decide (get "Type" stream ∈ [Some "video"; Some "audio"])
      then length (filter (fun track => supported track)
                     (findall "QualityLevel" stream))
      else 0.
Proof.
  unfold stream_step.
  destruct (get "Type" stream) as [stream_type|] eqn:Htype.
  - destruct (String.eqb_spec stream_type "video") as [->|Hv];
      [|destruct (String.eqb_spec stream_type "audio") as [->|Ha]];
      cbn [orb].
    + destruct (attrib_item "Url" stream) as [url_pattern|e]; [|done].
      rewrite bind_Ok. intros Hrun.
      apply tracks_formats in Hrun; [|by left].
      rewrite decide_True by apply list_elem_of_here. done.
    + destruct (attrib_item "Url" stream) as [url_pattern|e]; [|done].
      rewrite bind_Ok. intros Hrun.
      apply tracks_formats in Hrun; [|by right].
      rewrite decide_True by apply list_elem_of_further, list_elem_of_here.
      done.
    + intros [= <-]. exists []. rewrite app_nil_r.
      rewrite decide_False; [done|].
      intros [[= ->]|[[= ->]|?%elem_of_nil]%elem_of_cons]%elem_of_cons; done.
  - intros [= <-]. exists []. rewrite app_nil_r.
    rewrite decide_False; [done|].
    intros [[=]|[[=]|?%elem_of_nil]%elem_of_cons]%elem_of_cons; done.
Qed.

(** X22.  What [_parse_ism_formats] returns.  Every format has the
    manifest URL as its [url] and the protocol [ism], and has one side
    only: a format of a video stream has the extension [ismv] and no
    audio codec, a format of an audio stream has the extension [isma] and
    no video codec.  There is one format for each [QualityLevel] with a
    supported codec in a stream of type [video] or [audio], and none for
    the others; a live or protected manifest gives no format. *)
Theorem ism_formats_one_sided (ism_doc : Element) (ism_url : string)
    (ism_id : option string) (formats : list (gmap string pyval)) :
  _parse_ism_formats urljoin float_str ism_doc ism_url ism_id = Ok formats ->
  Forall (fun f =>
            f !! "url" = Some (PStr ism_url) /\
            f !! "protocol" = Some (PStr "ism") /\
            (f !! "ext" = Some (PStr "ismv") /\
             f !! "acodec" = Some (PStr "none") /\
             f !! "vcodec" <> Some (PStr "none") \/
             f !! "ext" = Some (PStr "isma") /\
             f !! "vcodec" = Some (PStr "none") /\
             f !! "acodec" <> Some (PStr "none"))) formats /\
  (if bool_decide (get "IsLive" ism_doc = Some "TRUE")
      || bool_decide (is_Some (find "Protection" ism_doc))
   then formats = []
   else
   length formats =
     sum_list_with
       (fun stream =>
          if decide (get "Type" stream ∈ [Some "video"; Some "audio"])
          then length
                 (filter (fun track =>
                            get "FourCC" track
                            ∈ [Some "H264"; Some "AVC1"; Some "AACL"])
                    (findall "QualityLevel" stream))
          else 0)
       (findall "StreamIndex" ism_doc)).
Proof.
  unfold _parse_ism_formats.
  destruct (_ || _); [by intros [= <-]|].
  destruct (attrib_item "Duration" ism_doc) as [duration|e]; [|done].
  rewrite bind_Ok.
  destruct (Str.int duration) as [duration_n|e]; [|done]. rewrite bind_Ok.
  intros Hrun.
  apply (for_each_invariant
           (fun pre fs =>
              Forall (fun f => one_sided ism_url f) fs /\
              length fs =
                sum_list_with
                  (fun stream =>
                     if decide (get "Type" stream
                                ∈ [Some "video"; Some "audio"])
                     then length (filter (fun track => supported track)
                                    (findall "QualityLevel" stream))
                     else 0) pre)) in Hrun.
  - exact Hrun.
  - done.
  - intros pre stream post fs fs' _ [Hall Hlen] Hstep.
    apply stream_step_formats in Hstep as (more & -> & Hmore & Hcount).
    split; [by apply Forall_app|].
    rewrite length_app, sum_list_with_app, Hlen, Hcount. simpl. lia.
Qed.
End ism_more.

(** ** [_xpath_ns] *)

Section xpath_ns_spec.
Import Dash.

Lemma split_nonempty (c : ascii) (s : string) : Str.split c s <> [].
Proof.
  destruct s as [|c' s]; [done|]. simpl.
  destruct (Ascii.eqb c' c); [done|]. by destruct (Str.split c s).
Qed.

Lemma split_append (c : ascii) (a b : string) :
  Str.split c (a +:+ String c b) = Str.split c a ++ Str.split c b.
Proof.
  induction a as [|c' a IH].
  - rewrite append_nil_l. simpl. by rewrite Ascii.eqb_refl.
  - rewrite append_cons. cbn [Str.split]. rewrite IH.
    destruct (Ascii.eqb c' c); [done|].
    pose proof (split_nonempty c a).
    by destruct (Str.split c a).
Qed.

Lemma join_app (sep : string) (l1 l2 : list string) :
  l1 <> [] -> l2 <> [] ->
  Str.join sep (l1 ++ l2) = Str.join sep l1 +:+ sep +:+ Str.join sep l2.
Proof.
  intros H1 H2. unfold Str.join.
  induction l1 as [|x l1 IH]; [done|].
  destruct l1 as [|y l1].
  - simpl. by destruct l2.
  - change ((x :: y :: l1) ++ l2) with (x :: (y :: l1) ++ l2).
    change (String.concat sep (x :: (y :: l1) ++ l2))
      with (x +:+ sep +:+ String.concat sep ((y :: l1) ++ l2)).
    rewrite IH by done.
    change (String.concat sep (x :: y :: l1))
      with (x +:+ sep +:+ String.concat sep (y :: l1)).
    by rewrite !append_assoc.
Qed.

Lemma split_no_separator (c : ascii) (s : string) :
  Str.find_char c s = None -> Str.split c s = [s].
Proof.
  induction s as [|c' s IH]; [done|]. simpl.
  destruct (Ascii.eqb c' c); [done|].
  destruct (Str.find_char c s); [done|]. intros _. by rewrite IH.
Qed.

(** X23.  [_xpath_ns] qualifies the steps of a path one by one: the
    result for [a/b] is the result for [a], a slash, and the result for
    [b]; the steps [.] and the empty step, as in a leading [./] or
    [//], stay as they are; and any other single step [name] becomes
    [{namespace}name].  Without a namespace the path is returned as it
    is. *)
Theorem xpath_ns_qualifies_each_step (namespace : option string) :
  (forall a b,
     _xpath_ns (a +:+ "/" +:+ b) namespace
     = _xpath_ns a namespace +:+ "/" +:+ _xpath_ns b namespace) /\
  _xpath_ns "." namespace = "." /\
  _xpath_ns "" namespace = "" /\
  (forall name ns,
     namespace = Some ns -> ns <> "" ->
     Str.find_char "/" name = None -> name <> "" -> name <> "." ->
     _xpath_ns name namespace = "{" +:+ ns +:+ "}" +:+ name) /\
  (forall path, truthy namespace = false -> _xpath_ns path namespace = path).
Proof.
  split; [|split; [|split; [|split]]].
  - intros a b. unfold _xpath_ns.
    destruct namespace as [[|c ns]|]; try done.
    change (a +:+ "/" +:+ b) with (a +:+ String "/" b).
    rewrite split_append, map_app.
    apply join_app.
    + pose proof (split_nonempty "/" a). by destruct (Str.split "/" a).
    + pose proof (split_nonempty "/" b). by destruct (Str.split "/" b).
  - by destruct namespace as [[|c ns]|].
  - by destruct namespace as [[|c ns]|].
  - intros name ns -> Hns Hname Hne Hdot. unfold _xpath_ns.
    destruct ns as [|c ns]; [done|].
    rewrite (split_no_separator _ _ Hname). cbn [map Str.join String.concat].
    apply String.eqb_neq in Hne, Hdot. by rewrite Hne, Hdot.
  - intros path Hns. by destruct namespace as [[|c ns]|].
Qed.
End xpath_ns_spec.

(** ** [is_suitable] *)

Section suitability_spec.
Import Suitability.
Variable _TEST : option testcase.
Variable _TESTS : option (list testcase).
Variable age_restricted : option Z -> option Z -> bool.

(** The age limit that [is_suitable] checks for a test case: that of the
    first entry of its playlist, when it has one. *)
Local Abbreviation checked_age_limit tc :=
  (match playlist tc with
   | first :: _ => first
   | [] => age_limit tc
   end).

Lemma suitable_loop_spec (limit : option Z) (tcs : list testcase)
    (any_restricted : bool) :
  suitable_loop age_restricted limit tcs any_restricted = true <->
  (exists tc, tc ∈ tcs /\
     age_restricted (checked_age_limit tc) limit = false) \/
  (any_restricted = false /\ tcs = []).
Proof.
  revert any_restricted. induction tcs as [|tc tcs IH]; intros any.
  - simpl. split.
    + intros ->%negb_true_iff. by right.
    + intros [(tc & Hin%elem_of_nil & _)|[-> _]]; done.
  - cbn [suitable_loop].
    destruct (age_restricted (checked_age_limit tc) limit) eqn:Hr;
      cbn [negb].
    + rewrite IH, orb_true_r. split.
      * intros [(tc' & Hin & Hfree)|[? _]]; [|done].
        left. exists tc'. split; [by apply list_elem_of_further|done].
      * intros [(tc' & [->|Hin]%elem_of_cons & Hfree)|[_ ?]]; [| |done].
        -- congruence.
        -- left. by exists tc'.
    + split; [|done]. intros _. left. exists tc.
      split; [apply list_elem_of_here|done].
Qed.

(** X24.  [is_suitable] answers yes exactly when the extractor has no
    test case that counts, or has one that [age_restricted] lets through
    at the given age limit.  The test cases that count are those without
    [only_matching]; for a test case with a playlist, the age limit
    looked at is that of the first playlist entry, not its own. *)
Theorem is_suitable_when_a_test_is_unrestricted (limit : option Z)
    (tests : list testcase) :
  match _TEST with
  | Some t => _TESTS = None /\ tests = [t]
  | None => tests = default [] _TESTS
  end ->
  exists suitable,
    is_suitable _TEST _TESTS age_restricted limit = Ok suitable /\
    (suitable = true <->
     (forall tc, tc ∈ tests -> only_matching tc = true) \/
     exists tc, tc ∈ tests /\ only_matching tc = false /\
       age_restricted
         (match playlist tc with
          | first :: _ => first
          | [] => age_limit tc
          end) limit = false).
Proof.
  intros Htests. unfold is_suitable, get_testcases.
  assert (match _TEST with
          | Some t => match _TESTS with
                      | Some _ => Raise NotEmbedded
                      | None => Ok [t]
                      end
          | None => Ok (default [] _TESTS)
          end = Ok tests) as ->.
  { destruct _TEST as [t|]; [|by subst]. by destruct Htests as [-> ->]. }
  rewrite !bind_Ok. eexists. split; [reflexivity|].
  rewrite suitable_loop_spec. cbn [negb andb].
  split.
  - intros [(tc & [Hcount Hin]%list_elem_of_filter & Hfree)|[_ Hnone]].
    + right. exists tc. split; [done|]. split; [|done].
      by apply negb_true_iff in Hcount.
    + left. intros tc Hin.
      destruct (only_matching tc) eqn:Hm; [done|].
      assert (tc ∈ filter (fun t => negb (only_matching t) = true) tests)
        as Hin'.
      { apply list_elem_of_filter. by rewrite Hm. }
      rewrite Hnone in Hin'. by apply elem_of_nil in Hin'.
  - intros [Hall|(tc & Hin & Hm & Hfree)].
    + right. split; [done|].
      destruct (filter _ tests) as [|tc tcs] eqn:Hf; [done|].
      assert (tc ∈ filter (fun t => negb (only_matching t) = true) tests)
        as [Hcount Hin]%list_elem_of_filter.
      { rewrite Hf. apply list_elem_of_here. }
      rewrite (Hall tc Hin) in Hcount. done.
    + left. exists tc. split; [|done].
      apply list_elem_of_filter. by rewrite Hm.
Qed.
End suitability_spec.

(** ** [_search_regex] and [extract] *)

Section extractor_spec.
Import Extractor.
Variable re_search : string -> string -> option (list (option string)).
Variable _name_of : string -> string.

Lemma search_each_bound (patterns : list string) (s : string) :
  search_each re_search patterns s (Ok None) =
  Ok (match list_find (fun p => is_Some (re_search p s)) patterns with
      | Some (_, p) => re_search p s
      | None => None
      end).
Proof.
  induction patterns as [|p patterns IH]; [done|].
  cbn [search_each list_find].
  destruct (re_search p s) as [groups|] eqn:Hp.
  - rewrite decide_True by (by eexists). simpl. by rewrite Hp.
  - rewrite decide_False by (by intros [? ?]). rewrite IH.
    by destruct (list_find _ patterns) as [[i q]|].
Qed.

(** X25.  With a list of patterns that is not empty, [_search_regex]
    uses the first pattern of the list that matches and none after it:
    the result is the first group of that match that is not [None], and
    [StopIteration] when the match has no such group, also when a
    default is given.  When no pattern matches, the result is the
    default when one is given, even [None]; without a default it is the
    "Unable to extract" error when [fatal] is set and [None] otherwise. *)
Theorem search_regex_first_match (p0 : string) (patterns : list string)
    (s name : string) (default_arg : default_value) (fatal : bool) :
  _search_regex re_search _name_of (Patterns (p0 :: patterns)) s name
    default_arg fatal =
  match list_find (fun p => is_Some (re_search p s)) (p0 :: patterns) with
  | Some (_, p) =>
      g ← first_group (default [] (re_search p s)); Ok (Some g)
  | None =>
      match default_arg with
      | Default v => Ok v
      | NO_DEFAULT =>
          if fatal
          then Raise (ExtractorError ("Unable to extract " +:+ _name_of name))
          else Ok None
      end
  end.
Proof.
  unfold _search_regex.
  assert (search_each re_search (p0 :: patterns) s (Raise NotEmbedded)
          = search_each re_search (p0 :: patterns) s (Ok None)) as ->.
  { cbn [search_each]. by destruct (re_search p0 s). }
  rewrite search_each_bound, bind_Ok.
  destruct (list_find _ (p0 :: patterns)) as [[i p]|] eqn:Hfind; [|done].
  apply list_find_Some in Hfind as (_ & [groups Hp] & _).
  by rewrite Hp.
Qed.

Variable Info : Type.

End extractor_spec.

(** ** The properties above on sample inputs *)

Section witnesses.
Import ET Formats Subtitles Samples MoreSamples.

Lemma remove_duplicates_keeps_first_of_each_url_witness :
  _remove_duplicate_formats formats_with_duplicate
  = Ok formats_without_duplicate /\
  exists urls unique_urls,
    mapM item_url formats_with_duplicate = Ok urls /\
    mapM item_url formats_without_duplicate = Ok unique_urls /\
    NoDup unique_urls /\
    (forall u, u ∈ unique_urls <-> u ∈ urls) /\
    sublist formats_without_duplicate formats_with_duplicate /\
    (forall i f u,
       formats_with_duplicate !! i = Some f -> item_url f = Ok u ->
       (forall j g, j < i -> formats_with_duplicate !! j = Some g ->
                    item_url g <> Ok u) ->
       f ∈ formats_without_duplicate).
Proof.
  split; [vm_compute; reflexivity|].
  apply (remove_duplicates_keeps_first_of_each_url formats_with_duplicate
           formats_without_duplicate).
  vm_compute. reflexivity.
Defined.

Lemma remove_duplicates_idempotent_witness :
  _remove_duplicate_formats formats_with_duplicate
  = Ok formats_without_duplicate /\
  _remove_duplicate_formats formats_without_duplicate
  = Ok formats_without_duplicate.
Proof.
  split; [vm_compute; reflexivity|].
  apply (remove_duplicates_idempotent formats_with_duplicate
           formats_without_duplicate).
  vm_compute. reflexivity.
Defined.

Lemma remove_duplicates_missing_url_witness :
  exists e,
    _remove_duplicate_formats (formats_with_duplicate ++ [format_without_url])
    = Raise e.
Proof.
  apply (remove_duplicates_missing_url _ format_without_url).
  - apply elem_of_app. right. apply list_elem_of_here.
  - vm_compute. reflexivity.
Defined.

Lemma check_formats_keeps_valid_witness :
  _check_formats false request_webpage formats_with_dead_url
  = Ok formats_without_dead_url /\
  sublist formats_without_dead_url formats_with_dead_url /\
  (forall f, f ∈ formats_with_dead_url ->
     exists url, f !! "url" = Some (PStr url) /\
       exists valid : bool,
         _is_valid_url false request_webpage url = Ok valid /\
         (f ∈ formats_without_dead_url <-> valid = true)).
Proof.
  split; [vm_compute; reflexivity|].
  apply (check_formats_keeps_valid false request_webpage
           formats_with_dead_url formats_without_dead_url).
  vm_compute. reflexivity.
Defined.

Lemma merge_subtitle_items_urls_witness :
  exists extra merged_urls,
    _merge_subtitle_items subtitles_vtt subtitles_vtt_srt
    = Ok (subtitles_vtt ++ extra) /\
    sublist extra subtitles_vtt_srt /\
    mapM item_url (subtitles_vtt ++ extra) = Ok merged_urls /\
    (forall u, u ∈ merged_urls <->
               u ∈ [Some "http://cdn.example/en.vtt"] \/
               u ∈ [Some "http://cdn.example/en.vtt";
                    Some "http://cdn.example/en.srt"]) /\
    (NoDup [Some "http://cdn.example/en.vtt"] ->
     NoDup [Some "http://cdn.example/en.vtt";
            Some "http://cdn.example/en.srt"] ->
     NoDup merged_urls).
Proof.
  apply (merge_subtitle_items_urls subtitles_vtt subtitles_vtt_srt).
  - vm_compute. reflexivity.
  - vm_compute. reflexivity.
Defined.

Lemma merge_subtitle_items_self_witness :
  _merge_subtitle_items subtitles_vtt_srt subtitles_vtt_srt
  = Ok subtitles_vtt_srt /\
  _merge_subtitle_items subtitles_vtt_srt [] = Ok subtitles_vtt_srt.
Proof.
  apply (merge_subtitle_items_self subtitles_vtt_srt
           [Some "http://cdn.example/en.vtt";
            Some "http://cdn.example/en.srt"]).
  vm_compute. reflexivity.
Defined.

Lemma merge_subtitle_items_missing_url_witness :
  exists e,
    _merge_subtitle_items subtitles_vtt [subtitle_with_data] = Raise e.
Proof.
  apply (merge_subtitle_items_missing_url _ _ subtitle_with_data).
  - right. apply list_elem_of_here.
  - vm_compute. reflexivity.
Defined.

(** The second dictionary has both items of the first one's language. *)
Lemma merge_subtitles_by_language_witness :
  _merge_subtitles subtitles_first subtitles_second = Ok subtitles_second /\
  (forall lang, subtitles_second !! lang = None ->
                subtitles_second !! lang = subtitles_first !! lang) /\
  (forall lang items,
     subtitles_second !! lang = Some items ->
     exists merged,
       _merge_subtitle_items (default [] (subtitles_first !! lang)) items
       = Ok merged /\
       subtitles_second !! lang = Some merged).
Proof.
  split; [vm_compute; reflexivity|].
  apply (merge_subtitles_by_language subtitles_first subtitles_second
           subtitles_second).
  vm_compute. reflexivity.
Defined.

Lemma sort_formats_idempotent_witness :
  Selector._sort_formats determine_ext determine_protocol false
    [muxed_format; audio_format] = Ok [audio_format; muxed_format] /\
  Selector._sort_formats determine_ext determine_protocol false
    [audio_format; muxed_format] = Ok [audio_format; muxed_format].
Proof.
  split; [vm_compute; reflexivity|].
  apply (sort_formats_idempotent determine_ext determine_protocol false
           [muxed_format; audio_format]).
  vm_compute. reflexivity.
Defined.

Lemma m3u8_formats_shape_witness :
  Forall (fun f => exists u : string, f !! "url" = Some (PStr u))
    master_playlist_formats /\
  (fetch_master "http://cdn.example/hls/master.m3u8" true = Ok None /\
   master_playlist_formats = [] \/
   exists doc final,
     fetch_master "http://cdn.example/hls/master.m3u8" true
     = Ok (Some (doc, final)) /\
     if Str.contains "#EXT-X-TARGETDURATION" doc then
       exists f, master_playlist_formats = [f] /\
                 f !! "url" = Some (PStr final) /\
                 f !! "format_id" = Some (PStr_or_none (Some "hls"))
     else
       exists rest,
         master_playlist_formats
         = Hls._m3u8_meta_format final (Some "mp4") (Some 1%Z) (Some "hls")
           :: rest /\
         length rest <= length (Hls.splitlines doc)).
Proof.
  apply (m3u8_formats_shape fetch_master parse_m3u8_attributes std_urljoin
           (fun _ _ => None) parse_codecs (fun _ => None) (fun _ => None)
           (Some "mp4") "m3u8_native" (Some 1%Z) (Some "hls") false
           "http://cdn.example/hls/master.m3u8" true).
  vm_compute. reflexivity.
Defined.

Lemma m3u8_formats_remove_duplicates_witness :
  exists unique,
    _remove_duplicate_formats master_playlist_formats = Ok unique /\
    head unique = head master_playlist_formats.
Proof.
  apply (m3u8_formats_remove_duplicates fetch_master parse_m3u8_attributes
           std_urljoin (fun _ _ => None) parse_codecs (fun _ => None)
           (fun _ => None) (Some "mp4") "m3u8_native" (Some 1%Z) (Some "hls")
           false "http://cdn.example/hls/master.m3u8" true).
  vm_compute. reflexivity.
Defined.

Lemma timeline_fragment_count_witness :
  length timeline_sample_fragments
  = sum_list_with (fun e => S (Z.to_nat (Dash.s_r e))) [Dash.SEntry 0 10 2] /\
  forall elements total,
    for_each Dash.add_s elements (0%Z, [])
    = Ok (total, [Dash.SEntry 0 10 2]) ->
    (Forall (fun e => 0 <= Dash.s_r e)%Z [Dash.SEntry 0 10 2] ->
     Z.of_nat (length timeline_sample_fragments) = total) /\
    (Exists (fun e => Dash.s_r e < 0)%Z [Dash.SEntry 0 10 2] ->
     (total < Z.of_nat (length timeline_sample_fragments))%Z).
Proof.
  apply (timeline_fragment_count "seg-%(Time)d.m4s" (Some 800000%Z)
           ms_timeline).
  - reflexivity.
  - vm_compute. reflexivity.
Defined.


Lemma mpd_format_ids_distinct_witness :
  exists ids,
    Forall2 (fun (f : gmap string pyval) (id : option string) =>
               f !! "format_id" = Some (PStr_or_none id))
      mpd_two_periods_formats ids /\
    NoDup ids.
Proof.
  apply (mpd_format_ids_distinct parse_duration mimetype2ext parse_codecs
           urljoin None ∅ None mpd_two_periods "http://cdn.example/v/").
  - reflexivity.
  - vm_compute. reflexivity.
Defined.

Lemma f4m_stream_level_manifest_witness :
  Forall (fun f =>
            f !! "url" = Some (PStr "http://cdn.example/hds/stream.f4m") /\
            f !! "ext" = Some (PStr "flv")) f4m_stream_level_formats /\
  forall extract_f4m' extract_m3u8',
    F4m._parse_f4m_formats (fun nodes => nodes) xpath_text xpath_element
      determine_ext extract_f4m' extract_m3u8' None None f4m_stream_level
      "http://cdn.example/hds/stream.f4m" = Ok f4m_stream_level_formats.
Proof.
  apply (f4m_stream_level_manifest (fun nodes => nodes) xpath_text
           xpath_element determine_ext (fun _ => Raise ValueError)
           (fun _ => Raise ValueError) None None f4m_stream_level
           (element (F4m.ns1 +:+ "bootstrapInfo") [] (Some "AAAA") [])
           "http://cdn.example/hds/stream.f4m").
  - vm_compute. reflexivity.
  - vm_compute. reflexivity.
Defined.

Lemma f4m_cyclic_manifest_never_returns_witness :
  F4m._extract_f4m_formats (fun _ _ => Ok (Some f4m_cyclic))
    (fun nodes => nodes) xpath_text xpath_element (fun _ => "f4m")
    (fun _ _ _ _ => Ok []) 1000 "http://cdn.example/hds/manifest.f4m"
    None None true None = Raise RecursionError.
Proof.
  apply (f4m_cyclic_manifest_never_returns (fun _ _ => Ok (Some f4m_cyclic))
           (fun nodes => nodes) xpath_text xpath_element (fun _ => "f4m")
           (fun _ _ _ _ => Ok []) f4m_cyclic
           "http://cdn.example/hds/manifest.f4m"
           [element (F4m.ns1 +:+ "media")
              [("url", "http://cdn.example/hds/manifest.f4m")] None []]
           []
           (element (F4m.ns1 +:+ "media")
              [("url", "http://cdn.example/hds/manifest.f4m")] None [])).
  - intros fatal. reflexivity.
  - vm_compute. reflexivity.
  - vm_compute. reflexivity.
  - discriminate.
  - reflexivity.
  - vm_compute. reflexivity.
  - vm_compute. reflexivity.
  - vm_compute. reflexivity.
  - reflexivity.
Defined.

Lemma ism_formats_one_sided_witness :
  Forall (fun f =>
            f !! "url" = Some (PStr "http://cdn.example/v.ism/") /\
            f !! "protocol" = Some (PStr "ism") /\
            (f !! "ext" = Some (PStr "ismv") /\
             f !! "acodec" = Some (PStr "none") /\
             f !! "vcodec" <> Some (PStr "none") \/
             f !! "ext" = Some (PStr "isma") /\
             f !! "vcodec" = Some (PStr "none") /\
             f !! "acodec" <> Some (PStr "none"))) ism_two_chunks_formats /\
  (if bool_decide (get "IsLive" ism_two_chunks = Some "TRUE")
      || bool_decide (is_Some (find "Protection" ism_two_chunks))
   then ism_two_chunks_formats = []
   else
   length ism_two_chunks_formats =
     sum_list_with
       (fun stream =>
          if decide (get "Type" stream ∈ [Some "video"; Some "audio"])
          then length
                 (filter (fun track =>
                            get "FourCC" track
                            ∈ [Some "H264"; Some "AVC1"; Some "AACL"])
                    (findall "QualityLevel" stream))
          else 0)
       (findall "StreamIndex" ism_two_chunks)).
Proof.
  apply (ism_formats_one_sided std_urljoin float_str ism_two_chunks
           "http://cdn.example/v.ism/" None).
  vm_compute. reflexivity.
Defined.

Lemma is_suitable_when_a_test_is_unrestricted_witness :
  exists suitable,
    Suitability.is_suitable None (Some testcases) age_restricted (Some 16%Z)
    = Ok suitable /\
    (suitable = true <->
     (forall tc, tc ∈ testcases -> Suitability.only_matching tc = true) \/
     exists tc, tc ∈ testcases /\ Suitability.only_matching tc = false /\
       age_restricted
         (match Suitability.playlist tc with
          | first :: _ => first
          | [] => Suitability.age_limit tc
          end) (Some 16%Z) = false).
Proof.
  apply (is_suitable_when_a_test_is_unrestricted None (Some testcases)
           age_restricted (Some 16%Z) testcases).
  reflexivity.
Defined.
End witnesses.
